(** * llm-cli: session store, context window, streaming aggregation

    A shallow embedding of [core/chat_manager.py], [core/api_client.py],
    [config/config.py] and [LLMCLIApp.send_message] of [main.py], with the
    parts of the Python runtime they call ([str] slicing, text files opened
    with [encoding="utf-8"], [json.dump] / [json.load]) written out as
    executable functions.

    Every [print] and [console.print] is a call that can raise (rich
    refuses markup it cannot parse, a terminal may lack a character): the
    terminal is part of the world, and a statement that needs an output
    to succeed says so.

    Layout: definitions first (Python values, UTF-8, JSON, effects, the
    three classes), then the lemmas and theorems about them. *)

From Stdlib Require Import ZArith List Lia String Ascii.
From Stdlib.Strings Require Import Byte.
From stdpp Require Import base option list gmap.

Open Scope Z_scope.

(* ===================================================================== *)
(** ** Python values *)
(* ===================================================================== *)

(** A Python [str] is a sequence of code points. *)
Abbreviation pystr := (list Z).

(** An ASCII literal of the source, as a [str]. *)
Definition lit (s : string) : pystr :=
  map (fun a : ascii => Z.of_N (N_of_ascii a)) (list_ascii_of_string s).

(** [l[start:]] for a list (or a [str]): a negative [start] counts from the
    end, and both directions are clamped to the bounds of [l]. *)
Definition slice_from {A : Type} (start : Z) (l : list A) : list A :=
  let n := Z.of_nat (length l) in
  let i := if start <? 0 then Z.max 0 (n + start) else Z.min start n in
  drop (Z.to_nat i) l.

(** [len(l)]. *)
Definition len {A : Type} (l : list A) : Z := Z.of_nat (length l).

(* ===================================================================== *)
(** ** config/config.py *)
(* ===================================================================== *)

Definition MAX_CONTEXT_MESSAGES : Z := 20.
Definition MAX_HISTORY_MESSAGES : Z := 1000.
Definition MAX_TOKENS : Z := 4096.
Definition HISTORY_FILE : pystr := lit ".chat_history".

(* ===================================================================== *)
(** ** UTF-8, the codec of [open(..., encoding="utf-8")] *)
(* ===================================================================== *)

Definition byte_of_Z (z : Z) : byte :=
  match Byte.of_N (Z.to_N z) with
  | Some b => b
  | None => x00
  end.

Definition Z_of_byte (b : byte) : Z := Z.of_N (Byte.to_N b).

(** Code points that the strict codec can encode: everything up to
    U+10FFFF except the surrogates U+D800..U+DFFF. *)
Definition is_scalar (c : Z) : bool :=
  (0 <=? c) && (c <? 1114112) && negb ((55296 <=? c) && (c <=? 57343)).

(** One code point to its 1 to 4 bytes; [None] is [UnicodeEncodeError]. *)
Definition utf8_encode_char (c : Z) : option (list byte) :=
  if negb (is_scalar c) then None
  else if c <? 128 then Some [byte_of_Z c]
  else if c <? 2048 then
    Some [byte_of_Z (192 + c / 64); byte_of_Z (128 + c mod 64)]
  else if c <? 65536 then
    Some [byte_of_Z (224 + c / 4096);
          byte_of_Z (128 + (c / 64) mod 64);
          byte_of_Z (128 + c mod 64)]
  else
    Some [byte_of_Z (240 + c / 262144);
          byte_of_Z (128 + (c / 4096) mod 64);
          byte_of_Z (128 + (c / 64) mod 64);
          byte_of_Z (128 + c mod 64)].

Fixpoint utf8_encode (s : pystr) : option (list byte) :=
  match s with
  | [] => Some []
  | c :: s' =>
      match utf8_encode_char c, utf8_encode s' with
      | Some bs, Some bs' => Some (bs ++ bs')
      | _, _ => None
      end
  end.

(** A continuation byte [10xxxxxx]. *)
Definition is_cont (b : byte) : bool :=
  (128 <=? Z_of_byte b) && (Z_of_byte b <? 192).

Definition cont_bits (b : byte) : Z := Z_of_byte b - 128.

(** Strict decoding; [None] is [UnicodeDecodeError]: a stray continuation
    byte, an overlong form, a truncated sequence, an encoded surrogate or a
    value above U+10FFFF. *)
Fixpoint utf8_decode (bs : list byte) : option pystr :=
  match bs with
  | [] => Some []
  | b0 :: r0 =>
      let z0 := Z_of_byte b0 in
      if z0 <? 128 then
        match utf8_decode r0 with
        | Some s => Some (z0 :: s)
        | None => None
        end
      else if z0 <? 194 then None
      else if z0 <? 224 then
        match r0 with
        | b1 :: r1 =>
            if is_cont b1 then
              match utf8_decode r1 with
              | Some s => Some ((z0 - 192) * 64 + cont_bits b1 :: s)
              | None => None
              end
            else None
        | _ => None
        end
      else if z0 <? 240 then
        match r0 with
        | b1 :: b2 :: r2 =>
            let c := (z0 - 224) * 4096 + cont_bits b1 * 64 + cont_bits b2 in
            if is_cont b1 && is_cont b2 && (2048 <=? c) && is_scalar c then
              match utf8_decode r2 with
              | Some s => Some (c :: s)
              | None => None
              end
            else None
        | _ => None
        end
      else if z0 <? 245 then
        match r0 with
        | b1 :: b2 :: b3 :: r3 =>
            let c := (z0 - 240) * 262144 + cont_bits b1 * 4096
                     + cont_bits b2 * 64 + cont_bits b3 in
            if is_cont b1 && is_cont b2 && is_cont b3
               && (65536 <=? c) && is_scalar c then
              match utf8_decode r3 with
              | Some s => Some (c :: s)
              | None => None
              end
            else None
        | _ => None
        end
      else None
  end.

(** Reading in text mode with the default [newline=None]: ["\r\n"] and a
    lone ["\r"] both arrive as ["\n"]. *)
Fixpoint universal_newlines (s : pystr) : pystr :=
  match s with
  | [] => []
  | c :: r =>
      if c =? 13 then
        match r with
        | d :: r' => if d =? 10 then 10 :: universal_newlines r'
                     else 10 :: universal_newlines r
        | [] => [10]
        end
      else c :: universal_newlines r
  end.

(* ===================================================================== *)
(** ** JSON, as [json.dump(obj, f, ensure_ascii=False, indent=2)] writes it
       and [json.load(f)] reads it *)
(* ===================================================================== *)

(** What [json.load] can return.  A number keeps its lexeme ([NaN],
    [Infinity] and [-Infinity] included); an object keeps its members in
    document order, and becomes a [dict] (last duplicate wins) when it is
    used as one. *)
#[warnings="-register-all"] Inductive json : Type :=
| JNull
| JBool (b : bool)
| JNumber (lexeme : pystr)
| JString (s : pystr)
| JArray (items : list json)
| JObject (members : list (pystr * json)).

(** *** Encoder *)

Definition hex_digit (d : Z) : Z := if d <? 10 then 48 + d else 87 + d.

(** ['\\u{0:04x}'.format(c)] *)
Definition escape_u (c : Z) : pystr :=
  [92; 117; hex_digit ((c / 4096) mod 16); hex_digit ((c / 256) mod 16);
   hex_digit ((c / 16) mod 16); hex_digit (c mod 16)].

(** [ESCAPE_DCT]: the replacement of one character matched by [ESCAPE],
    any other character stands for itself. *)
Definition escape_char (c : Z) : pystr :=
  if c =? 34 then [92; 34]
  else if c =? 92 then [92; 92]
  else if c =? 10 then [92; 110]
  else if c =? 13 then [92; 114]
  else if c =? 9 then [92; 116]
  else if c =? 8 then [92; 98]
  else if c =? 12 then [92; 102]
  else if (0 <=? c) && (c <? 32) then escape_u c
  else [c].

(** [encode_basestring]: the quoted string, non-ASCII left as it is. *)
Definition encode_basestring (s : pystr) : pystr :=
  34 :: concat (map escape_char s) ++ [34].

(** ["\n" + " " * (2 * level)] *)
Definition newline_indent (level : nat) : pystr :=
  10 :: repeat 32 (2 * level).

(** [_iterencode] with [indent=2]: the item separator is [","] followed by
    the newline and indentation, the key separator is [": "]. *)
Fixpoint iterencode (level : nat) (j : json) : pystr :=
  match j with
  | JNull => lit "null"
  | JBool true => lit "true"
  | JBool false => lit "false"
  | JNumber lexeme => lexeme
  | JString s => encode_basestring s
  | JArray [] => lit "[]"
  | JArray (x :: xs) =>
      91 :: newline_indent (S level) ++ iterencode (S level) x
      ++ concat (map (fun y =>
                        44 :: newline_indent (S level)
                        ++ iterencode (S level) y) xs)
      ++ newline_indent level ++ [93]
  | JObject [] => lit "{}"
  | JObject ((k, v) :: kvs) =>
      123 :: newline_indent (S level) ++ encode_basestring k ++ [58; 32]
      ++ iterencode (S level) v
      ++ concat (map (fun kv : pystr * json =>
                        let (k', v') := kv in
                        44 :: newline_indent (S level)
                        ++ encode_basestring k' ++ [58; 32]
                        ++ iterencode (S level) v') kvs)
      ++ newline_indent level ++ [125]
  end.

Definition dumps (j : json) : pystr := iterencode 0 j.

(** *** Decoder *)

Definition is_ws (c : Z) : bool :=
  (c =? 32) || (c =? 9) || (c =? 10) || (c =? 13).

Fixpoint skip_ws (s : pystr) : pystr :=
  match s with
  | c :: r => if is_ws c then skip_ws r else s
  | [] => []
  end.

Definition hex_value (c : Z) : option Z :=
  if (48 <=? c) && (c <=? 57) then Some (c - 48)
  else if (97 <=? c) && (c <=? 102) then Some (c - 87)
  else if (65 <=? c) && (c <=? 70) then Some (c - 55)
  else None.

(** [_decode_uXXXX]: exactly four hexadecimal digits. *)
Definition decode_uXXXX (h1 h2 h3 h4 : Z) : option Z :=
  match hex_value h1, hex_value h2, hex_value h3, hex_value h4 with
  | Some a, Some b, Some c, Some d => Some (a * 4096 + b * 256 + c * 16 + d)
  | _, _, _, _ => None
  end.

(** [BACKSLASH]: the one-character escapes. *)
Definition backslash (e : Z) : option Z :=
  if e =? 34 then Some 34
  else if e =? 92 then Some 92
  else if e =? 47 then Some 47
  else if e =? 98 then Some 8
  else if e =? 102 then Some 12
  else if e =? 110 then Some 10
  else if e =? 114 then Some 13
  else if e =? 116 then Some 9
  else None.

Definition cons_fst {A B : Type} (a : A) (r : option (list A * B))
  : option (list A * B) :=
  match r with
  | Some (l, b) => Some (a :: l, b)
  | None => None
  end.

(** [scanstring] in strict mode, from just after the opening quote: the
    decoded string and the text after the closing quote.  [None] is
    [JSONDecodeError] (unterminated string, control character, bad escape). *)
Fixpoint scanstring (s : pystr) : option (pystr * pystr) :=
  match s with
  | [] => None
  | c :: r =>
      if c =? 34 then Some ([], r)
      else if c =? 92 then
        match r with
        | [] => None
        | e :: r1 =>
            if e =? 117 then
              match r1 with
              | h1 :: h2 :: h3 :: h4 :: r2 =>
                  match decode_uXXXX h1 h2 h3 h4 with
                  | None => None
                  | Some uni =>
                      if (55296 <=? uni) && (uni <=? 56319) then
                        match r2 with
                        | b :: u :: g1 :: g2 :: g3 :: g4 :: r3 =>
                            if (b =? 92) && (u =? 117) then
                              match decode_uXXXX g1 g2 g3 g4 with
                              | None => None
                              | Some uni2 =>
                                  if (56320 <=? uni2) && (uni2 <=? 57343) then
                                    cons_fst
                                      (65536 + ((uni - 55296) * 1024
                                                + (uni2 - 56320)))
                                      (scanstring r3)
                                  else cons_fst uni (scanstring r2)
                              end
                            else cons_fst uni (scanstring r2)
                        | b :: u :: _ =>
                            if (b =? 92) && (u =? 117) then None
                            else cons_fst uni (scanstring r2)
                        | _ => cons_fst uni (scanstring r2)
                        end
                      else cons_fst uni (scanstring r2)
                  end
              | _ => None
              end
            else
              match backslash e with
              | Some c' => cons_fst c' (scanstring r1)
              | None => None
              end
        end
      else if (0 <=? c) && (c <? 32) then None
      else cons_fst c (scanstring r)
  end.

Definition is_digit (c : Z) : bool := (48 <=? c) && (c <=? 57).

Fixpoint span_digits (s : pystr) : pystr * pystr :=
  match s with
  | c :: r =>
      if is_digit c then let (d, r') := span_digits r in (c :: d, r')
      else ([], s)
  | [] => ([], [])
  end.

(** [NUMBER_RE]: an optional minus sign, then [0] or a digit [1]..[9]
    followed by digits ([match_int]); an optional fraction, a dot and at
    least one digit ([match_frac]); an optional exponent, [e] or [E], an
    optional sign and at least one digit ([match_exp]). *)
Definition match_int (s : pystr) : option (pystr * pystr) :=
  match s with
  | c :: r =>
      if c =? 48 then Some ([48], r)
      else if is_digit c then let (d, r') := span_digits r in Some (c :: d, r')
      else None
  | [] => None
  end.

Definition match_frac (s : pystr) : pystr * pystr :=
  match s with
  | c :: r =>
      if c =? 46 then
        match span_digits r with
        | ([], _) => ([], s)
        | (d, r') => (46 :: d, r')
        end
      else ([], s)
  | [] => ([], s)
  end.

Definition match_exp (s : pystr) : pystr * pystr :=
  match s with
  | e :: r =>
      if (e =? 101) || (e =? 69) then
        let (sign, r1) :=
          match r with
          | c :: r' => if (c =? 45) || (c =? 43) then ([c], r') else ([], r)
          | [] => ([], r)
          end in
        match span_digits r1 with
        | ([], _) => ([], s)
        | (d, r2) => (e :: sign ++ d, r2)
        end
      else ([], s)
  | [] => ([], s)
  end.

Definition match_number (s : pystr) : option (pystr * pystr) :=
  let (sign, s1) :=
    match s with
    | c :: r => if c =? 45 then ([45], r) else ([], s)
    | [] => ([], s)
    end in
  match match_int s1 with
  | None => None
  | Some (i, s2) =>
      let (f, s3) := match_frac s2 in
      let (e, s4) := match_exp s3 in
      Some (sign ++ i ++ f ++ e, s4)
  end.

(** [string[idx:idx+len(p)] == p]: the text after the prefix [p]. *)
Fixpoint strip_prefix (p s : pystr) : option pystr :=
  match p, s with
  | [], _ => Some s
  | a :: p', b :: s' => if a =? b then strip_prefix p' s' else None
  | _ :: _, [] => None
  end.

(** The constants and numbers of [scan_once], tried in its order. *)
Definition scan_atom (s : pystr) : option (json * pystr) :=
  match strip_prefix (lit "null") s with
  | Some r => Some (JNull, r)
  | None =>
  match strip_prefix (lit "true") s with
  | Some r => Some (JBool true, r)
  | None =>
  match strip_prefix (lit "false") s with
  | Some r => Some (JBool false, r)
  | None =>
  match match_number s with
  | Some (x, r) => Some (JNumber x, r)
  | None =>
  match strip_prefix (lit "NaN") s with
  | Some r => Some (JNumber (lit "NaN"), r)
  | None =>
  match strip_prefix (lit "Infinity") s with
  | Some r => Some (JNumber (lit "Infinity"), r)
  | None =>
  match strip_prefix (lit "-Infinity") s with
  | Some r => Some (JNumber (lit "-Infinity"), r)
  | None => None
  end end end end end end end.

(** [scan_once], [JSONArray] and [JSONObject].  [None] is
    [JSONDecodeError].  The recursion is on [fuel]; [loads] passes the
    length of the text plus one, and [loads_dumps] shows that this is
    enough for every document that [dumps] writes.  [elements] starts at
    the first character of a value, [members] just after the opening quote
    of a key. *)
Fixpoint scan_once (fuel : nat) (s : pystr) {struct fuel}
  : option (json * pystr) :=
  match fuel with
  | O => None
  | S f =>
      match s with
      | [] => None
      | c :: r =>
          if c =? 34 then
            match scanstring r with
            | Some (str, r') => Some (JString str, r')
            | None => None
            end
          else if c =? 123 then
            match skip_ws r with
            | [] => None
            | d :: r' =>
                if d =? 125 then Some (JObject [], r')
                else if d =? 34 then
                  match members f r' with
                  | Some (kvs, r'') => Some (JObject kvs, r'')
                  | None => None
                  end
                else None
            end
          else if c =? 91 then
            match skip_ws r with
            | [] => None
            | d :: r' =>
                if d =? 93 then Some (JArray [], r')
                else
                  match elements f (d :: r') with
                  | Some (vs, r'') => Some (JArray vs, r'')
                  | None => None
                  end
            end
          else scan_atom s
      end
  end
with elements (fuel : nat) (s : pystr) {struct fuel}
  : option (list json * pystr) :=
  match fuel with
  | O => None
  | S f =>
      match scan_once f s with
      | None => None
      | Some (v, r) =>
          match skip_ws r with
          | [] => None
          | d :: r' =>
              if d =? 93 then Some ([v], r')
              else if d =? 44 then
                match elements f (skip_ws r') with
                | Some (vs, r'') => Some (v :: vs, r'')
                | None => None
                end
              else None
          end
      end
  end
with members (fuel : nat) (s : pystr) {struct fuel}
  : option (list (pystr * json) * pystr) :=
  match fuel with
  | O => None
  | S f =>
      match scanstring s with
      | None => None
      | Some (k, r) =>
          match skip_ws r with
          | [] => None
          | d :: r1 =>
              if d =? 58 then
                match scan_once f (skip_ws r1) with
                | None => None
                | Some (v, r2) =>
                    match skip_ws r2 with
                    | [] => None
                    | e :: r3 =>
                        if e =? 125 then Some ([(k, v)], r3)
                        else if e =? 44 then
                          match skip_ws r3 with
                          | [] => None
                          | q :: r4 =>
                              if q =? 34 then
                                match members f r4 with
                                | Some (kvs, r5) => Some ((k, v) :: kvs, r5)
                                | None => None
                                end
                              else None
                          end
                        else None
                    end
                end
              else None
          end
      end
  end.

(** [json.loads(s)]: a leading U+FEFF is refused, the value may be
    surrounded by whitespace, and anything after it is "Extra data".
    This is the parser with room to recurse: the [RecursionError] that
    the interpreter raises on a text nested deeper than its limit is not
    decided here, it is one of the ways a read can fail ([read_failure]
    below). *)
Definition loads (s : pystr) : option json :=
  match s with
  | 65279 :: _ => None
  | _ =>
      match scan_once (S (length s)) (skip_ws s) with
      | Some (v, r) =>
          match skip_ws r with
          | [] => Some v
          | _ :: _ => None
          end
      | None => None
      end
  end.

(* ===================================================================== *)
(** ** Effects: files, terminal output, exceptions *)
(* ===================================================================== *)

(** The exceptions that reach the modelled code.  [UnicodeEncodeError] and
    [UnicodeDecodeError] are those of the codec of the history file;
    [RuntimeError] stands for its subclasses too ([RecursionError]);
    [OutputError] is an exception of [print] or [console.print] that is no
    [RuntimeError], with its text. *)
Inductive exn : Type :=
| KeyError (key : pystr)
| UnicodeEncodeError
| UnicodeDecodeError
| RuntimeError (text : pystr)
| OutputError (text : pystr).

(** What the program does to the outside, in the order it does it. *)
Inductive event : Type :=
| ConsolePrint (text : pystr)          (* console.print(text) *)
| ConsoleMarkdown (text : pystr)       (* console.print(Markdown(text)) *)
| ConsoleBlank                         (* console.print() *)
| Print (text : pystr)                 (* print(text, end="", flush=True) *)
| PrintLn                              (* print() *)
| Save (path : pystr) (doc : pystr).   (* open(path, "w"), json.dump of doc *)

(** What a call of [print] or [console.print] raises when it fails, with
    its text [str(e)]: rich's [MarkupError] for a text whose markup does
    not parse (a closing tag that closes nothing, as in ["[/x]"]), the
    [UnicodeEncodeError] of a terminal whose encoding lacks a character,
    an [OSError] of the stream.  These are no [RuntimeError]s;
    [is_runtime_error] is set for a stream that raises one. *)
Record output_error : Type := {
  is_runtime_error : bool;
  output_error_text : pystr
}.

(** The outside of the program: the files, what the program has done so
    far, and the terminal, which decides from what was done so far
    whether the next output is shown or raises. *)
Record World : Type := {
  files : gmap pystr (list byte);
  trace : list event;
  terminal : list event -> event -> option output_error
}.

(** A terminal that shows whatever it is given. *)
Definition quiet : list event -> event -> option output_error :=
  fun _ _ => None.

Definition emit (e : event) (w : World) : World :=
  {| files := files w; trace := trace w ++ [e]; terminal := terminal w |}.

Definition set_file (path : pystr) (data : option (list byte)) (w : World)
  : World :=
  {| files := match data with
              | Some bs => <[path := bs]> (files w)
              | None => delete path (files w)
              end;
     trace := trace w;
     terminal := terminal w |}.

(** What the operating system does to one attempt to write a file:
    [write_error] is the text of the [IOError] that [open] or a write
    raises, if one does; [residue] is what the path holds afterwards when
    the write did not run to its end ([None]: no such file). *)
Record write_env : Type := {
  write_error : option pystr;
  residue : option (list byte)
}.

(** What stops one attempt to read a file before its text is parsed to
    the end: the [IOError] of [open] or [read], or the [RecursionError]
    that the parser raises on a document nested deeper than the
    interpreter allows at that moment; each with its text. *)
Inductive read_failure : Type :=
| ReadIOError (text : pystr)
| ReadRecursionError (text : pystr).

(** The same for one attempt to read: what stops it, if anything does, and
    the text of the [JSONDecodeError] that the parser raises when the
    document does not parse. *)
Record read_env : Type := {
  read_error : option read_failure;
  parse_error_text : pystr
}.

(** The outcome of a method on an object of state [St]: a normal return, an
    exception that leaves the method, or, for the loader alone, a document
    that parsed to a value which is not a [Dict[str, List[Dict[str, str]]]]
    with the three message keys: the source binds [self.sessions] to it
    unchecked, and the typed embedding stops there. *)
Inductive result (St A : Type) : Type :=
| Ok (a : A) (st : St) (w : World)
| Raise (e : exn) (st : St) (w : World)
| Untyped (j : json) (w : World).

Arguments Ok {St A} a st w.
Arguments Raise {St A} e st w.
Arguments Untyped {St A} j w.

Definition M (St A : Type) : Type := St -> World -> result St A.

Definition ret {St A : Type} (a : A) : M St A := fun st w => Ok a st w.

Definition bind {St A B : Type} (m : M St A) (k : A -> M St B) : M St B :=
  fun st w =>
    match m st w with
    | Ok a st' w' => k a st' w'
    | Raise e st' w' => Raise e st' w'
    | Untyped j w' => Untyped j w'
    end.

Notation "'let*' x ':=' m 'in' k" := (bind m (fun x => k))
  (at level 10, x name, m at level 100, k at level 200, only parsing).
Notation "m ;;; k" := (bind m (fun _ => k))
  (at level 100, k at level 200, right associativity, only parsing).

Definition raise {St A : Type} (e : exn) : M St A := fun st w => Raise e st w.

Definition gets {St A : Type} (f : St -> A) : M St A :=
  fun st w => Ok (f st) st w.

Definition modify {St : Type} (f : St -> St) : M St unit :=
  fun st w => Ok tt (f st) w.

(** The exception a failed output raises. *)
Definition raised (x : output_error) : exn :=
  if is_runtime_error x
  then RuntimeError (output_error_text x)
  else OutputError (output_error_text x).

(** One call of [print] or [console.print]: the output is made, or the
    call raises and nothing is recorded. *)
Definition output {St : Type} (e : event) : M St unit :=
  fun st w =>
    match terminal w (trace w) e with
    | None => Ok tt st (emit e w)
    | Some x => Raise (raised x) st w
    end.

Definition console_print {St : Type} (text : pystr) : M St unit :=
  output (ConsolePrint text).

(** [try: body  except RuntimeError as e: handler(e)] *)
Definition try_except_RuntimeError {St A : Type}
  (body : M St A) (handler : pystr -> M St A) : M St A :=
  fun st w =>
    match body st w with
    | Raise (RuntimeError text) st' w' => handler text st' w'
    | r => r
    end.

(** Run a method of a field of the object. *)
Definition on_field {St Fld A : Type}
  (get : St -> Fld) (set : Fld -> St -> St) (m : M Fld A) : M St A :=
  fun st w =>
    match m (get st) w with
    | Ok a fld w' => Ok a (set fld st) w'
    | Raise e fld w' => Raise e (set fld st) w'
    | Untyped j w' => Untyped j w'
    end.

(* ===================================================================== *)
(** ** core/chat_manager.py *)
(* ===================================================================== *)

(** A stored message, [{"role": ..., "content": ..., "timestamp": ...}]. *)
Record message : Type := {
  role : pystr;
  content : pystr;
  timestamp : pystr
}.

(** A message as sent to the API, [{"role": ..., "content": ...}]. *)
Record api_message : Type := {
  api_role : pystr;
  api_content : pystr
}.

Record ChatManager : Type := {
  history_file : pystr;
  sessions : gmap pystr (list message);
  current_session : pystr
}.

Definition set_sessions (s : gmap pystr (list message)) (self : ChatManager)
  : ChatManager :=
  {| history_file := history_file self;
     sessions := s;
     current_session := current_session self |}.

Definition set_current_session (name : pystr) (self : ChatManager)
  : ChatManager :=
  {| history_file := history_file self;
     sessions := sessions self;
     current_session := name |}.

(** [self.sessions[key]], a [KeyError] when [key] is absent. *)
Definition getitem (key : pystr) : M ChatManager (list message) :=
  fun self w =>
    match sessions self !! key with
    | Some msgs => Ok msgs self w
    | None => Raise (KeyError key) self w
    end.

(** [self.sessions[key] = msgs] *)
Definition setitem (key : pystr) (msgs : list message) : M ChatManager unit :=
  modify (fun self => set_sessions (<[key := msgs]> (sessions self)) self).

(** The messages and session table as the [json] module sees them. *)
Definition json_of_message (m : message) : json :=
  JObject [(lit "role", JString (role m));
           (lit "content", JString (content m));
           (lit "timestamp", JString (timestamp m))].

Definition json_of_sessions (s : gmap pystr (list message)) : json :=
  JObject (map (fun kv : pystr * list message =>
                  (kv.1, JArray (map json_of_message kv.2)))
               (map_to_list s)).

(** [dict(pairs)]: of two members with one key the later one stays. *)
Definition as_dict {A : Type} (pairs : list (pystr * A)) : gmap pystr A :=
  list_to_map (reverse pairs).

Definition message_of_json (j : json) : option message :=
  match j with
  | JObject pairs =>
      let d := as_dict pairs in
      match d !! lit "role", d !! lit "content", d !! lit "timestamp" with
      | Some (JString r), Some (JString c), Some (JString t) =>
          if bool_decide (size d = 3%nat)
          then Some {| role := r; content := c; timestamp := t |}
          else None
      | _, _, _ => None
      end
  | _ => None
  end.

Definition messages_of_json (j : json) : option (list message) :=
  match j with
  | JArray items => mapM message_of_json items
  | _ => None
  end.

(** The loaded value read at the type the class declares for
    [self.sessions]; [None] when it has another shape. *)
Definition sessions_of_json (j : json) : option (gmap pystr (list message)) :=
  match j with
  | JObject pairs =>
      let d := messages_of_json <$> as_dict pairs in
      if bool_decide (map_Forall (fun _ o => is_Some o) d)
      then Some (omap id d)
      else None
  | _ => None
  end.

(** The texts printed by the class. *)
Definition msg_history_cleared : pystr :=
  lit "[green]Chat history cleared.[/green]".
Definition msg_switched (name : pystr) : pystr :=
  lit "[green]Switched to session: " ++ name ++ lit "[/green]".
Definition msg_not_found (name : pystr) : pystr :=
  lit "[red]Session '" ++ name ++ lit "' not found.[/red]".
Definition msg_cannot_delete_current : pystr :=
  lit "[red]Cannot delete current session. Switch to another session first.[/red]".
Definition msg_deleted (name : pystr) : pystr :=
  lit "[green]Session '" ++ name ++ lit "' deleted.[/green]".
Definition msg_already_exists (name : pystr) : pystr :=
  lit "[red]Session '" ++ name ++ lit "' already exists.[/red]".
Definition msg_renamed (old_name new_name : pystr) : pystr :=
  lit "[green]Session renamed from '" ++ old_name ++ lit "' to '"
  ++ new_name ++ lit "'.[/green]".
Definition msg_error_saving (e : pystr) : pystr :=
  lit "[red]Error saving history: " ++ e ++ lit "[/red]".
Definition msg_error_loading (e : pystr) : pystr :=
  lit "[red]Error loading history: " ++ e ++ lit "[/red]".

(** [_trim_history] *)
Definition _trim_history : M ChatManager unit :=
  let* cur := gets current_session in
  let* msgs := getitem cur in
  if len msgs >? MAX_HISTORY_MESSAGES * 2
  then setitem cur (slice_from (- MAX_HISTORY_MESSAGES) msgs)
  else ret tt.

(** [add_message]; [now] is [datetime.now().isoformat()]. *)
Definition add_message (role content now : pystr) : M ChatManager unit :=
  let message := {| role := role; content := content; timestamp := now |} in
  let* cur := gets current_session in
  let* msgs := getitem cur in
  setitem cur (msgs ++ [message]) ;;;
  _trim_history.

Definition strip_timestamp (msg : message) : api_message :=
  {| api_role := role msg; api_content := content msg |}.

(** [get_messages_for_api] *)
Definition get_messages_for_api : M ChatManager (list api_message) :=
  let* cur := gets current_session in
  let* msgs := getitem cur in
  ret (map strip_timestamp msgs).

(** [get_context] *)
Definition get_context : M ChatManager (list api_message) :=
  let* cur := gets current_session in
  let* msgs := getitem cur in
  ret (map strip_timestamp (slice_from (- MAX_CONTEXT_MESSAGES) msgs)).

(** [save_history].  The [IOError] of [open] or of a write is caught and
    reported (an exception of that [console.print] leaves the method); a
    [str] that UTF-8 cannot encode raises [UnicodeEncodeError], which the
    [except IOError] does not catch.  The text is written as it is: the
    line separator of the platform is taken to be the line feed. *)
Definition save_history (io : write_env) : M ChatManager unit :=
  fun self w =>
    let path := history_file self in
    let doc := dumps (json_of_sessions (sessions self)) in
    let w1 := emit (Save path doc) w in
    match write_error io with
    | Some e =>
        console_print (msg_error_saving e) self
                      (set_file path (residue io) w1)
    | None =>
        match utf8_encode doc with
        | Some data => Ok tt self (set_file path (Some data) w1)
        | None => Raise UnicodeEncodeError self (set_file path (residue io) w1)
        end
    end.

(** [load_history].  [os.path.exists] is the presence of the path; the
    handler catches [IOError] and [json.JSONDecodeError] and nothing else,
    so the [UnicodeDecodeError] of a file that is not UTF-8 and the
    [RecursionError] (a [RuntimeError]) of a document nested too deep
    leave the method.  The handler prints first and assigns the fallback
    after: an exception of its [console.print] leaves the table as it
    was. *)
Definition load_history (io : read_env) : M ChatManager unit :=
  fun self w =>
    match files w !! history_file self with
    | None => Ok tt self w
    | Some data =>
        let fallback (e : pystr) :=
          (console_print (msg_error_loading e) ;;;
           modify (set_sessions {[ lit "default" := [] ]})) self w in
        match read_error io with
        | Some (ReadIOError e) => fallback e
        | _ =>
            match utf8_decode data with
            | None => Raise UnicodeDecodeError self w
            | Some text =>
                match read_error io with
                | Some (ReadRecursionError e) => Raise (RuntimeError e) self w
                | _ =>
                    match loads (universal_newlines text) with
                    | None => fallback (parse_error_text io)
                    | Some j =>
                        match sessions_of_json j with
                        | Some s => Ok tt (set_sessions s self) w
                        | None => Untyped j w
                        end
                    end
                end
            end
        end
    end.

(** [__init__]; [now] is [datetime.now().strftime('%Y%m%d_%H%M%S')].  The
    object starts with [sessions = {}] and no [current_session] yet (the
    empty name stands for the unset attribute, nothing reads it before it
    is assigned). *)
Definition __init__ (history_file : pystr) (now : pystr) (io : read_env)
  (w : World) : result ChatManager unit :=
  (load_history io ;;;
   let new_session_name := lit "chat_" ++ now in
   setitem new_session_name [] ;;;
   modify (set_current_session new_session_name))
    {| history_file := history_file; sessions := ∅; current_session := [] |}
    w.

(** [clear_history] *)
Definition clear_history (io : write_env) : M ChatManager unit :=
  let* cur := gets current_session in
  setitem cur [] ;;;
  save_history io ;;;
  console_print msg_history_cleared.

(** [switch_session] *)
Definition switch_session (session_name : pystr) : M ChatManager unit :=
  let* s := gets sessions in
  (if bool_decide (s !! session_name = None)
   then setitem session_name []
   else ret tt) ;;;
  modify (set_current_session session_name) ;;;
  console_print (msg_switched session_name).

(** [delete_session] *)
Definition delete_session (session_name : pystr) (io : write_env)
  : M ChatManager unit :=
  let* s := gets sessions in
  if bool_decide (s !! session_name = None)
  then console_print (msg_not_found session_name)
  else
    let* cur := gets current_session in
    if bool_decide (session_name = cur)
    then console_print msg_cannot_delete_current
    else
      modify (fun self => set_sessions (delete session_name (sessions self)) self) ;;;
      save_history io ;;;
      console_print (msg_deleted session_name).

(** [rename_session] *)
Definition rename_session (old_name new_name : pystr) (io : write_env)
  : M ChatManager unit :=
  let* s := gets sessions in
  if bool_decide (s !! old_name = None)
  then console_print (msg_not_found old_name)
  else if bool_decide (s !! new_name = None)
  then
    (* self.sessions[new_name] = self.sessions.pop(old_name) *)
    let* popped := getitem old_name in
    modify (fun self => set_sessions (delete old_name (sessions self)) self) ;;;
    setitem new_name popped ;;;
    let* cur := gets current_session in
    (if bool_decide (cur = old_name)
     then modify (set_current_session new_name)
     else ret tt) ;;;
    save_history io ;;;
    console_print (msg_renamed old_name new_name)
  else console_print (msg_already_exists new_name).

(* ===================================================================== *)
(** ** core/api_client.py *)
(* ===================================================================== *)

Record LLMClient : Type := {
  api_key : pystr;
  base_url : pystr;
  model : pystr
}.

(** What [client.chat.completions.create] is asked (the sampling
    temperature, a float that [chat] passes on untouched, is left out). *)
Record request : Type := {
  req_model : pystr;
  req_messages : list api_message;
  req_max_tokens : Z;
  req_stream : bool
}.

(** An exception of the remote call: an [APIError] or any other
    [Exception], with its text. *)
Record service_error : Type := {
  is_api_error : bool;
  error_text : pystr
}.

(** A streaming response: the [delta.content] of the chunks that arrive
    ([None] for a chunk without content), and the text of the exception
    that ends the iteration when it does not end by exhaustion. *)
Record stream : Type := {
  chunks : list (option pystr);
  stream_error : option pystr
}.

(** The Remote Model Service: the reply to a plain request (the
    [choices[0].message.content] of the response) and to a streaming one. *)
Record service : Type := {
  create : request -> service_error + pystr;
  create_stream : request -> service_error + stream
}.

Definition msg_stream_error (e : pystr) : pystr :=
  10 :: lit "[red]Stream error: " ++ e ++ lit "[/red]".

(** The loop of [_handle_stream]: print and append every fragment.  A
    [print] that raises ends the loop before its fragment is appended;
    the third component is its exception. *)
Fixpoint consume (response : list (option pystr)) (full_response : pystr)
  (w : World) : pystr * World * option output_error :=
  match response with
  | [] => (full_response, w, None)
  | Some content :: rest =>
      match terminal w (trace w) (Print content) with
      | None =>
          consume rest (full_response ++ content) (emit (Print content) w)
      | Some x => (full_response, w, Some x)
      end
  | None :: rest => consume rest full_response w
  end.

(** [_handle_stream]: whatever ends the [try] block (the exception of the
    stream, of a [print] in the loop or of the [print()] after it), the
    handler reports it and the text gathered so far is returned, unless
    the [console.print] of the handler raises in its turn. *)
Definition _handle_stream (response : stream) : M LLMClient pystr :=
  fun self w =>
    let '(full_response, w1, failed) := consume (chunks response) [] w in
    let handler (e : pystr) :=
      (console_print (msg_stream_error e) ;;; ret full_response) self w1 in
    match failed with
    | Some x => handler (output_error_text x)
    | None =>
        match stream_error response with
        | Some e => handler e
        | None =>
            match terminal w1 (trace w1) PrintLn with
            | None => Ok full_response self (emit PrintLn w1)
            | Some x => handler (output_error_text x)
            end
        end
    end.

(** [except Exception as e: raise RuntimeError(f"Unexpected error: {e}")]
    around the aggregator, whose exceptions are those of the terminal and
    carry their text (lemma [_handle_stream_final]). *)
Definition unexpected (e : exn) : exn :=
  match e with
  | RuntimeError text | OutputError text =>
      RuntimeError (lit "Unexpected error: " ++ text)
  | _ => e
  end.

Definition reraise_unexpected {St A : Type} (body : M St A) : M St A :=
  fun st w =>
    match body st w with
    | Raise e st' w' => Raise (unexpected e) st' w'
    | r => r
    end.

Definition wrap_error (e : service_error) : exn :=
  if is_api_error e
  then RuntimeError (lit "API Error: " ++ error_text e)
  else RuntimeError (lit "Unexpected error: " ++ error_text e).

(** [chat]; a [system_prompt] that is [None] or empty adds no message. *)
Definition chat (messages : list api_message) (system_prompt : option pystr)
  (stream : bool) (remote : service) : M LLMClient pystr :=
  let full_messages :=
    match system_prompt with
    | Some (c :: p) =>
        {| api_role := lit "system"; api_content := c :: p |} :: messages
    | _ => messages
    end in
  let* m := gets model in
  let req := {| req_model := m; req_messages := full_messages;
                req_max_tokens := MAX_TOKENS; req_stream := stream |} in
  if stream then
    match create_stream remote req with
    | inl e => raise (wrap_error e)
    | inr response => reraise_unexpected (_handle_stream response)
    end
  else
    match create remote req with
    | inl e => raise (wrap_error e)
    | inr text => ret text
    end.

(* ===================================================================== *)
(** ** main.py: [LLMCLIApp.send_message] *)
(* ===================================================================== *)

Record LLMCLIApp : Type := {
  chat_manager : ChatManager;
  llm_client : option LLMClient;
  system_prompt : pystr;
  streaming : bool
}.

Definition set_chat_manager (cm : ChatManager) (self : LLMCLIApp)
  : LLMCLIApp :=
  {| chat_manager := cm; llm_client := llm_client self;
     system_prompt := system_prompt self; streaming := streaming self |}.

Definition set_llm_client (c : LLMClient) (self : LLMCLIApp) : LLMCLIApp :=
  {| chat_manager := chat_manager self; llm_client := Some c;
     system_prompt := system_prompt self; streaming := streaming self |}.

Definition on_chat_manager {A : Type} (m : M ChatManager A) : M LLMCLIApp A :=
  on_field chat_manager set_chat_manager m.

Definition on_llm_client {A : Type} (c : LLMClient) (m : M LLMClient A)
  : M LLMCLIApp A :=
  on_field (fun _ => c) set_llm_client m.

Definition msg_not_initialized : pystr :=
  lit "[red]LLM client not initialized. Use /config to set up API key.[/red]".
Definition msg_thinking : pystr :=
  10 :: lit "[cyan]" ++ [240; 376; 164; 8221] ++ lit " Thinking...[/cyan]"
  ++ [10].
Definition msg_assistant : pystr := lit "[bold green]Assistant:[/bold green]".
Definition msg_error (e : pystr) : pystr :=
  lit "[red]" ++ [226; 339; 8212] ++ lit " Error: " ++ e ++ lit "[/red]"
  ++ [10].

(** What one call of [send_message] meets outside: the two readings of the
    clock, the remote service and the file system. *)
Record send_env : Type := {
  now_user : pystr;
  now_assistant : pystr;
  remote : service;
  save_io : write_env
}.

(** [send_message] *)
Definition send_message (user_input : pystr) (env : send_env)
  : M LLMCLIApp unit :=
  let* client := gets llm_client in
  match client with
  | None => console_print msg_not_initialized
  | Some c =>
      on_chat_manager (add_message (lit "user") user_input (now_user env)) ;;;
      let* messages := on_chat_manager get_context in
      console_print msg_thinking ;;;
      try_except_RuntimeError
        (let* prompt := gets system_prompt in
         let* stream := gets streaming in
         let* response :=
           on_llm_client c (chat messages (Some prompt) stream (remote env)) in
         on_chat_manager
           (add_message (lit "assistant") response (now_assistant env)) ;;;
         (if negb stream
          then console_print msg_assistant ;;;
               output (ConsoleMarkdown response) ;;;
               output ConsoleBlank
          else ret tt) ;;;
         let* msgs :=
           on_chat_manager (let* cur := gets current_session in getitem cur) in
         if len msgs mod 4 =? 0
         then on_chat_manager (save_history (save_io env))
         else ret tt)
        (fun e => console_print (msg_error e))
  end.

(* ===================================================================== *)
(** ** Vocabulary of the statements *)
(* ===================================================================== *)

(** The object and the world a call ends with, whichever way it ends. *)
Definition final_state {St A : Type} (r : result St A) : option St :=
  match r with
  | Ok _ st _ | Raise _ st _ => Some st
  | Untyped _ _ => None
  end.

Definition final_world {St A : Type} (r : result St A) : World :=
  match r with
  | Ok _ _ w | Raise _ _ w | Untyped _ w => w
  end.

(** A property of the object that holds however the call ends (a run the
    typed embedding does not follow leaves no object to speak of). *)
Definition holds_after {St A : Type} (P : St -> Prop) (r : result St A)
  : Prop :=
  match final_state r with
  | Some st => P st
  | None => True
  end.

(** The [Save] events of a trace: the calls of [save_history]. *)
Definition is_save (e : event) : bool :=
  match e with
  | Save _ _ => true
  | _ => false
  end.

Definition saves (w : World) : list event := List.filter is_save (trace w).

(** The session table's invariant: [current_session] is one of its keys. *)
Definition current_in_sessions (self : ChatManager) : Prop :=
  is_Some (sessions self !! current_session self).

(** What [_trim_history] leaves of a session. *)
Definition trimmed (msgs : list message) : list message :=
  if len msgs >? MAX_HISTORY_MESSAGES * 2
  then slice_from (- MAX_HISTORY_MESSAGES) msgs
  else msgs.

(** The document [save_history] writes for a table. *)
Definition document (self : ChatManager) : pystr :=
  dumps (json_of_sessions (sessions self)).

(** Several events, one after the other. *)
Definition emits (es : list event) (w : World) : World :=
  {| files := files w; trace := trace w ++ es; terminal := terminal w |}.

(** The terminal of a world shows an output whenever it is made. *)
Definition renders (w : World) (e : event) : Prop :=
  forall tr, terminal w tr e = None.

(** A caller appending one message after the other; an input is the role,
    the content and the reading of the clock. *)
Fixpoint add_messages (inputs : list (pystr * pystr * pystr))
  : M ChatManager unit :=
  match inputs with
  | [] => ret tt
  | (r, c, t) :: rest => add_message r c t ;;; add_messages rest
  end.

Definition message_of_input (i : pystr * pystr * pystr) : message :=
  {| role := i.1.1; content := i.1.2; timestamp := i.2 |}.

(** Strings that UTF-8 can encode, and session tables made of them. *)
Definition encodable (s : pystr) : Prop := Forall (fun c => is_scalar c = true) s.

Definition encodable_message (m : message) : Prop :=
  encodable (role m) /\ encodable (content m) /\ encodable (timestamp m).

Definition encodable_sessions (s : gmap pystr (list message)) : Prop :=
  map_Forall (fun name msgs => encodable name /\ Forall encodable_message msgs) s.

(** A JSON value without numbers whose strings, keys included, are all
    encodable: what a session table of encodable strings looks like to the
    [json] module. *)
Fixpoint clean (j : json) : Prop :=
  match j with
  | JNull | JBool _ => True
  | JNumber _ => False
  | JString s => encodable s
  | JArray items => foldr (fun x P => clean x /\ P) True items
  | JObject members =>
      foldr (fun kv P => encodable kv.1 /\ clean kv.2 /\ P) True members
  end.

(** The number of values in a JSON value, which bounds the fuel its
    scanning needs. *)
Fixpoint size_json (j : json) : nat :=
  match j with
  | JArray items => S (foldr (fun x n => S (size_json x + n)) 0%nat items)
  | JObject members =>
      S (foldr (fun kv n => S (size_json kv.2 + n)) 0%nat members)
  | _ => 1%nat
  end.

(** The first character of an encoded value. *)
Definition opens_value (c : Z) : Prop :=
  c = 110 \/ c = 116 \/ c = 102 \/ c = 34 \/ c = 91 \/ c = 123.

(** With fuel for its size, an encoded value in front of any text scans as
    the value, and the text is left. *)
Definition scans (j : json) : Prop :=
  forall level rest fuel, (size_json j <= fuel)%nat ->
    scan_once fuel (iterencode level j ++ rest) = Some (j, rest).

(** A character of a document that UTF-8 encodes and text mode reads back
    unchanged: a scalar value other than the carriage return. *)
Definition text_char (c : Z) : Prop := is_scalar c = true /\ c <> 13.

(** The request [chat] makes for a client whose model is [m]. *)
Definition chat_request (m : pystr) (messages : list api_message)
  (prompt : pystr) (stream : bool) : request :=
  {| req_model := m;
     req_messages :=
       match prompt with
       | [] => messages
       | _ :: _ => {| api_role := lit "system"; api_content := prompt |}
                   :: messages
       end;
     req_max_tokens := MAX_TOKENS;
     req_stream := stream |}.

(** The fragments of a stream, in the order they arrived, as one text. *)
Definition fragments_text (response : list (option pystr)) : pystr :=
  concat (omap id response).

(** The terminal shows every fragment of a stream. *)
Definition shows_fragments (w : World) (response : list (option pystr))
  : Prop :=
  forall content, Some content ∈ response -> renders w (Print content).

(** The terminal shows a reply that was not streamed: the three outputs
    of [send_message] after a plain request. *)
Definition shows_reply (w : World) (stream : bool) (response : pystr)
  : Prop :=
  stream = false ->
  renders w (ConsolePrint msg_assistant)
  /\ renders w (ConsoleMarkdown response)
  /\ renders w ConsoleBlank.

(** What [send_message] does inside its [try] once the reply is stored:
    display it when it was not streamed, then save when the number of
    messages is a multiple of 4. *)
Definition display_and_save (response : pystr) (stream : bool)
  (env : send_env) : M LLMCLIApp unit :=
  (if negb stream
   then console_print msg_assistant ;;;
        output (ConsoleMarkdown response) ;;;
        output ConsoleBlank
   else ret tt) ;;;
  let* msgs :=
    on_chat_manager (let* cur := gets current_session in getitem cur) in
  if len msgs mod 4 =? 0
  then on_chat_manager (save_history (save_io env))
  else ret tt.

(* ===================================================================== *)
(** * Lemmas *)
(* ===================================================================== *)

(** ** Slices *)

Lemma slice_from_neg {A : Type} (k : Z) (l : list A) :
  0 < k -> slice_from (- k) l = drop (length l - Z.to_nat k) l.
Proof.
  intros Hk. unfold slice_from.
  destruct (Z.ltb_spec (- k) 0) as [_|]; [|lia].
  f_equal. lia.
Qed.

Lemma slice_from_neg_length {A : Type} (k : Z) (l : list A) :
  0 < k -> len (slice_from (- k) l) = Z.min (len l) k.
Proof.
  intros Hk. rewrite slice_from_neg by done.
  unfold len. rewrite length_drop. lia.
Qed.

Lemma slice_from_suffix {A : Type} (start : Z) (l : list A) :
  slice_from start l `suffix_of` l.
Proof. unfold slice_from. apply suffix_drop. Qed.

Lemma slice_from_neg_short {A : Type} (k : Z) (l : list A) :
  0 < k -> len l <= k -> slice_from (- k) l = l.
Proof.
  intros Hk Hl. rewrite slice_from_neg by done. unfold len in Hl.
  replace (length l - Z.to_nat k)%nat with 0%nat by lia. done.
Qed.

(** The last [k] of a list are the last [k] of any of its suffixes that
    has [k] elements or more. *)
Lemma slice_from_neg_of_suffix {A : Type} (k : Z) (l1 l2 : list A) :
  0 < k -> l1 `suffix_of` l2 -> k <= len l1 ->
  slice_from (- k) l1 = slice_from (- k) l2.
Proof.
  intros Hk [pre ->] Hlen. rewrite !slice_from_neg by done.
  unfold len in Hlen. rewrite length_app.
  replace (length pre + length l1 - Z.to_nat k)%nat
    with (length pre + (length l1 - Z.to_nat k))%nat by lia.
  by rewrite drop_app_add'.
Qed.

Lemma slice_from_neg_snoc {A : Type} (k : Z) (l : list A) (x : A) :
  0 < k -> exists older, slice_from (- k) (l ++ [x]) = older ++ [x].
Proof.
  intros Hk. rewrite slice_from_neg by done. rewrite length_app. simpl.
  destruct (decide (Z.to_nat k <= length l)%nat).
  - exists (drop (length l + 1 - Z.to_nat k) l).
    rewrite drop_app_le by lia. f_equal.
  - exists l. replace (length l + 1 - Z.to_nat k)%nat with 0%nat by lia. done.
Qed.

(** ** The monad of methods *)

Lemma bind_ret_l {St A B : Type} (a : A) (k : A -> M St B) st w :
  bind (ret a) k st w = k a st w.
Proof. done. Qed.

Lemma bind_unit_ret_r {St : Type} (m : M St unit) st w :
  bind m (fun _ => ret tt) st w = m st w.
Proof. unfold bind, ret. by destruct (m st w) as [[] ? ?| |]. Qed.

Lemma bind_assoc {St A B C : Type} (m : M St A) (f : A -> M St B)
  (g : B -> M St C) st w :
  bind (bind m f) g st w = bind m (fun a => bind (f a) g) st w.
Proof. unfold bind. by destruct (m st w). Qed.

Lemma bind_ext {St A B : Type} (m : M St A) (f g : A -> M St B) st w :
  (forall a st' w', f a st' w' = g a st' w') ->
  bind m f st w = bind m g st w.
Proof. intros H. unfold bind. destruct (m st w); [apply H | done | done]. Qed.

Lemma bind_Ok {St A B : Type} (m : M St A) (k : A -> M St B) st w a st' w' :
  m st w = Ok a st' w' -> bind m k st w = k a st' w'.
Proof. intros H. unfold bind. by rewrite H. Qed.

(** ** The session table *)

Arguments slice_from : simpl never.
Arguments len : simpl never.

Lemma MAX_HISTORY_MESSAGES_pos : 0 < MAX_HISTORY_MESSAGES.
Proof. reflexivity. Qed.

Lemma MAX_CONTEXT_MESSAGES_pos : 0 < MAX_CONTEXT_MESSAGES.
Proof. reflexivity. Qed.

Lemma set_sessions_id (self : ChatManager) :
  set_sessions (sessions self) self = self.
Proof. by destruct self. Qed.

Lemma set_sessions_twice (s1 s2 : gmap pystr (list message)) self :
  set_sessions s2 (set_sessions s1 self) = set_sessions s2 self.
Proof. done. Qed.

Lemma trimmed_suffix msgs : trimmed msgs `suffix_of` msgs.
Proof.
  unfold trimmed. destruct (_ >? _); [apply slice_from_suffix | done].
Qed.

Lemma trimmed_snoc msgs m : exists older, trimmed (msgs ++ [m]) = older ++ [m].
Proof.
  unfold trimmed. destruct (_ >? _).
  - apply slice_from_neg_snoc, MAX_HISTORY_MESSAGES_pos.
  - by exists msgs.
Qed.

Lemma _trim_history_run self w msgs :
  sessions self !! current_session self = Some msgs ->
  _trim_history self w
  = Ok tt (set_sessions (<[current_session self := trimmed msgs]>
                           (sessions self)) self) w.
Proof.
  intros H. unfold _trim_history, bind, gets, getitem. rewrite H.
  unfold trimmed. destruct (len msgs >? MAX_HISTORY_MESSAGES * 2); [done|].
  unfold ret. rewrite insert_id by done. by rewrite set_sessions_id.
Qed.

Lemma add_message_run r c t self w msgs :
  sessions self !! current_session self = Some msgs ->
  add_message r c t self w
  = Ok tt (set_sessions
             (<[current_session self :=
                  trimmed (msgs ++ [{| role := r; content := c;
                                       timestamp := t |}])]>
                (sessions self)) self) w.
Proof.
  intros H. unfold add_message, bind at 1 2 3, gets, getitem. rewrite H.
  unfold setitem, modify.
  rewrite (_trim_history_run _ _
             (msgs ++ [{| role := r; content := c; timestamp := t |}])).
  - cbn. by rewrite insert_insert_eq.
  - cbn. by rewrite lookup_insert_eq.
Qed.

Lemma add_message_KeyError r c t self w :
  sessions self !! current_session self = None ->
  add_message r c t self w = Raise (KeyError (current_session self)) self w.
Proof.
  intros H. unfold add_message, bind, gets, getitem. by rewrite H.
Qed.

Lemma add_messages_snoc inputs x self w :
  add_messages (inputs ++ [x]) self w
  = (add_messages inputs ;;;
     add_message x.1.1 x.1.2 x.2) self w.
Proof.
  revert self w. induction inputs as [|[[r c] t] inputs IH]; intros self w.
  - destruct x as [[r c] t]. cbn [add_messages app fst snd].
    by rewrite bind_ret_l, bind_unit_ret_r.
  - cbn [add_messages app]. rewrite bind_assoc.
    apply bind_ext. intros _ st' w'. apply IH.
Qed.

(** A run of appends keeps a suffix of everything that was appended. *)
Lemma add_messages_run inputs self w msgs :
  sessions self !! current_session self = Some msgs ->
  exists stored,
    add_messages inputs self w
    = Ok tt (set_sessions (<[current_session self := stored]> (sessions self))
                          self) w
    /\ stored `suffix_of` msgs ++ map message_of_input inputs.
Proof.
  revert self msgs. induction inputs as [|[[r c] t] inputs IH]; intros self msgs H.
  - exists msgs. split.
    + cbn. unfold ret. rewrite insert_id by done. by rewrite set_sessions_id.
    + by rewrite app_nil_r.
  - cbn [add_messages]. unfold bind. rewrite (add_message_run _ _ _ _ _ msgs H).
    set (m := {| role := r; content := c; timestamp := t |}).
    destruct (IH (set_sessions (<[current_session self := trimmed (msgs ++ [m])]>
                                  (sessions self)) self)
                 (trimmed (msgs ++ [m]))) as (stored & Hrun & Hsuf).
    { cbn. by rewrite lookup_insert_eq. }
    exists stored. split.
    + rewrite Hrun. cbn. by rewrite insert_insert_eq.
    + etrans; [exact Hsuf|]. cbn [map].
      change (message_of_input (r, c, t)) with m.
      replace (msgs ++ m :: map message_of_input inputs)
        with ((msgs ++ [m]) ++ map message_of_input inputs)
        by (by rewrite <- app_assoc).
      apply suffix_app, trimmed_suffix.
Qed.

(** C2.  Appending to the current session.  Whatever was appended before
    (the inputs [inputs], to a session that starts empty) and whatever is
    appended now ([x], the N-th message): when the session with the new
    message has more than [2 * MAX_HISTORY_MESSAGES] messages it is cut down
    to its last [MAX_HISTORY_MESSAGES], in their order, and otherwise it is
    the old session with the new message at its end; the other sessions and
    the current name are not touched.  When the cut happens, N exceeds
    [2 * MAX_HISTORY_MESSAGES], what is stored is the last
    [MAX_HISTORY_MESSAGES] of all N messages, and that is
    [min N MAX_HISTORY_MESSAGES] messages. *)
Theorem add_message_trim_hysteresis
  (inputs : list (pystr * pystr * pystr)) (x : pystr * pystr * pystr)
  (self : ChatManager) (w : World) :
  sessions self !! current_session self = Some [] ->
  let new := message_of_input x in
  let all := map message_of_input (inputs ++ [x]) in
  let N := len all in
  exists before stored self1 self2,
    add_messages inputs self w = Ok tt self1 w
    /\ sessions self1 !! current_session self1 = Some before
    /\ add_message x.1.1 x.1.2 x.2 self1 w = Ok tt self2 w
    /\ add_messages (inputs ++ [x]) self w = Ok tt self2 w
    /\ self2 = set_sessions (<[current_session self := stored]> (sessions self))
                            self
    /\ stored `suffix_of` all
    /\ (len (before ++ [new]) <= 2 * MAX_HISTORY_MESSAGES ->
        stored = before ++ [new])
    /\ (len (before ++ [new]) > 2 * MAX_HISTORY_MESSAGES ->
        stored = drop (length (before ++ [new]) - Z.to_nat MAX_HISTORY_MESSAGES)
                      (before ++ [new])
        /\ stored = drop (length all - Z.to_nat MAX_HISTORY_MESSAGES) all
        /\ N > 2 * MAX_HISTORY_MESSAGES
        /\ len stored = MAX_HISTORY_MESSAGES
        /\ len stored = Z.min N MAX_HISTORY_MESSAGES).
Proof.
  intros Hcur new all N.
  destruct (add_messages_run inputs self w [] Hcur) as (before & Hrun & Hsuf).
  rewrite app_nil_l in Hsuf.
  set (self1 := set_sessions (<[current_session self := before]> (sessions self))
                             self) in *.
  assert (Hcur1 : sessions self1 !! current_session self1 = Some before).
  { cbn. by rewrite lookup_insert_eq. }
  pose proof (add_message_run x.1.1 x.1.2 x.2 self1 w before Hcur1) as Hadd.
  change {| role := x.1.1; content := x.1.2; timestamp := x.2 |} with new in Hadd.
  cbn [self1 current_session sessions set_sessions] in Hadd.
  rewrite insert_insert_eq in Hadd. fold self1 in Hadd.
  change (set_sessions ?s self1) with (set_sessions s self) in Hadd.
  assert (Hall : before ++ [new] `suffix_of` all).
  { unfold all. rewrite map_app. by apply suffix_app. }
  exists before, (trimmed (before ++ [new])), self1.
  eexists.
  split; [exact Hrun|]. split; [exact Hcur1|]. split; [exact Hadd|].
  split. { rewrite add_messages_snoc. by rewrite (bind_Ok _ _ _ _ _ _ _ Hrun). }
  split; [done|].
  split. { etrans; [apply trimmed_suffix | exact Hall]. }
  pose proof MAX_HISTORY_MESSAGES_pos as Hpos.
  unfold trimmed. split.
  - intros Hle. destruct (Z.gtb_spec (len (before ++ [new]))
                             (MAX_HISTORY_MESSAGES * 2)); [lia | done].
  - intros Hgt. destruct (Z.gtb_spec (len (before ++ [new]))
                             (MAX_HISTORY_MESSAGES * 2)); [|lia].
    pose proof (suffix_length _ _ Hall) as Hlen.
    assert (HN : N > 2 * MAX_HISTORY_MESSAGES).
    { unfold N, len in *. lia. }
    split; [by apply slice_from_neg|].
    split.
    { rewrite (slice_from_neg_of_suffix _ _ all) by (done || lia).
      by apply slice_from_neg. }
    split; [exact HN|].
    rewrite slice_from_neg_length by done. lia.
Qed.

(** The hypothesis of [add_message_trim_hysteresis] at a fresh table with
    one empty session, and the first append to it. *)
Lemma add_message_trim_hysteresis_witness :
  let self := {| history_file := HISTORY_FILE;
                 sessions := {[ lit "s" := [] ]};
                 current_session := lit "s" |} in
  let w := {| files := ∅; trace := []; terminal := quiet |} in
  sessions self !! current_session self = Some []
  /\ exists self2,
       add_messages ([] ++ [(lit "user", lit "hi", lit "t0")]) self w
       = Ok tt self2 w.
Proof.
  intros self w.
  assert (H : sessions self !! current_session self = Some [])
    by (vm_compute; reflexivity).
  split; [exact H|].
  destruct (add_message_trim_hysteresis [] (lit "user", lit "hi", lit "t0")
              self w H) as (before & stored & self1 & self2 & _ & _ & _ & Hall & _).
  exists self2. exact Hall.
Defined.

(** The band at work: 2000 appends are all kept, the 2001st cuts the
    session down to 1000. *)
Example add_messages_2001 :
  let self := {| history_file := HISTORY_FILE;
                 sessions := {[ lit "s" := [] ]};
                 current_session := lit "s" |} in
  let w := {| files := ∅; trace := []; terminal := quiet |} in
  let x := (lit "user", lit "hi", lit "t") in
  (length <$> (final_state (add_messages (repeat x 2000) self w)
               ≫= fun st => sessions st !! lit "s")) = Some 2000%nat
  /\ (length <$> (final_state (add_messages (repeat x 2001) self w)
                  ≫= fun st => sessions st !! lit "s")) = Some 1000%nat.
Proof. vm_compute. split; reflexivity. Qed.

(** ** The context window *)

Lemma get_context_run self w msgs :
  sessions self !! current_session self = Some msgs ->
  get_context self w
  = Ok (map strip_timestamp (slice_from (- MAX_CONTEXT_MESSAGES) msgs)) self w.
Proof.
  intros H. unfold get_context, bind, gets, getitem. by rewrite H.
Qed.

(** C3.  For a current session [hist] of N messages, [get_context] returns
    the last [min N MAX_CONTEXT_MESSAGES] of them, oldest first, each cut
    down to its role and content; the object and the world are as before
    the call, and a second call right after the first returns the same
    list. *)
Theorem get_context_window (self : ChatManager) (w : World)
  (hist : list message) :
  sessions self !! current_session self = Some hist ->
  let window := drop (length hist - Z.to_nat MAX_CONTEXT_MESSAGES) hist in
  get_context self w = Ok (map strip_timestamp window) self w
  /\ window `suffix_of` hist
  /\ len window = Z.min (len hist) MAX_CONTEXT_MESSAGES
  /\ len (map strip_timestamp window) = Z.min (len hist) MAX_CONTEXT_MESSAGES
  /\ (let* first := get_context in
      let* second := get_context in
      ret (first, second)) self w
     = Ok (map strip_timestamp window, map strip_timestamp window) self w.
Proof.
  intros H window.
  pose proof MAX_CONTEXT_MESSAGES_pos as Hpos.
  assert (Hw : slice_from (- MAX_CONTEXT_MESSAGES) hist = window)
    by (by apply slice_from_neg).
  pose proof (get_context_run self w hist H) as Hrun. rewrite Hw in Hrun.
  split; [exact Hrun|].
  split; [apply suffix_drop|].
  assert (Hlen : len window = Z.min (len hist) MAX_CONTEXT_MESSAGES).
  { rewrite <- Hw. by apply slice_from_neg_length. }
  split; [exact Hlen|].
  split. { unfold len in *. by rewrite length_map. }
  rewrite (bind_Ok _ _ _ _ _ _ _ Hrun).
  by rewrite (bind_Ok _ _ _ _ _ _ _ Hrun).
Qed.

(** The hypothesis of [get_context_window] at a session of 21 messages:
    the first message is left out of the window. *)
Lemma get_context_window_witness :
  let m (i : Z) := {| role := lit "user"; content := [48 + i];
                      timestamp := lit "t" |} in
  let hist := map m (seqZ 0 21) in
  let self := {| history_file := HISTORY_FILE;
                 sessions := {[ lit "s" := hist ]};
                 current_session := lit "s" |} in
  let w := {| files := ∅; trace := []; terminal := quiet |} in
  sessions self !! current_session self = Some hist
  /\ get_context self w
     = Ok (map strip_timestamp (map m (seqZ 1 20))) self w.
Proof.
  intros m hist self w.
  assert (H : sessions self !! current_session self = Some hist)
    by (vm_compute; reflexivity).
  split; [exact H|].
  exact (proj1 (get_context_window self w hist H)).
Defined.

(** ** Saving *)

Lemma saves_emit e w :
  saves (emit e w) = saves w ++ (if is_save e then [e] else []).
Proof.
  unfold saves, emit. cbn [trace]. rewrite List.filter_app. cbn.
  by destruct (is_save e).
Qed.

Lemma saves_emit_ConsolePrint text w : saves (emit (ConsolePrint text) w) = saves w.
Proof. rewrite saves_emit. cbn. by rewrite app_nil_r. Qed.

Lemma saves_set_file path data w : saves (set_file path data w) = saves w.
Proof. done. Qed.

(** An output that the terminal shows is made; one that it does not show
    raises, and either way the object and the files are as before. *)
Lemma output_renders {St : Type} e (st : St) w :
  renders w e -> output e st w = Ok tt st (emit e w).
Proof. intros H. unfold output. by rewrite H. Qed.

Lemma console_print_renders {St : Type} text (st : St) w :
  renders w (ConsolePrint text) ->
  console_print text st w = Ok tt st (emit (ConsolePrint text) w).
Proof. apply output_renders. Qed.

Lemma output_final_state {St : Type} e (st : St) w :
  final_state (output e st w) = Some st.
Proof. unfold output. by destruct (terminal w (trace w) e). Qed.

Lemma output_files {St : Type} e (st : St) w :
  files (final_world (output e st w)) = files w.
Proof. unfold output. by destruct (terminal w (trace w) e). Qed.

Lemma output_terminal {St : Type} e (st : St) w :
  terminal (final_world (output e st w)) = terminal w.
Proof. unfold output. by destruct (terminal w (trace w) e). Qed.

Lemma console_print_saves {St : Type} text (st : St) w :
  saves (final_world (console_print text st w)) = saves w.
Proof.
  unfold console_print, output.
  destruct (terminal w (trace w) _); [done|].
  apply saves_emit_ConsolePrint.
Qed.

Lemma save_history_final_state io self w :
  final_state (save_history io self w) = Some self.
Proof.
  unfold save_history. destruct (write_error io).
  - apply output_final_state.
  - by destruct (utf8_encode _).
Qed.

Lemma save_history_saves io self w :
  saves (final_world (save_history io self w))
  = saves w ++ [Save (history_file self) (document self)].
Proof.
  unfold save_history, document. destruct (write_error io).
  - by rewrite console_print_saves, saves_set_file, saves_emit.
  - destruct (utf8_encode _); cbn [final_world];
      by rewrite saves_set_file, saves_emit.
Qed.

Lemma save_history_written io self w data :
  write_error io = None ->
  utf8_encode (document self) = Some data ->
  save_history io self w
  = Ok tt self (set_file (history_file self) (Some data)
                         (emit (Save (history_file self) (document self)) w)).
Proof.
  intros Hio Henc. unfold save_history, document in *. by rewrite Hio, Henc.
Qed.

(** A method that ends with [save_history] and a message. *)
Lemma save_then_print_final_state io text self w :
  final_state ((save_history io ;;; console_print text) self w) = Some self.
Proof.
  pose proof (save_history_final_state io self w) as H.
  unfold bind. destruct (save_history io self w) as [[] st w'| |]; [|done..].
  cbn in H. injection H as ->. apply output_final_state.
Qed.

Lemma save_then_print_saves io text self w :
  saves (final_world ((save_history io ;;; console_print text) self w))
  = saves w ++ [Save (history_file self) (document self)].
Proof.
  pose proof (save_history_saves io self w) as H.
  unfold bind. destruct (save_history io self w); try done.
  cbn [final_world] in *. by rewrite console_print_saves.
Qed.

Lemma save_then_print_files io text self w data :
  write_error io = None ->
  utf8_encode (document self) = Some data ->
  files (final_world ((save_history io ;;; console_print text) self w))
  = <[history_file self := data]> (files w).
Proof.
  intros Hio Henc.
  rewrite (bind_Ok _ _ _ _ _ _ _ (save_history_written io self w data Hio Henc)).
  unfold console_print. by rewrite output_files.
Qed.

Lemma save_then_print_written io text self w data :
  write_error io = None ->
  utf8_encode (document self) = Some data ->
  renders w (ConsolePrint text) ->
  (save_history io ;;; console_print text) self w
  = Ok tt self
       (emit (ConsolePrint text)
             (set_file (history_file self) (Some data)
                       (emit (Save (history_file self) (document self)) w))).
Proof.
  intros Hio Henc Hshow.
  rewrite (bind_Ok _ _ _ _ _ _ _ (save_history_written io self w data Hio Henc)).
  by apply console_print_renders.
Qed.

(** ** Deleting and renaming *)

(** A method that only prints a refusal leaves the object, the files and
    the record of saves as they were, whether the terminal shows the
    message or not. *)
Lemma refusal_changes_nothing {St : Type} (self : St) (text : pystr) (w : World) :
  let r : result St unit := console_print text self w in
  final_state r = Some self
  /\ files (final_world r) = files w
  /\ saves (final_world r) = saves w.
Proof.
  cbn zeta. split; [apply output_final_state|].
  split; [apply output_files|]. apply console_print_saves.
Qed.

Lemma delete_session_absent name io self w :
  sessions self !! name = None ->
  delete_session name io self w = console_print (msg_not_found name) self w.
Proof.
  intros H. unfold delete_session, bind, gets. by rewrite bool_decide_eq_true_2.
Qed.

Lemma delete_session_current name io self w :
  is_Some (sessions self !! name) -> name = current_session self ->
  delete_session name io self w
  = console_print msg_cannot_delete_current self w.
Proof.
  intros [msgs H] Hcur. unfold delete_session, bind, gets.
  rewrite bool_decide_eq_false_2 by congruence.
  by rewrite bool_decide_eq_true_2.
Qed.

Lemma delete_session_other name io self w :
  is_Some (sessions self !! name) -> name <> current_session self ->
  delete_session name io self w
  = (save_history io ;;; console_print (msg_deleted name))
      (set_sessions (delete name (sessions self)) self) w.
Proof.
  intros [msgs H] Hcur. unfold delete_session, bind at 1 2, gets.
  rewrite bool_decide_eq_false_2 by congruence.
  by rewrite bool_decide_eq_false_2.
Qed.

Lemma rename_session_absent old_name new_name io self w :
  sessions self !! old_name = None ->
  rename_session old_name new_name io self w
  = console_print (msg_not_found old_name) self w.
Proof.
  intros H. unfold rename_session, bind, gets. by rewrite bool_decide_eq_true_2.
Qed.

Lemma rename_session_taken old_name new_name io self w :
  is_Some (sessions self !! old_name) -> is_Some (sessions self !! new_name) ->
  rename_session old_name new_name io self w
  = console_print (msg_already_exists new_name) self w.
Proof.
  intros [m1 H1] [m2 H2]. unfold rename_session, bind, gets.
  rewrite bool_decide_eq_false_2 by congruence.
  by rewrite bool_decide_eq_false_2 by congruence.
Qed.

Lemma rename_session_fresh old_name new_name io self w msgs :
  sessions self !! old_name = Some msgs -> sessions self !! new_name = None ->
  rename_session old_name new_name io self w
  = (save_history io ;;; console_print (msg_renamed old_name new_name))
      (set_current_session
         (if bool_decide (current_session self = old_name)
          then new_name else current_session self)
         (set_sessions (<[new_name := msgs]> (delete old_name (sessions self)))
                       self)) w.
Proof.
  intros H1 H2. unfold rename_session, bind at 1, gets.
  rewrite bool_decide_eq_false_2 by congruence.
  rewrite bool_decide_eq_true_2 by done.
  unfold bind at 1, getitem. rewrite H1.
  unfold bind at 1 2 3 4, modify, setitem, gets.
  unfold modify. cbn [current_session sessions set_sessions].
  by destruct (bool_decide (current_session self = old_name)).
Qed.

(** C5.  [delete_session name]: a name that is no session is refused with
    the "not found" message, the active session with the "cannot delete
    current session" message (the call returns once the terminal has
    shown it), and either way, shown or not, the object, the files and
    the record of saves are as before.  A session that exists and is not
    the active one is removed: that key alone disappears, every other
    session and [current_session] stay, and [save_history] runs once, on
    the new table (so the file holds its document when the write runs to
    its end), before the "deleted" message is printed. *)
Theorem delete_session_cases (name : pystr) (io : write_env)
  (self : ChatManager) (w : World) :
  let r := delete_session name io self w in
  (sessions self !! name = None ->
   renders w (ConsolePrint (msg_not_found name)) ->
   r = Ok tt self (emit (ConsolePrint (msg_not_found name)) w))
  /\ (is_Some (sessions self !! name) -> name = current_session self ->
      renders w (ConsolePrint msg_cannot_delete_current) ->
      r = Ok tt self (emit (ConsolePrint msg_cannot_delete_current) w))
  /\ (sessions self !! name = None \/ name = current_session self ->
      final_state r = Some self
      /\ files (final_world r) = files w
      /\ saves (final_world r) = saves w)
  /\ (is_Some (sessions self !! name) -> name <> current_session self ->
      let self' := set_sessions (delete name (sessions self)) self in
      final_state r = Some self'
      /\ sessions self' !! name = None
      /\ (forall other, other <> name ->
          sessions self' !! other = sessions self !! other)
      /\ current_session self' = current_session self
      /\ saves (final_world r)
         = saves w ++ [Save (history_file self) (document self')]
      /\ (write_error io = None ->
          forall data, utf8_encode (document self') = Some data ->
          files (final_world r) = <[history_file self := data]> (files w)
          /\ (renders w (ConsolePrint (msg_deleted name)) ->
              r = Ok tt self'
                    (emit (ConsolePrint (msg_deleted name))
                       (set_file (history_file self) (Some data)
                          (emit (Save (history_file self) (document self'))
                                w)))))).
Proof.
  intros r. subst r.
  split. { intros H Hshow. rewrite delete_session_absent by done.
           by apply console_print_renders. }
  split. { intros H Hcur Hshow. rewrite delete_session_current by done.
           by apply console_print_renders. }
  split.
  - intros Hcase.
    destruct (sessions self !! name) as [msgs|] eqn:Hname.
    + destruct Hcase as [|Hcur]; [done|].
      rewrite delete_session_current; [|by rewrite Hname|done].
      apply refusal_changes_nothing.
    + rewrite delete_session_absent by done. apply refusal_changes_nothing.
  - intros Hname Hcur self'.
    rewrite delete_session_other by done. fold self'.
    split; [apply save_then_print_final_state|].
    split; [apply lookup_delete_eq|].
    split. { intros other Hother. by apply lookup_delete_ne. }
    split; [done|].
    split; [exact (save_then_print_saves io _ self' w)|].
    intros Hio data Henc.
    split; [exact (save_then_print_files io _ self' w data Hio Henc)|].
    exact (save_then_print_written io _ self' w data Hio Henc).
Qed.

(** The three cases of [delete_session_cases] on a table with the active
    session [a] and another session [b]. *)
Lemma delete_session_cases_witness :
  let m := {| role := lit "user"; content := lit "hi"; timestamp := lit "t" |} in
  let self := {| history_file := HISTORY_FILE;
                 sessions := {[ lit "a" := []; lit "b" := [m] ]};
                 current_session := lit "a" |} in
  let w := {| files := ∅; trace := []; terminal := quiet |} in
  let io := {| write_error := None; residue := None |} in
  delete_session (lit "c") io self w
  = Ok tt self (emit (ConsolePrint (msg_not_found (lit "c"))) w)
  /\ delete_session (lit "a") io self w
     = Ok tt self (emit (ConsolePrint msg_cannot_delete_current) w)
  /\ final_state (delete_session (lit "b") io self w)
     = Some (set_sessions {[ lit "a" := [] ]} self)
  /\ exists data,
       files (final_world (delete_session (lit "b") io self w))
       = {[ HISTORY_FILE := data ]}.
Proof.
  intros m self w io.
  split.
  { apply (proj1 (delete_session_cases (lit "c") io self w)).
    - vm_compute. reflexivity.
    - intros tr. reflexivity. }
  split.
  { apply (proj1 (proj2 (delete_session_cases (lit "a") io self w))).
    - vm_compute. eexists. reflexivity.
    - reflexivity.
    - intros tr. reflexivity. }
  assert (Hb : is_Some (sessions self !! lit "b"))
    by (vm_compute; eexists; reflexivity).
  assert (Hne : lit "b" <> current_session self)
    by (vm_compute; discriminate).
  destruct (proj2 (proj2 (proj2 (delete_session_cases (lit "b") io self w)))
              Hb Hne) as (Hst & _ & _ & _ & _ & Hwr).
  split.
  { rewrite Hst. vm_compute. reflexivity. }
  destruct (utf8_encode (document (set_sessions (delete (lit "b") (sessions self)) self)))
    as [data|] eqn:Henc; [|vm_compute in Henc; discriminate].
  exists data. rewrite (proj1 (Hwr eq_refl data eq_refl)).
  cbn [files history_file self w].
  apply insert_empty.
Defined.

(** C6.  [rename_session old_name new_name]: an [old_name] that is no
    session is refused with the "not found" message; an [old_name] that
    exists with a [new_name] that exists too is refused with the "already
    exists" message (the call returns once the terminal has shown it); a
    refusal, shown or not, changes neither the object, nor the files, nor
    the record of saves.  Otherwise the message list of [old_name] is
    found under [new_name], whole, [old_name] is no key any more, the other
    sessions stay, [current_session] becomes [new_name] exactly when it was
    [old_name], and [save_history] runs once, on the new table. *)
Theorem rename_session_cases (old_name new_name : pystr) (io : write_env)
  (self : ChatManager) (w : World) :
  let r := rename_session old_name new_name io self w in
  (sessions self !! old_name = None ->
   renders w (ConsolePrint (msg_not_found old_name)) ->
   r = Ok tt self (emit (ConsolePrint (msg_not_found old_name)) w))
  /\ (is_Some (sessions self !! old_name) ->
      is_Some (sessions self !! new_name) ->
      renders w (ConsolePrint (msg_already_exists new_name)) ->
      r = Ok tt self (emit (ConsolePrint (msg_already_exists new_name)) w))
  /\ (sessions self !! old_name = None \/ is_Some (sessions self !! new_name) ->
      final_state r = Some self
      /\ files (final_world r) = files w
      /\ saves (final_world r) = saves w)
  /\ (forall msgs,
      sessions self !! old_name = Some msgs ->
      sessions self !! new_name = None ->
      exists self',
        final_state r = Some self'
        /\ sessions self' !! new_name = Some msgs
        /\ sessions self' !! old_name = None
        /\ (forall other, other <> old_name -> other <> new_name ->
            sessions self' !! other = sessions self !! other)
        /\ (current_session self = old_name ->
            current_session self' = new_name)
        /\ (current_session self <> old_name ->
            current_session self' = current_session self)
        /\ history_file self' = history_file self
        /\ saves (final_world r)
           = saves w ++ [Save (history_file self) (document self')]
        /\ (write_error io = None ->
            forall data, utf8_encode (document self') = Some data ->
            files (final_world r) = <[history_file self := data]> (files w)
            /\ (renders w (ConsolePrint (msg_renamed old_name new_name)) ->
                r = Ok tt self'
                      (emit (ConsolePrint (msg_renamed old_name new_name))
                         (set_file (history_file self) (Some data)
                            (emit (Save (history_file self) (document self'))
                                  w)))))).
Proof.
  intros r. subst r.
  split. { intros H Hshow. rewrite rename_session_absent by done.
           by apply console_print_renders. }
  split. { intros H1 H2 Hshow. rewrite rename_session_taken by done.
           by apply console_print_renders. }
  split.
  - intros Hcase.
    destruct (sessions self !! old_name) as [msgs|] eqn:Hold.
    + destruct Hcase as [|Hnew]; [done|].
      rewrite rename_session_taken; [|by rewrite Hold|done].
      apply refusal_changes_nothing.
    + rewrite rename_session_absent by done. apply refusal_changes_nothing.
  - intros msgs Hold Hnew.
    assert (Hne : old_name <> new_name) by congruence.
    rewrite (rename_session_fresh _ _ _ _ _ msgs) by done.
    set (self' := set_current_session _ _).
    exists self'.
    split; [apply save_then_print_final_state|].
    split. { cbn. apply lookup_insert_eq. }
    split. { cbn. rewrite lookup_insert_ne by done. apply lookup_delete_eq. }
    split. { intros other H1 H2. cbn.
             rewrite lookup_insert_ne by done. by apply lookup_delete_ne. }
    split. { intros Hcur. cbn. by rewrite bool_decide_eq_true_2. }
    split. { intros Hcur. cbn. by rewrite bool_decide_eq_false_2. }
    split; [done|].
    split; [exact (save_then_print_saves io _ self' w)|].
    intros Hio data Henc.
    split; [exact (save_then_print_files io _ self' w data Hio Henc)|].
    exact (save_then_print_written io _ self' w data Hio Henc).
Qed.

(** The three cases of [rename_session_cases] on a table with the active
    session [a] and another session [b]. *)
Lemma rename_session_cases_witness :
  let m := {| role := lit "user"; content := lit "hi"; timestamp := lit "t" |} in
  let self := {| history_file := HISTORY_FILE;
                 sessions := {[ lit "a" := [m]; lit "b" := [] ]};
                 current_session := lit "a" |} in
  let w := {| files := ∅; trace := []; terminal := quiet |} in
  let io := {| write_error := None; residue := None |} in
  rename_session (lit "c") (lit "d") io self w
  = Ok tt self (emit (ConsolePrint (msg_not_found (lit "c"))) w)
  /\ rename_session (lit "a") (lit "b") io self w
     = Ok tt self (emit (ConsolePrint (msg_already_exists (lit "b"))) w)
  /\ exists self',
       final_state (rename_session (lit "a") (lit "c") io self w) = Some self'
       /\ sessions self' !! lit "c" = Some [m]
       /\ current_session self' = lit "c".
Proof.
  intros m self w io.
  split.
  { apply (proj1 (rename_session_cases (lit "c") (lit "d") io self w)).
    - vm_compute. reflexivity.
    - intros tr. reflexivity. }
  split.
  { apply (proj1 (proj2 (rename_session_cases (lit "a") (lit "b") io self w))).
    - vm_compute. eexists. reflexivity.
    - vm_compute. eexists. reflexivity.
    - intros tr. reflexivity. }
  assert (Ha : sessions self !! lit "a" = Some [m])
    by (vm_compute; reflexivity).
  assert (Hc : sessions self !! lit "c" = None)
    by (vm_compute; reflexivity).
  destruct (proj2 (proj2 (proj2 (rename_session_cases (lit "a") (lit "c") io
                                   self w))) [m] Ha Hc)
    as (self' & Hst & Hnew & _ & _ & Hcur & _).
  exists self'. split; [exact Hst|]. split; [exact Hnew|].
  apply Hcur. reflexivity.
Defined.

(** C10.  Renaming an existing session to its own name is refused with
    the "already exists" message, and nothing else happens: the call is
    the printing of that message (it returns once the terminal has shown
    it), the object and the files are as before and [save_history] does
    not run. *)
Theorem rename_session_to_itself (x : pystr) (io : write_env)
  (self : ChatManager) (w : World) :
  is_Some (sessions self !! x) ->
  let r := rename_session x x io self w in
  r = console_print (msg_already_exists x) self w
  /\ (renders w (ConsolePrint (msg_already_exists x)) ->
      r = Ok tt self (emit (ConsolePrint (msg_already_exists x)) w))
  /\ final_state r = Some self
  /\ files (final_world r) = files w
  /\ saves (final_world r) = saves w.
Proof.
  intros Hx r. subst r.
  rewrite rename_session_taken by done.
  split; [done|].
  split; [apply console_print_renders|]. apply refusal_changes_nothing.
Qed.

(** The hypothesis of [rename_session_to_itself] at the active session of
    a table that was saved once before. *)
Lemma rename_session_to_itself_witness :
  let self := {| history_file := HISTORY_FILE;
                 sessions := {[ lit "a" := [] ]};
                 current_session := lit "a" |} in
  let w := {| files := ∅; trace := [Save HISTORY_FILE (lit "{}")]; terminal := quiet |} in
  let io := {| write_error := None; residue := None |} in
  is_Some (sessions self !! lit "a")
  /\ saves (final_world (rename_session (lit "a") (lit "a") io self w))
     = [Save HISTORY_FILE (lit "{}")].
Proof.
  intros self w io.
  assert (H : is_Some (sessions self !! lit "a"))
    by (vm_compute; eexists; reflexivity).
  split; [exact H|].
  destruct (rename_session_to_itself (lit "a") io self w H)
    as (_ & _ & _ & _ & Hs).
  rewrite Hs. reflexivity.
Defined.

(** ** The invariant of the session table *)

Lemma holds_after_save_then_print (P : ChatManager -> Prop) io text self w :
  P self -> holds_after P ((save_history io ;;; console_print text) self w).
Proof.
  intros H. unfold holds_after. by rewrite save_then_print_final_state.
Qed.

Lemma clear_history_run io self w :
  clear_history io self w
  = (save_history io ;;; console_print msg_history_cleared)
      (set_sessions (<[current_session self := []]> (sessions self)) self) w.
Proof. done. Qed.

Lemma switch_session_run name self w :
  switch_session name self w
  = console_print (msg_switched name)
       (set_current_session name
          (set_sessions
             (match sessions self !! name with
              | None => <[name := []]> (sessions self)
              | Some _ => sessions self
              end) self))
       w.
Proof.
  unfold switch_session, bind at 1, gets.
  destruct (sessions self !! name) as [msgs|] eqn:H.
  - rewrite bool_decide_eq_false_2 by done. by destruct self.
  - by rewrite bool_decide_eq_true_2.
Qed.

Lemma switch_session_current_in_sessions name self w :
  holds_after current_in_sessions (switch_session name self w).
Proof.
  rewrite switch_session_run. unfold holds_after, console_print.
  rewrite output_final_state.
  unfold current_in_sessions. cbn.
  destruct (sessions self !! name) as [ms|] eqn:H.
  - by eexists.
  - rewrite lookup_insert_eq. by eexists.
Qed.

Lemma __init___current_in_sessions path now io w self' w' :
  __init__ path now io w = Ok tt self' w' -> current_in_sessions self'.
Proof.
  unfold __init__, bind at 1. intros H.
  destruct (load_history io _ w) as [[] st w1| |]; [|done..].
  unfold bind, setitem, modify in H. injection H as <- _.
  unfold current_in_sessions. cbn. rewrite lookup_insert_eq. by eexists.
Qed.

Lemma __init___missing_file path now io w :
  files w !! path = None ->
  __init__ path now io w
  = Ok tt {| history_file := path;
             sessions := {[ lit "chat_" ++ now := [] ]};
             current_session := lit "chat_" ++ now |} w.
Proof.
  intros H. unfold __init__, bind at 1, load_history.
  cbn [history_file]. by rewrite H.
Qed.

(** C8.  [current_session] is a key of [sessions] in every object that
    [__init__] returns (and it returns one when there is no history file),
    and every method of the manager that changes the table keeps it so,
    however the method ends: [add_message] (which returns normally),
    [switch_session] (which returns once the terminal has shown its
    message), [clear_history], [delete_session] and [rename_session]. *)
Theorem current_session_invariant :
  (forall path now io w self' w',
      __init__ path now io w = Ok tt self' w' -> current_in_sessions self')
  /\ (forall path now io w,
      files w !! path = None ->
      exists self', __init__ path now io w = Ok tt self' w
                    /\ current_in_sessions self')
  /\ (forall self w, current_in_sessions self ->
      (forall r c t, exists self',
          add_message r c t self w = Ok tt self' w
          /\ current_in_sessions self')
      /\ (forall name,
          holds_after current_in_sessions (switch_session name self w)
          /\ (renders w (ConsolePrint (msg_switched name)) ->
              exists self' w',
                switch_session name self w = Ok tt self' w'
                /\ current_in_sessions self'))
      /\ (forall io,
          holds_after current_in_sessions (clear_history io self w))
      /\ (forall name io,
          holds_after current_in_sessions (delete_session name io self w))
      /\ (forall old_name new_name io,
          holds_after current_in_sessions
            (rename_session old_name new_name io self w))).
Proof.
  split; [apply __init___current_in_sessions|].
  split.
  { intros path now io w H. eexists. split.
    - by apply __init___missing_file.
    - unfold current_in_sessions. cbn [sessions current_session].
      rewrite lookup_singleton_eq. by eexists. }
  intros self w [msgs Hcur].
  split.
  { intros r c t. eexists. split; [by apply add_message_run|].
    unfold current_in_sessions. cbn. rewrite lookup_insert_eq. by eexists. }
  split.
  { intros name.
    pose proof (switch_session_current_in_sessions name self w) as Hinv.
    split; [exact Hinv|]. intros Hshow.
    rewrite switch_session_run in *.
    rewrite console_print_renders in * by done.
    do 2 eexists. split; [reflexivity|]. exact Hinv. }
  split.
  { intros io. rewrite clear_history_run.
    apply holds_after_save_then_print.
    unfold current_in_sessions. cbn. rewrite lookup_insert_eq. by eexists. }
  split.
  { intros name io.
    destruct (sessions self !! name) as [ms|] eqn:Hname.
    - destruct (decide (name = current_session self)) as [Heq|Hne].
      + rewrite delete_session_current; [|by rewrite Hname|done].
        unfold holds_after, console_print. rewrite output_final_state.
        by exists msgs.
      + rewrite delete_session_other; [|by rewrite Hname|done].
        apply holds_after_save_then_print.
        unfold current_in_sessions. cbn.
        rewrite lookup_delete_ne by done. by exists msgs.
    - rewrite delete_session_absent by done.
      unfold holds_after, console_print. rewrite output_final_state.
      by exists msgs. }
  intros old_name new_name io.
  destruct (sessions self !! old_name) as [ms|] eqn:Hold.
  - destruct (sessions self !! new_name) as [ms'|] eqn:Hnew.
    + rewrite rename_session_taken; [| by rewrite Hold | by rewrite Hnew].
      unfold holds_after, console_print. rewrite output_final_state.
      by exists msgs.
    + rewrite (rename_session_fresh _ _ _ _ _ ms) by done.
      apply holds_after_save_then_print.
      unfold current_in_sessions. cbn.
      case_bool_decide as Hc.
      * rewrite lookup_insert_eq. by eexists.
      * rewrite lookup_insert_ne by congruence.
        rewrite lookup_delete_ne by congruence. by exists msgs.
  - rewrite rename_session_absent by done.
    unfold holds_after, console_print. rewrite output_final_state.
    by exists msgs.
Qed.

(** [current_session_invariant] at a start without a history file, and at
    the deletion of a session other than the active one. *)
Lemma current_session_invariant_witness :
  let w := {| files := ∅; trace := []; terminal := quiet |} in
  let io := {| write_error := None; residue := None |} in
  let rd := {| read_error := None; parse_error_text := [] |} in
  let self := {| history_file := HISTORY_FILE;
                 sessions := {[ lit "a" := []; lit "b" := [] ]};
                 current_session := lit "a" |} in
  (exists self', __init__ HISTORY_FILE (lit "20250101_120000") rd w
                 = Ok tt self' w
                 /\ current_in_sessions self')
  /\ current_in_sessions self
  /\ holds_after current_in_sessions (delete_session (lit "b") io self w).
Proof.
  intros w io rd self.
  split.
  { apply (proj1 (proj2 current_session_invariant)). reflexivity. }
  assert (H : current_in_sessions self)
    by (vm_compute; eexists; reflexivity).
  split; [exact H|].
  apply (proj2 (proj2 current_session_invariant) self w H).
Defined.

(** ** The streaming aggregator *)

Lemma emits_nil w : emits [] w = w.
Proof. unfold emits. rewrite app_nil_r. by destruct w. Qed.

Lemma emits_emit e es w : emits es (emit e w) = emits (e :: es) w.
Proof. unfold emits, emit. cbn. by rewrite <- app_assoc. Qed.

Lemma emit_emits e es w : emit e (emits es w) = emits (es ++ [e]) w.
Proof. unfold emits, emit. cbn. by rewrite <- app_assoc. Qed.

Lemma saves_emits es w : saves (emits es w) = saves w ++ List.filter is_save es.
Proof. unfold saves, emits. cbn. apply List.filter_app. Qed.

Lemma filter_is_save_Print (fragments : list pystr) :
  List.filter is_save (map Print fragments) = [].
Proof. induction fragments; [done | by cbn]. Qed.

(** The loop forwards every fragment the terminal shows, in order, and
    appends it. *)
Lemma consume_run response full_response w :
  shows_fragments w response ->
  consume response full_response w
  = (full_response ++ fragments_text response,
     emits (map Print (omap id response)) w, None).
Proof.
  revert full_response w.
  induction response as [|[content|] rest IH]; intros full_response w Hshow.
  - cbn. by rewrite app_nil_r, emits_nil.
  - cbn [consume].
    rewrite (Hshow content (list_elem_of_here _ _) (trace w)).
    rewrite IH.
    + unfold fragments_text. cbn. by rewrite emits_emit, <- app_assoc.
    + intros c Hc. exact (Hshow c (list_elem_of_further _ _ _ Hc)).
  - cbn [consume]. rewrite IH; [done|].
    intros c Hc. exact (Hshow c (list_elem_of_further _ _ _ Hc)).
Qed.

(** However the loop ends, it touches neither the files, nor the record of
    saves, nor the terminal. *)
Lemma consume_world response full_response w :
  let w1 := (consume response full_response w).1.2 in
  files w1 = files w /\ saves w1 = saves w /\ terminal w1 = terminal w.
Proof.
  revert full_response w.
  induction response as [|[content|] rest IH]; intros full_response w.
  - done.
  - cbn [consume]. destruct (terminal w (trace w) (Print content)); [done|].
    destruct (IH (full_response ++ content) (emit (Print content) w))
      as (Hf & Hs & Ht).
    cbn zeta in *. rewrite Hf, Hs, Ht. split; [done|]. split; [|done].
    rewrite saves_emit. cbn. by rewrite app_nil_r.
  - cbn [consume]. apply IH.
Qed.

(** The handler of [_handle_stream]: the message, then the text gathered. *)
Lemma stream_handler_final {St : Type} (text full_response : pystr)
  (st : St) w :
  let r := (console_print text ;;; ret full_response) st w in
  final_state r = Some st
  /\ files (final_world r) = files w
  /\ saves (final_world r) = saves w
  /\ terminal (final_world r) = terminal w
  /\ (forall e st' w', r = Raise e st' w' ->
      exists t, e = RuntimeError t \/ e = OutputError t).
Proof.
  cbn zeta. unfold bind, console_print, output, ret.
  destruct (terminal w (trace w) _) as [x|] eqn:Hx.
  - repeat (split; [done|]). intros e st' w' [= <- _ _].
    exists (output_error_text x). unfold raised.
    destruct (is_runtime_error x); [by left | by right].
  - cbn [final_state final_world]. split; [done|]. split; [done|].
    split; [apply saves_emit_ConsolePrint|]. split; [done|]. done.
Qed.

Lemma _handle_stream_final response self w :
  let r := _handle_stream response self w in
  final_state r = Some self
  /\ files (final_world r) = files w
  /\ saves (final_world r) = saves w
  /\ terminal (final_world r) = terminal w
  /\ (forall e st' w', r = Raise e st' w' ->
      exists t, e = RuntimeError t \/ e = OutputError t).
Proof.
  cbn zeta. unfold _handle_stream.
  pose proof (consume_world (chunks response) [] w) as Hw. cbn zeta in Hw.
  destruct (consume (chunks response) [] w) as [[full_response w1] failed].
  cbn [fst snd] in Hw. destruct Hw as (Hf & Hs & Ht).
  rewrite <- Hf, <- Hs, <- Ht.
  destruct failed as [x|]; [apply stream_handler_final|].
  destruct (stream_error response) as [e|]; [apply stream_handler_final|].
  destruct (terminal w1 (trace w1) PrintLn) as [x|] eqn:Hx;
    [apply stream_handler_final|].
  cbn [final_state final_world]. split; [done|]. split; [done|].
  split. { rewrite saves_emit. cbn. by rewrite app_nil_r. }
  split; done.
Qed.

(** When the terminal shows the fragments and what closes the stream, the
    aggregator returns the fragments joined. *)
Lemma _handle_stream_run response self w :
  shows_fragments w (chunks response) ->
  renders w (match stream_error response with
             | None => PrintLn
             | Some e => ConsolePrint (msg_stream_error e)
             end) ->
  _handle_stream response self w
  = Ok (fragments_text (chunks response)) self
       (emit (match stream_error response with
              | None => PrintLn
              | Some e => ConsolePrint (msg_stream_error e)
              end)
             (emits (map Print (omap id (chunks response))) w)).
Proof.
  intros Hfr Hend. unfold _handle_stream. rewrite consume_run by done.
  cbn [app]. destruct (stream_error response) as [e|].
  - unfold bind. by rewrite console_print_renders.
  - change (terminal (emits ?es w)) with (terminal w). by rewrite (Hend _).
Qed.

Lemma _handle_stream_saves response self w :
  saves (final_world (_handle_stream response self w)) = saves w.
Proof. apply _handle_stream_final. Qed.

Lemma reraise_unexpected_final {St A : Type} (body : M St A) st w :
  let r := reraise_unexpected body st w in
  final_state r = final_state (body st w)
  /\ final_world r = final_world (body st w)
  /\ (forall a st' w', r = Ok a st' w' <-> body st w = Ok a st' w').
Proof.
  cbn zeta. unfold reraise_unexpected. by destruct (body st w).
Qed.

(** [chat] changes neither the client, nor the files, nor the record of
    saves, nor the terminal, however it ends. *)
Lemma chat_final messages prompt stream remote self w :
  let r := chat messages prompt stream remote self w in
  final_state r = Some self
  /\ files (final_world r) = files w
  /\ saves (final_world r) = saves w
  /\ terminal (final_world r) = terminal w.
Proof.
  cbn zeta. unfold chat, bind, gets. destruct stream.
  - destruct (create_stream remote _) as [e|s]; [done|].
    destruct (reraise_unexpected_final (_handle_stream s) self w)
      as (-> & -> & _).
    destruct (_handle_stream_final s self w) as (? & ? & ? & ? & _). done.
  - by destruct (create remote _) as [e|text].
Qed.

Lemma chat_Ok_inv messages prompt stream remote self w response self' w' :
  chat messages prompt stream remote self w = Ok response self' w' ->
  self' = self /\ saves w' = saves w /\ terminal w' = terminal w.
Proof.
  intros H.
  destruct (chat_final messages prompt stream remote self w)
    as (Hst & _ & Hs & Ht).
  rewrite H in Hst, Hs, Ht. cbn in Hst, Hs, Ht. by injection Hst as ->.
Qed.

Lemma chat_stream_run messages prompt remote self w response :
  (forall req, create_stream remote req = inr response) ->
  chat messages prompt true remote self w
  = reraise_unexpected (_handle_stream response) self w.
Proof. intros H. unfold chat, bind, gets. by rewrite H. Qed.

(** The exception [chat] raises is a [RuntimeError]. *)
Lemma chat_raises messages prompt stream remote self w e st' w' :
  chat messages prompt stream remote self w = Raise e st' w' ->
  exists text, e = RuntimeError text.
Proof.
  unfold chat, bind, gets. destruct stream.
  - destruct (create_stream remote _) as [x|s].
    + unfold raise, wrap_error. intros [= <- _ _].
      destruct (is_api_error x); by eexists.
    + unfold reraise_unexpected.
      destruct (_handle_stream_final s self w) as (_ & _ & _ & _ & Hr).
      destruct (_handle_stream s self w) as [| e0 st0 w0 |]; [done| |done].
      destruct (Hr e0 st0 w0 eq_refl) as [t [-> | ->]];
        intros [= <- _ _]; by eexists.
  - destruct (create remote _) as [x|text]; [|done].
    unfold raise, wrap_error. intros [= <- _ _].
    destruct (is_api_error x); by eexists.
Qed.

(** ** [send_message] *)

Lemma on_field_Ok {St Fld A : Type} (get : St -> Fld) (set : Fld -> St -> St)
  (m : M Fld A) st w a fld w' :
  m (get st) w = Ok a fld w' ->
  on_field get set m st w = Ok a (set fld st) w'.
Proof. intros H. unfold on_field. by rewrite H. Qed.

Lemma trimmed_snoc2 msgs u a :
  exists older, trimmed (trimmed (msgs ++ [u]) ++ [a]) = older ++ [u; a].
Proof.
  destruct (trimmed_snoc msgs u) as [o1 ->].
  unfold trimmed at 1. destruct (Z.gtb_spec (len ((o1 ++ [u]) ++ [a]))
                                            (MAX_HISTORY_MESSAGES * 2)) as [Hgt|].
  - rewrite slice_from_neg by apply MAX_HISTORY_MESSAGES_pos.
    unfold len in Hgt. rewrite !length_app in *. cbn in *.
    exists (drop (length o1 + 1 + 1 - Z.to_nat MAX_HISTORY_MESSAGES) o1).
    rewrite <- app_assoc. cbn.
    rewrite drop_app_le; [done|].
    change MAX_HISTORY_MESSAGES with 1000 in *. lia.
  - exists o1. by rewrite <- app_assoc.
Qed.

(** A [try] whose handler only prints ends with the object, the files and
    the record of saves of its body. *)
Lemma try_except_print_final {St : Type} (body : M St unit)
  (msg : pystr -> pystr) (st : St) w :
  let r := try_except_RuntimeError body (fun e => console_print (msg e)) st w in
  final_state r = final_state (body st w)
  /\ files (final_world r) = files (final_world (body st w))
  /\ saves (final_world r) = saves (final_world (body st w)).
Proof.
  cbn zeta. unfold try_except_RuntimeError.
  destruct (body st w) as [a st' w'| e st' w'| j w']; [done| |done].
  destruct e; try done.
  cbn [final_state final_world]. apply refusal_changes_nothing.
Qed.

(** A reply that the terminal shows, or that was streamed. *)
Lemma display_run {St : Type} response stream (st : St) w :
  shows_reply w stream response ->
  (if negb stream
   then console_print msg_assistant ;;;
        output (ConsoleMarkdown response) ;;;
        output ConsoleBlank
   else ret tt) st w
  = Ok tt st (if stream then w
              else emits [ConsolePrint msg_assistant; ConsoleMarkdown response;
                          ConsoleBlank] w).
Proof.
  intros Hshow. destruct stream; [done|].
  destruct (Hshow eq_refl) as (H1 & H2 & H3). cbn [negb].
  unfold bind. rewrite console_print_renders by done.
  rewrite output_renders by done. rewrite output_renders by done.
  f_equal. unfold emits, emit. cbn. by rewrite <- !app_assoc.
Qed.

Lemma display_final_state {St : Type} response stream (st : St) w :
  final_state
    ((if negb stream
      then console_print msg_assistant ;;;
           output (ConsoleMarkdown response) ;;;
           output ConsoleBlank
      else ret tt) st w) = Some st.
Proof.
  destruct stream; [done|]. cbn [negb]. unfold bind, console_print.
  pose proof (output_final_state (ConsolePrint msg_assistant) st w) as H1.
  destruct (output (ConsolePrint msg_assistant) st w) as [[] st1 w1| |];
    cbn in H1; [|done..].
  injection H1 as ->.
  pose proof (output_final_state (ConsoleMarkdown response) st w1) as H2.
  destruct (output (ConsoleMarkdown response) st w1) as [[] st2 w2| |];
    cbn in H2; [|done..].
  injection H2 as ->. apply output_final_state.
Qed.

Lemma on_chat_manager_save_final_state io cm app w :
  final_state (on_chat_manager (save_history io) (set_chat_manager cm app) w)
  = Some (set_chat_manager cm app).
Proof.
  pose proof (save_history_final_state io cm w) as H.
  unfold on_chat_manager, on_field. cbn [chat_manager set_chat_manager].
  destruct (save_history io cm w) as [a st w'|e st w'|j w'];
    cbn in H |- *; [by injection H as ->..|done].
Qed.

Lemma on_chat_manager_save_saves io cm app w :
  saves (final_world (on_chat_manager (save_history io)
                        (set_chat_manager cm app) w))
  = saves w ++ [Save (history_file cm) (document cm)].
Proof.
  pose proof (save_history_saves io cm w) as H.
  unfold on_chat_manager, on_field. cbn [chat_manager set_chat_manager].
  by destruct (save_history io cm w).
Qed.

(** Whatever the terminal does, [display_and_save] leaves the object as
    it was. *)
Lemma display_and_save_final_state response stream env cm app w :
  final_state (display_and_save response stream env (set_chat_manager cm app) w)
  = Some (set_chat_manager cm app).
Proof.
  unfold display_and_save. unfold bind at 1.
  pose proof (display_final_state response stream (set_chat_manager cm app) w)
    as Hd.
  match type of Hd with
  | final_state ?x = _ =>
      destruct x as [[] st w1| e st w1| j w1]; cbn in Hd; [|done..]
  end.
  injection Hd as ->.
  unfold bind, on_chat_manager at 1, on_field at 1, gets, getitem.
  change (chat_manager (set_chat_manager cm app)) with cm.
  destruct (sessions cm !! current_session cm) as [msgs|]; [|done].
  change (set_chat_manager cm (set_chat_manager cm app))
    with (set_chat_manager cm app).
  destruct (len msgs mod 4 =? 0); [|done].
  apply on_chat_manager_save_final_state.
Qed.

(** When the terminal shows the reply, [save_history] runs exactly when
    the session has a multiple of 4 messages. *)
Lemma display_and_save_saves response stream env cm app w msgs :
  sessions cm !! current_session cm = Some msgs ->
  shows_reply w stream response ->
  saves (final_world
           (display_and_save response stream env (set_chat_manager cm app) w))
  = saves w ++ (if len msgs mod 4 =? 0
                then [Save (history_file cm) (document cm)]
                else []).
Proof.
  intros Hcur Hshow. unfold display_and_save.
  rewrite (bind_Ok _ _ _ _ _ _ _ (display_run response stream _ w Hshow)).
  set (w3 := if stream then w else _).
  assert (Hw3 : saves w3 = saves w).
  { unfold w3. destruct stream; [done|].
    rewrite saves_emits. cbn. by rewrite app_nil_r. }
  unfold bind, on_chat_manager at 1, on_field at 1, gets, getitem.
  change (chat_manager (set_chat_manager cm app)) with cm. rewrite Hcur.
  change (set_chat_manager cm (set_chat_manager cm app))
    with (set_chat_manager cm app).
  destruct (len msgs mod 4 =? 0).
  - by rewrite on_chat_manager_save_saves, Hw3.
  - cbn [final_world]. by rewrite app_nil_r.
Qed.

(** The run of [send_message] when the terminal shows the thinking
    indicator and [chat] returns [response]: both messages are stored,
    and what is left is to display the reply and to save. *)
Lemma send_message_reply ui env app w c msgs response w2 :
  llm_client app = Some c ->
  sessions (chat_manager app) !! current_session (chat_manager app) = Some msgs ->
  let cm := chat_manager app in
  let user := {| role := lit "user"; content := ui; timestamp := now_user env |} in
  let stored1 := trimmed (msgs ++ [user]) in
  let messages :=
    map strip_timestamp (slice_from (- MAX_CONTEXT_MESSAGES) stored1) in
  renders w (ConsolePrint msg_thinking) ->
  chat messages (Some (system_prompt app)) (streaming app) (remote env) c
       (emit (ConsolePrint msg_thinking) w) = Ok response c w2 ->
  let assistant := {| role := lit "assistant"; content := response;
                      timestamp := now_assistant env |} in
  let stored2 := trimmed (stored1 ++ [assistant]) in
  let cm2 := set_sessions (<[current_session cm := stored2]> (sessions cm)) cm in
  send_message ui env app w
  = try_except_RuntimeError
      (display_and_save response (streaming app) env)
      (fun e => console_print (msg_error e))
      (set_chat_manager cm2 app) w2.
Proof.
  intros Hc Hcur cm user stored1 messages Hthink Hchat assistant stored2 cm2.
  unfold send_message, bind at 1, gets. rewrite Hc.
  pose proof (add_message_run (lit "user") ui (now_user env) cm w msgs Hcur) as H1.
  fold user stored1 in H1.
  set (cm1 := set_sessions (<[current_session cm := stored1]> (sessions cm)) cm) in *.
  rewrite (bind_Ok _ _ _ _ _ _ _ (on_field_Ok chat_manager set_chat_manager _ app w _ _ _ H1)).
  assert (Hcur1 : sessions cm1 !! current_session cm1 = Some stored1).
  { cbn. by rewrite lookup_insert_eq. }
  pose proof (get_context_run cm1 w stored1 Hcur1) as H2. fold messages in H2.
  set (app1 := set_chat_manager cm1 app).
  rewrite (bind_Ok _ _ _ _ _ _ _ (on_field_Ok chat_manager set_chat_manager _ app1 w _ _ _ H2)).
  change (set_chat_manager cm1 app1) with app1.
  rewrite (bind_Ok _ _ _ _ _ _ _
             (console_print_renders msg_thinking app1 w Hthink)).
  unfold try_except_RuntimeError.
  unfold bind at 1 2, gets.
  change (system_prompt app1) with (system_prompt app).
  change (streaming app1) with (streaming app).
  rewrite (bind_Ok _ _ _ _ _ _ _ (on_field_Ok (fun _ => c) set_llm_client _ app1 _ _ _ _ Hchat)).
  assert (Happ1 : set_llm_client c app1 = app1).
  { unfold set_llm_client, app1, set_chat_manager. cbn. by rewrite Hc. }
  rewrite Happ1.
  pose proof (add_message_run (lit "assistant") response (now_assistant env) cm1 w2 stored1 Hcur1) as H3.
  fold assistant stored2 in H3.
  cbn [cm1 current_session sessions set_sessions] in H3.
  rewrite insert_insert_eq in H3. fold cm1 in H3.
  change (set_sessions ?s cm1) with (set_sessions s cm) in H3. fold cm2 in H3.
  rewrite (bind_Ok _ _ _ _ _ _ _ (on_field_Ok chat_manager set_chat_manager _ app1 w2 _ _ _ H3)).
  change (set_chat_manager cm2 app1) with (set_chat_manager cm2 app).
  reflexivity.
Qed.

(** What [send_message] leaves behind when [chat] returns [response]. *)
Lemma send_message_after_reply (user_input : pystr) (env : send_env)
  (app : LLMCLIApp) (w : World) (c : LLMClient) (msgs : list message)
  (response : pystr) (w2 : World) :
  llm_client app = Some c ->
  sessions (chat_manager app) !! current_session (chat_manager app)
  = Some msgs ->
  let cm := chat_manager app in
  let user := {| role := lit "user"; content := user_input;
                 timestamp := now_user env |} in
  let messages :=
    map strip_timestamp
        (slice_from (- MAX_CONTEXT_MESSAGES) (trimmed (msgs ++ [user]))) in
  renders w (ConsolePrint msg_thinking) ->
  chat messages (Some (system_prompt app)) (streaming app) (remote env) c
       (emit (ConsolePrint msg_thinking) w) = Ok response c w2 ->
  let assistant := {| role := lit "assistant"; content := response;
                      timestamp := now_assistant env |} in
  let r := send_message user_input env app w in
  exists older cm2,
    final_state r = Some (set_chat_manager cm2 app)
    /\ current_session cm2 = current_session cm
    /\ sessions cm2 !! current_session cm2 = Some (older ++ [user; assistant])
    /\ (forall other, other <> current_session cm ->
        sessions cm2 !! other = sessions cm !! other)
    /\ (shows_reply w (streaming app) response ->
        saves (final_world r)
        = saves w ++ (if len (older ++ [user; assistant]) mod 4 =? 0
                      then [Save (history_file cm) (document cm2)]
                      else [])
        /\ (len (older ++ [user; assistant]) mod 4 = 0
            <-> saves (final_world r) <> saves w)).
Proof.
  intros Hc Hcur cm user messages Hthink Hchat assistant r.
  pose proof (send_message_reply user_input env app w c msgs response w2
                Hc Hcur Hthink Hchat) as Hrun.
  cbv zeta in Hrun. fold cm user assistant r in Hrun.
  destruct (trimmed_snoc2 msgs user assistant) as [older Holder].
  rewrite Holder in Hrun.
  set (cm2 := set_sessions (<[current_session cm := older ++ [user; assistant]]>
                              (sessions cm)) cm) in *.
  destruct (try_except_print_final
              (display_and_save response (streaming app) env) msg_error
              (set_chat_manager cm2 app) w2) as (Hst & _ & Hsv).
  cbn zeta in Hst, Hsv. rewrite <- Hrun in Hst, Hsv.
  exists older, cm2.
  split. { rewrite Hst. apply display_and_save_final_state. }
  split; [done|].
  assert (Hcur2 : sessions cm2 !! current_session cm2
                  = Some (older ++ [user; assistant])).
  { cbn. apply lookup_insert_eq. }
  split; [exact Hcur2|].
  split. { intros other Hother. cbn. by rewrite lookup_insert_ne. }
  intros Hshow.
  destruct (chat_Ok_inv _ _ _ _ _ _ _ _ _ Hchat) as (_ & Hs2 & Ht2).
  rewrite saves_emit_ConsolePrint in Hs2.
  assert (Hshow2 : shows_reply w2 (streaming app) response).
  { intros Hplain. destruct (Hshow Hplain) as (S1 & S2 & S3).
    unfold renders. cbn [terminal emit] in Ht2. rewrite Ht2. done. }
  assert (Hsaves : saves (final_world r)
                   = saves w ++ (if len (older ++ [user; assistant]) mod 4 =? 0
                                 then [Save (history_file cm) (document cm2)]
                                 else [])).
  { rewrite Hsv.
    rewrite (display_and_save_saves _ _ _ _ _ _ _ Hcur2 Hshow2).
    by rewrite Hs2. }
  split; [exact Hsaves|].
  rewrite Hsaves.
  destruct (Z.eqb_spec (len (older ++ [user; assistant]) mod 4) 0) as [Hz|Hnz].
  - split; [|done]. intros _ Heq.
    apply (f_equal length) in Heq. rewrite length_app in Heq. cbn in Heq. lia.
  - split; [done|]. rewrite app_nil_r. done.
Qed.



(** ** A stream that breaks *)

(** C1, as the code has it.  When the service answers with a stream that
    raises after some fragments, and the terminal shows the thinking
    indicator, each fragment and the report of the error, then
    [_handle_stream] has forwarded every fragment in order, reports the
    error on the console and returns the concatenation of the fragments;
    [chat] returns that text as a normal reply, so [send_message] keeps
    the user's message and appends after it an assistant message holding
    the partial text. *)
Theorem send_message_stream_error (user_input : pystr) (env : send_env)
  (app : LLMCLIApp) (w : World) (c : LLMClient) (msgs : list message)
  (response : stream) (e : pystr) :
  llm_client app = Some c ->
  streaming app = true ->
  sessions (chat_manager app) !! current_session (chat_manager app)
  = Some msgs ->
  (forall req, create_stream (remote env) req = inr response) ->
  stream_error response = Some e ->
  renders w (ConsolePrint msg_thinking) ->
  shows_fragments w (chunks response) ->
  renders w (ConsolePrint (msg_stream_error e)) ->
  let partial := fragments_text (chunks response) in
  let user := {| role := lit "user"; content := user_input;
                 timestamp := now_user env |} in
  let assistant := {| role := lit "assistant"; content := partial;
                      timestamp := now_assistant env |} in
  let r := send_message user_input env app w in
  (forall w0, terminal w0 = terminal w ->
      _handle_stream response c w0
      = Ok partial c
           (emit (ConsolePrint (msg_stream_error e))
                 (emits (map Print (omap id (chunks response))) w0)))
  /\ exists older cm2,
       final_state r = Some (set_chat_manager cm2 app)
       /\ sessions cm2 !! current_session (chat_manager app)
          = Some (older ++ [user; assistant]).
Proof.
  intros Hc Hstream Hcur Hsvc Herr Hthink Hfr Hrep partial user assistant r.
  assert (Hhs : forall w0, terminal w0 = terminal w ->
             _handle_stream response c w0
             = Ok partial c
                  (emit (ConsolePrint (msg_stream_error e))
                        (emits (map Print (omap id (chunks response))) w0))).
  { intros w0 Hw0. rewrite _handle_stream_run.
    - by rewrite Herr.
    - intros content Hin tr. rewrite Hw0. by apply Hfr.
    - rewrite Herr. intros tr. rewrite Hw0. apply Hrep. }
  split; [exact Hhs|].
  destruct (send_message_after_reply user_input env app w c msgs partial
              (emit (ConsolePrint (msg_stream_error e))
                 (emits (map Print (omap id (chunks response)))
                        (emit (ConsolePrint msg_thinking) w))))
    as (older & cm2 & Hst & Hcur2 & Hsess & _); [done | done | done | |].
  { rewrite Hstream. rewrite (chat_stream_run _ _ _ _ _ response) by done.
    unfold reraise_unexpected. by rewrite Hhs. }
  exists older, cm2. split; [exact Hst|]. by rewrite <- Hcur2.
Qed.

(** The hypotheses of [send_message_stream_error] at a stream that breaks
    after the fragment "Par". *)
Lemma send_message_stream_error_witness :
  let cm := {| history_file := HISTORY_FILE;
               sessions := {[ lit "s" := [] ]};
               current_session := lit "s" |} in
  let c := {| api_key := lit "k"; base_url := lit "u"; model := lit "m" |} in
  let app := {| chat_manager := cm; llm_client := Some c;
                system_prompt := lit "p"; streaming := true |} in
  let broken := {| chunks := [Some (lit "Par")];
                   stream_error := Some (lit "boom") |} in
  let svc := {| create := fun _ => inr [];
                create_stream := fun _ => inr broken |} in
  let env := {| now_user := lit "t1"; now_assistant := lit "t2";
                remote := svc;
                save_io := {| write_error := None; residue := None |} |} in
  let w := {| files := ∅; trace := []; terminal := quiet |} in
  exists older cm2,
    final_state (send_message (lit "q") env app w)
    = Some (set_chat_manager cm2 app)
    /\ sessions cm2 !! lit "s"
       = Some (older ++ [ {| role := lit "user"; content := lit "q";
                             timestamp := lit "t1" |};
                          {| role := lit "assistant"; content := lit "Par";
                             timestamp := lit "t2" |} ]).
Proof.
  intros cm c app broken svc env w.
  destruct (send_message_stream_error (lit "q") env app w c [] broken
              (lit "boom"))
    as (_ & older & cm2 & Hst & Hsess).
  - reflexivity.
  - reflexivity.
  - vm_compute. reflexivity.
  - intros req. reflexivity.
  - reflexivity.
  - intros tr. reflexivity.
  - intros content Hin tr. reflexivity.
  - intros tr. reflexivity.
  - exists older, cm2. split; [exact Hst | exact Hsess].
Defined.

(** C1, as the claim has it, fails: after a stream that raises once "Par"
    has arrived, on a terminal that shows every output, the aggregator
    does return "Par" and reports the error, but the session does not
    stop at the user's message, it ends with an assistant message
    "Par". *)
Lemma stream_error_appends_partial_reply :
  let cm := {| history_file := HISTORY_FILE;
               sessions := {[ lit "s" := [] ]};
               current_session := lit "s" |} in
  let c := {| api_key := lit "k"; base_url := lit "u"; model := lit "m" |} in
  let app := {| chat_manager := cm; llm_client := Some c;
                system_prompt := lit "p"; streaming := true |} in
  let broken := {| chunks := [Some (lit "Par")];
                   stream_error := Some (lit "boom") |} in
  let svc := {| create := fun _ => inr [];
                create_stream := fun _ => inr broken |} in
  let env := {| now_user := lit "t1"; now_assistant := lit "t2";
                remote := svc;
                save_io := {| write_error := None; residue := None |} |} in
  let w := {| files := ∅; trace := []; terminal := quiet |} in
  let user := {| role := lit "user"; content := lit "q";
                 timestamp := lit "t1" |} in
  let session_after :=
    final_state (send_message (lit "q") env app w)
    ≫= fun app' => sessions (chat_manager app') !! lit "s" in
  _handle_stream broken c w
  = Ok (lit "Par") c
       (emits [Print (lit "Par"); ConsolePrint (msg_stream_error (lit "boom"))] w)
  /\ session_after
     = Some [user; {| role := lit "assistant"; content := lit "Par";
                      timestamp := lit "t2" |}]
  /\ session_after <> Some [user].
Proof.
  intros cm c app broken svc env w user session_after.
  split; [vm_compute; reflexivity|].
  assert (H : session_after
              = Some [user; {| role := lit "assistant"; content := lit "Par";
                               timestamp := lit "t2" |}])
    by (vm_compute; reflexivity).
  split; [exact H|]. rewrite H. discriminate.
Qed.

(** ** UTF-8: decoding undoes encoding *)

Ltac divlia := Z.div_mod_to_equations; lia.

Lemma Z_of_byte_of_Z z : 0 <= z < 256 -> Z_of_byte (byte_of_Z z) = z.
Proof.
  intros Hz. unfold Z_of_byte, byte_of_Z.
  destruct (Byte.of_N (Z.to_N z)) as [b|] eqn:Hb.
  - apply Byte.to_of_N in Hb. lia.
  - apply Byte.of_N_None_iff in Hb. lia.
Qed.

Lemma Z_of_byte_range b : 0 <= Z_of_byte b < 256.
Proof.
  unfold Z_of_byte. pose proof (Byte.to_N_bounded b). lia.
Qed.

Lemma is_scalar_spec c :
  is_scalar c = true <-> 0 <= c < 1114112 /\ ~ (55296 <= c <= 57343).
Proof. unfold is_scalar. lia. Qed.

Ltac decide_test :=
  match goal with
  | |- context [?a <? ?b] =>
      first [ replace (a <? b) with true by (symmetry; apply Z.ltb_lt; divlia)
            | replace (a <? b) with false by (symmetry; apply Z.ltb_ge; divlia) ]
  | |- context [?a <=? ?b] =>
      first [ replace (a <=? b) with true by (symmetry; apply Z.leb_le; divlia)
            | replace (a <=? b) with false by (symmetry; apply Z.leb_gt; divlia) ]
  end.

Lemma utf8_decode_encode_char c bs rest :
  utf8_encode_char c = Some bs ->
  utf8_decode (bs ++ rest)
  = match utf8_decode rest with
    | Some s => Some (c :: s)
    | None => None
    end.
Proof.
  unfold utf8_encode_char.
  destruct (is_scalar c) eqn:Hs; [|done]. cbn [negb].
  pose proof Hs as Hs'. apply is_scalar_spec in Hs' as [Hr Hsur].
  destruct (Z.ltb_spec c 128); [|destruct (Z.ltb_spec c 2048);
                                  [|destruct (Z.ltb_spec c 65536)]];
    intros [= <-]; cbn [app utf8_decode]; unfold is_cont, cont_bits;
    rewrite ?Z_of_byte_of_Z by divlia.
  - by decide_test.
  - repeat decide_test. cbn [andb].
    replace ((192 + c / 64 - 192) * 64 + (128 + c mod 64 - 128)) with c by divlia.
    done.
  - repeat decide_test. cbn [andb].
    replace ((224 + c / 4096 - 224) * 4096 + (128 + (c / 64) mod 64 - 128) * 64
             + (128 + c mod 64 - 128)) with c by divlia.
    repeat decide_test. rewrite Hs. done.
  - repeat decide_test. cbn [andb].
    replace ((240 + c / 262144 - 240) * 262144
             + (128 + (c / 4096) mod 64 - 128) * 4096
             + (128 + (c / 64) mod 64 - 128) * 64
             + (128 + c mod 64 - 128)) with c by divlia.
    repeat decide_test. rewrite Hs. done.
Qed.

Lemma utf8_decode_encode s data :
  utf8_encode s = Some data -> utf8_decode data = Some s.
Proof.
  revert data. induction s as [|c s IH]; intros data.
  - by intros [= <-].
  - cbn [utf8_encode].
    destruct (utf8_encode_char c) as [bs|] eqn:Hc; [|done].
    destruct (utf8_encode s) as [bs'|]; [|done].
    intros [= <-]. rewrite (utf8_decode_encode_char c bs bs' Hc).
    by rewrite (IH bs' eq_refl).
Qed.

Lemma utf8_encode_char_is_Some c :
  is_scalar c = true -> is_Some (utf8_encode_char c).
Proof.
  intros H. unfold utf8_encode_char. rewrite H. cbn [negb].
  repeat destruct (_ <? _); by eexists.
Qed.

Lemma utf8_encode_is_Some s : encodable s -> is_Some (utf8_encode s).
Proof.
  induction 1 as [|c s Hc _ [bs' IH]]; [by eexists|].
  destruct (utf8_encode_char_is_Some c Hc) as [bs Hbs].
  cbn [utf8_encode]. rewrite Hbs, IH. by eexists.
Qed.

Lemma encodable_app s1 s2 : encodable s1 -> encodable s2 -> encodable (s1 ++ s2).
Proof. apply Forall_app_2. Qed.

Lemma encodable_lit_ascii (s : string) : encodable (lit s).
Proof.
  unfold encodable, lit. apply Forall_forall. intros c Hc.
  apply list_elem_of_fmap in Hc as (a & -> & _).
  apply is_scalar_spec.
  pose proof (N_ascii_bounded a). lia.
Qed.

(** ** Text mode: a text without carriage returns is read as it is *)

Lemma universal_newlines_id s :
  Forall (fun c => c <> 13) s -> universal_newlines s = s.
Proof.
  induction 1 as [|c s Hc _ IH]; [done|].
  cbn [universal_newlines].
  destruct (Z.eqb_spec c 13); [done|]. by rewrite IH.
Qed.

(** ** JSON strings: scanning undoes escaping *)

Lemma hex_value_hex_digit d :
  0 <= d < 16 -> hex_value (hex_digit d) = Some d.
Proof.
  intros Hd. unfold hex_digit, hex_value.
  destruct (Z.ltb_spec d 10).
  - replace ((48 <=? 48 + d) && (48 + d <=? 57)) with true by lia.
    f_equal. lia.
  - replace ((48 <=? 87 + d) && (87 + d <=? 57)) with false by lia.
    replace ((97 <=? 87 + d) && (87 + d <=? 102)) with true by lia.
    f_equal. lia.
Qed.

Lemma decode_uXXXX_escape c :
  0 <= c < 65536 ->
  decode_uXXXX (hex_digit ((c / 4096) mod 16)) (hex_digit ((c / 256) mod 16))
               (hex_digit ((c / 16) mod 16)) (hex_digit (c mod 16)) = Some c.
Proof.
  intros Hc. unfold decode_uXXXX.
  rewrite !hex_value_hex_digit by divlia. f_equal. divlia.
Qed.

(** One escaped character in front of a text scans as that character in
    front of what the text scans as. *)
Lemma scanstring_escape_char c text :
  scanstring (escape_char c ++ text) = cons_fst c (scanstring text).
Proof.
  unfold escape_char.
  destruct (Z.eqb_spec c 34) as [->|H34]; [done|].
  destruct (Z.eqb_spec c 92) as [->|H92]; [done|].
  destruct (Z.eqb_spec c 10) as [->|H10]; [done|].
  destruct (Z.eqb_spec c 13) as [->|H13]; [done|].
  destruct (Z.eqb_spec c 9) as [->|H9]; [done|].
  destruct (Z.eqb_spec c 8) as [->|H8]; [done|].
  destruct (Z.eqb_spec c 12) as [->|H12]; [done|].
  destruct ((0 <=? c) && (c <? 32)) eqn:Hctl.
  - unfold escape_u. cbn [app scanstring].
    replace (92 =? 34) with false by done.
    replace (92 =? 92) with true by done.
    replace (117 =? 117) with true by done.
    rewrite decode_uXXXX_escape by lia.
    by replace ((55296 <=? c) && (c <=? 56319)) with false by lia.
  - cbn [app scanstring].
    replace (c =? 34) with false by lia.
    replace (c =? 92) with false by lia.
    by rewrite Hctl.
Qed.

Lemma scanstring_escaped s rest :
  scanstring (concat (map escape_char s) ++ 34 :: rest) = Some (s, rest).
Proof.
  induction s as [|c s IH]; [done|].
  cbn [map concat]. rewrite <- app_assoc.
  by rewrite scanstring_escape_char, IH.
Qed.

Lemma scanstring_encode_basestring s rest :
  exists body, encode_basestring s ++ rest = 34 :: body
               /\ scanstring body = Some (s, rest).
Proof.
  exists (concat (map escape_char s) ++ 34 :: rest). split.
  - unfold encode_basestring. cbn. by rewrite <- app_assoc.
  - apply scanstring_escaped.
Qed.

(** ** JSON values: scanning undoes encoding *)

Lemma json_nested_ind (P : json -> Prop) :
  P JNull -> (forall b, P (JBool b)) -> (forall x, P (JNumber x)) ->
  (forall s, P (JString s)) ->
  (forall items, Forall P items -> P (JArray items)) ->
  (forall members, Forall (fun kv => P kv.2) members -> P (JObject members)) ->
  forall j, P j.
Proof.
  intros Hnull Hbool Hnum Hstr Harr Hobj.
  fix IH 1. intros [| b | x | s | items | members].
  - exact Hnull.
  - apply Hbool.
  - apply Hnum.
  - apply Hstr.
  - apply Harr. induction items as [|x items IHitems]; constructor.
    + apply IH.
    + exact IHitems.
  - apply Hobj. induction members as [|[k v] members IHmembers]; constructor.
    + apply IH.
    + exact IHmembers.
Qed.

Lemma skip_ws_head c text : is_ws c = false -> skip_ws (c :: text) = c :: text.
Proof. intros H. cbn. by rewrite H. Qed.

Lemma skip_ws_spaces n text : skip_ws (repeat 32 n ++ text) = skip_ws text.
Proof. induction n as [|n IH]; [done|]. cbn [repeat app]. exact IH. Qed.

Lemma skip_ws_newline_indent level text :
  skip_ws (newline_indent level ++ text) = skip_ws text.
Proof. unfold newline_indent. cbn [app]. apply skip_ws_spaces. Qed.

Lemma iterencode_head level j :
  clean j -> exists c tail, iterencode level j = c :: tail /\ opens_value c.
Proof.
  unfold opens_value.
  destruct j as [| [|] | x | s | [|x xs] | [|[k v] kvs]]; intros Hclean;
    try (do 2 eexists; split; [cbn; reflexivity | lia]).
  destruct Hclean.
Qed.

Lemma skip_ws_iterencode level j text :
  clean j -> skip_ws (iterencode level j ++ text) = iterencode level j ++ text.
Proof.
  intros Hclean. destruct (iterencode_head level j Hclean) as (c & tail & -> & Hc).
  cbn [app]. apply skip_ws_head. unfold opens_value, is_ws in *. lia.
Qed.

Lemma scans_null : scans JNull.
Proof. intros level rest [|fuel] Hfuel; [cbn in Hfuel; lia | reflexivity]. Qed.

Lemma scans_bool b : scans (JBool b).
Proof.
  intros level rest [|fuel] Hfuel; [cbn in Hfuel; lia | by destruct b].
Qed.

Lemma scans_string s : scans (JString s).
Proof.
  intros level rest [|fuel] Hfuel; [cbn in Hfuel; lia|].
  cbn [iterencode].
  destruct (scanstring_encode_basestring s rest) as (body & -> & Hbody).
  cbn [scan_once]. replace (34 =? 34) with true by done. by rewrite Hbody.
Qed.

(** The items of an array, from the first character of the first one. *)
Lemma elements_encoded xs :
  Forall scans xs -> foldr (fun x P => clean x /\ P) True xs ->
  forall x, scans x -> clean x ->
  forall level rest fuel,
    (S (size_json x + foldr (fun x n => S (size_json x + n)) 0 xs) <= fuel)%nat ->
    elements fuel
      (iterencode (S level) x
       ++ concat (map (fun y => 44 :: newline_indent (S level)
                                ++ iterencode (S level) y) xs)
       ++ newline_indent level ++ 93 :: rest)
    = Some (x :: xs, rest).
Proof.
  induction 1 as [|y ys Hy Hys IH]; intros Hclean x Hx Hcx level rest fuel Hfuel.
  - destruct fuel as [|f]; [lia|]. cbn [elements map concat app foldr] in *.
    rewrite (Hx (S level)) by lia.
    rewrite skip_ws_newline_indent, skip_ws_head by done.
    by replace (93 =? 93) with true by done.
  - destruct fuel as [|f]; [lia|]. cbn [elements map concat foldr] in *.
    destruct Hclean as [Hcy Hcys].
    rewrite (Hx (S level)) by lia.
    cbn [app]. rewrite skip_ws_head by done.
    replace (44 =? 93) with false by done.
    replace (44 =? 44) with true by done.
    rewrite <- !app_assoc.
    rewrite skip_ws_newline_indent, skip_ws_iterencode by done.
    rewrite (IH Hcys y Hy Hcy) by lia. done.
Qed.

(** The members of an object, from just after the opening quote of the
    first key. *)
Lemma members_encoded kvs :
  Forall (fun kv => scans kv.2) kvs ->
  foldr (fun kv P => encodable kv.1 /\ clean kv.2 /\ P) True kvs ->
  forall k v, scans v -> clean v ->
  forall level rest fuel,
    (S (size_json v + foldr (fun kv n => S (size_json kv.2 + n)) 0 kvs)
     <= fuel)%nat ->
    members fuel
      (concat (map escape_char k) ++ 34 :: 58 :: 32 :: iterencode (S level) v
       ++ concat (map (fun kv : pystr * json =>
                         let (k', v') := kv in
                         44 :: newline_indent (S level)
                         ++ encode_basestring k' ++ [58; 32]
                         ++ iterencode (S level) v') kvs)
       ++ newline_indent level ++ 125 :: rest)
    = Some ((k, v) :: kvs, rest).
Proof.
  induction 1 as [|[k' v'] kvs Hv' Hkvs IH];
    intros Hclean k v Hv Hcv level rest fuel Hfuel.
  - destruct fuel as [|f]; [lia|]. cbn [members map concat app foldr] in *.
    rewrite scanstring_escaped. rewrite skip_ws_head by done.
    replace (58 =? 58) with true by done.
    replace (skip_ws (32 :: iterencode (S level) v
                      ++ newline_indent level ++ 125 :: rest))
      with (skip_ws (iterencode (S level) v
                     ++ newline_indent level ++ 125 :: rest)) by done.
    rewrite skip_ws_iterencode by done.
    rewrite (Hv (S level)) by lia.
    rewrite skip_ws_newline_indent, skip_ws_head by done.
    by replace (125 =? 125) with true by done.
  - destruct fuel as [|f]; [lia|]. cbn [members map concat foldr snd fst] in *.
    destruct Hclean as (_ & Hcv' & Hckvs).
    rewrite scanstring_escaped. rewrite skip_ws_head by done.
    replace (58 =? 58) with true by done.
    match goal with
    | |- context [skip_ws (32 :: ?t)] =>
        replace (skip_ws (32 :: t)) with (skip_ws t) by done
    end.
    rewrite skip_ws_iterencode by done.
    rewrite (Hv (S level)) by lia.
    cbn [app]. rewrite skip_ws_head by done.
    replace (44 =? 125) with false by done.
    replace (44 =? 44) with true by done.
    rewrite <- !app_assoc. rewrite skip_ws_newline_indent.
    unfold encode_basestring at 1. cbn [app].
    rewrite skip_ws_head by done.
    replace (34 =? 34) with true by done.
    rewrite <- !app_assoc. cbn [app].
    rewrite (IH Hckvs k' v' Hv' Hcv') by lia. done.
Qed.

Lemma Forall_scans_items xs :
  Forall (fun j => clean j -> scans j) xs ->
  foldr (fun x P => clean x /\ P) True xs -> Forall scans xs.
Proof.
  induction 1 as [|x xs Hx _ IH]; [constructor|].
  intros [Hcx Hcxs]. constructor; auto.
Qed.

Lemma Forall_scans_members (kvs : list (pystr * json)) :
  Forall (fun kv => clean kv.2 -> scans kv.2) kvs ->
  foldr (fun kv P => encodable kv.1 /\ clean kv.2 /\ P) True kvs ->
  Forall (fun kv => scans kv.2) kvs.
Proof.
  induction 1 as [|kv kvs Hkv _ IH]; [constructor|].
  intros (_ & Hcv & Hckvs). constructor; auto.
Qed.

Lemma scan_once_iterencode j : clean j -> scans j.
Proof.
  induction j as [| b | x | s | items IH | kvs IH] using json_nested_ind;
    intros Hclean.
  - apply scans_null.
  - apply scans_bool.
  - destruct Hclean.
  - apply scans_string.
  - destruct items as [|x xs].
    + intros level rest [|fuel] Hfuel; [cbn in Hfuel; lia | reflexivity].
    + intros level rest [|fuel] Hfuel; [cbn in Hfuel; lia|].
      cbn [clean foldr] in Hclean. destruct Hclean as [Hcx Hcxs].
      apply Forall_cons in IH as [IHx IHxs].
      cbn [size_json foldr] in Hfuel.
      cbn [iterencode]. cbn [app scan_once].
      replace (91 =? 34) with false by done.
      replace (91 =? 123) with false by done.
      replace (91 =? 91) with true by done.
      rewrite <- !app_assoc. rewrite skip_ws_newline_indent.
      rewrite skip_ws_iterencode by done.
      destruct (iterencode_head (S level) x Hcx) as (c & tail & Hhead & Hc).
      rewrite Hhead. cbn [app].
      replace (c =? 93) with false by (unfold opens_value in Hc; lia).
      change (c :: tail ++ ?t) with ((c :: tail) ++ t). rewrite <- Hhead.
      cbn [app].
      rewrite (elements_encoded xs);
        [done | by apply Forall_scans_items | done | by apply IHx | done | lia].
  - destruct kvs as [|[k v] kvs].
    + intros level rest [|fuel] Hfuel; [cbn in Hfuel; lia | reflexivity].
    + intros level rest [|fuel] Hfuel; [cbn in Hfuel; lia|].
      cbn [clean foldr fst snd] in Hclean. destruct Hclean as (_ & Hcv & Hckvs).
      apply Forall_cons in IH as [IHv IHkvs]. cbn [snd] in IHv.
      cbn [size_json foldr snd] in Hfuel.
      cbn [iterencode]. cbn [app scan_once].
      replace (123 =? 34) with false by done.
      replace (123 =? 123) with true by done.
      rewrite <- !app_assoc. rewrite skip_ws_newline_indent.
      unfold encode_basestring at 1. cbn [app].
      rewrite skip_ws_head by done.
      replace (34 =? 125) with false by done.
      replace (34 =? 34) with true by done.
      rewrite <- !app_assoc. cbn [app].
      rewrite (members_encoded kvs);
        [done | by apply Forall_scans_members | done | by apply IHv | done | lia].
Qed.

(** ** The text of a document *)

Lemma size_json_le_length j :
  clean j -> forall level, (size_json j <= length (iterencode level j))%nat.
Proof.
  induction j as [| b | x | s | items IH | kvs IH] using json_nested_ind;
    intros Hclean level.
  - cbn. lia.
  - destruct b; cbn; lia.
  - destruct Hclean.
  - cbn [iterencode size_json]. unfold encode_basestring. cbn [length]. lia.
  - destruct items as [|x xs]; [cbn; lia|].
    cbn [clean foldr] in Hclean. destruct Hclean as [Hcx Hcxs].
    apply Forall_cons in IH as [IHx IHxs].
    cbn [iterencode size_json foldr].
    cbn [length]. rewrite !length_app. cbn [length].
    specialize (IHx Hcx (S level)).
    assert (Hrest : (foldr (fun x n => S (size_json x + n)) 0 xs
                     <= length (concat (map (fun y =>
                                   44%Z :: newline_indent (S level)
                                   ++ iterencode (S level) y) xs)))%nat).
    { clear IHx Hcx. induction IHxs as [|y ys Hy _ IHys]; [cbn; lia|].
      destruct Hcxs as [Hcy Hcys]. cbn [map concat foldr].
      rewrite length_app. cbn [length]. rewrite length_app.
      specialize (Hy Hcy (S level)). specialize (IHys Hcys). lia. }
    lia.
  - destruct kvs as [|[k v] kvs]; [cbn; lia|].
    cbn [clean foldr fst snd] in Hclean. destruct Hclean as (_ & Hcv & Hckvs).
    apply Forall_cons in IH as [IHv IHkvs]. cbn [snd] in IHv.
    cbn [iterencode size_json foldr snd].
    cbn [length]. rewrite !length_app. cbn [length].
    specialize (IHv Hcv (S level)).
    assert (Hrest : (foldr (fun kv n => S (size_json kv.2 + n)) 0 kvs
                     <= length (concat (map (fun kv : pystr * json =>
                                   let (k', v') := kv in
                                   44%Z :: newline_indent (S level)
                                   ++ encode_basestring k' ++ [58%Z; 32%Z]
                                   ++ iterencode (S level) v') kvs)))%nat).
    { clear IHv Hcv. induction IHkvs as [|[k' v'] kvs' Hv' _ IHkvs']; [cbn; lia|].
      destruct Hckvs as (_ & Hcv' & Hckvs'). cbn [map concat foldr snd] in *.
      rewrite length_app. cbn [length]. rewrite !length_app.
      specialize (Hv' Hcv' (S level)). specialize (IHkvs' Hckvs'). lia. }
    lia.
Qed.

Lemma text_char_ascii (c : Z) : 32 <= c < 128 -> text_char c.
Proof. intros H. split; [apply is_scalar_spec|]; lia. Qed.

Lemma text_char_hex_digit d : 0 <= d < 16 -> text_char (hex_digit d).
Proof.
  intros H. apply text_char_ascii. unfold hex_digit. destruct (d <? 10); lia.
Qed.

Lemma Forall_text_char_escape_char c :
  is_scalar c = true -> Forall text_char (escape_char c).
Proof.
  intros Hc. unfold escape_char.
  destruct (Z.eqb_spec c 34); [repeat constructor; by apply text_char_ascii|].
  destruct (Z.eqb_spec c 92); [repeat constructor; by apply text_char_ascii|].
  destruct (Z.eqb_spec c 10); [repeat constructor; by apply text_char_ascii|].
  destruct (Z.eqb_spec c 13); [repeat constructor; by apply text_char_ascii|].
  destruct (Z.eqb_spec c 9); [repeat constructor; by apply text_char_ascii|].
  destruct (Z.eqb_spec c 8); [repeat constructor; by apply text_char_ascii|].
  destruct (Z.eqb_spec c 12); [repeat constructor; by apply text_char_ascii|].
  destruct ((0 <=? c) && (c <? 32)) eqn:Hctl.
  - unfold escape_u. repeat constructor;
      try (apply text_char_ascii; lia);
      apply text_char_hex_digit; divlia.
  - repeat constructor; done.
Qed.

Lemma Forall_text_char_encode_basestring s :
  encodable s -> Forall text_char (encode_basestring s).
Proof.
  intros Hs. unfold encode_basestring. constructor; [by apply text_char_ascii|].
  apply Forall_app_2; [|repeat constructor; by apply text_char_ascii].
  induction Hs as [|c s Hc _ IH]; [constructor|].
  cbn [map concat]. apply Forall_app_2; [by apply Forall_text_char_escape_char|done].
Qed.

Lemma Forall_text_char_newline_indent level :
  Forall text_char (newline_indent level).
Proof.
  unfold newline_indent. constructor.
  - split; [done | lia].
  - apply Forall_forall. intros c Hc%list_elem_of_In%repeat_spec. subst c.
    by apply text_char_ascii.
Qed.

Lemma Forall_text_char_iterencode j :
  clean j -> forall level, Forall text_char (iterencode level j).
Proof.
  induction j as [| b | x | s | items IH | kvs IH] using json_nested_ind;
    intros Hclean level.
  - repeat constructor; by apply text_char_ascii.
  - destruct b; repeat constructor; by apply text_char_ascii.
  - destruct Hclean.
  - by apply Forall_text_char_encode_basestring.
  - destruct items as [|x xs];
      [repeat constructor; by apply text_char_ascii|].
    cbn [clean foldr] in Hclean. destruct Hclean as [Hcx Hcxs].
    apply Forall_cons in IH as [IHx IHxs].
    cbn [iterencode]. constructor; [by apply text_char_ascii|].
    apply Forall_app_2; [apply Forall_text_char_newline_indent|].
    apply Forall_app_2; [by apply IHx|].
    apply Forall_app_2;
      [|apply Forall_app_2; [apply Forall_text_char_newline_indent|
                             repeat constructor; by apply text_char_ascii]].
    clear IHx Hcx. induction IHxs as [|y ys Hy _ IHys]; [constructor|].
    destruct Hcxs as [Hcy Hcys]. cbn [map concat].
    apply Forall_app_2; [|by apply IHys].
    constructor; [by apply text_char_ascii|].
    apply Forall_app_2; [apply Forall_text_char_newline_indent | by apply Hy].
  - destruct kvs as [|[k v] kvs];
      [repeat constructor; by apply text_char_ascii|].
    cbn [clean foldr fst snd] in Hclean. destruct Hclean as (Hk & Hcv & Hckvs).
    apply Forall_cons in IH as [IHv IHkvs]. cbn [snd] in IHv.
    cbn [iterencode]. constructor; [by apply text_char_ascii|].
    apply Forall_app_2; [apply Forall_text_char_newline_indent|].
    apply Forall_app_2; [by apply Forall_text_char_encode_basestring|].
    apply Forall_app_2; [repeat constructor; by apply text_char_ascii|].
    apply Forall_app_2; [by apply IHv|].
    apply Forall_app_2;
      [|apply Forall_app_2; [apply Forall_text_char_newline_indent|
                             repeat constructor; by apply text_char_ascii]].
    clear IHv Hcv Hk. induction IHkvs as [|[k' v'] kvs' Hv' _ IHkvs']; [constructor|].
    destruct Hckvs as (Hk' & Hcv' & Hckvs'). cbn [map concat fst snd] in *.
    apply Forall_app_2; [|by apply IHkvs'].
    constructor; [by apply text_char_ascii|].
    apply Forall_app_2; [apply Forall_text_char_newline_indent|].
    apply Forall_app_2; [by apply Forall_text_char_encode_basestring|].
    apply Forall_app_2; [repeat constructor; by apply text_char_ascii|].
    by apply Hv'.
Qed.

(** [json.loads] undoes [json.dumps] on values without numbers. *)
Lemma loads_dumps j : clean j -> loads (dumps j) = Some j.
Proof.
  intros Hclean. unfold loads, dumps.
  destruct (iterencode_head 0 j Hclean) as (c & tail & Hhead & Hc).
  pose proof (scan_once_iterencode j Hclean 0%nat [] (S (length (iterencode 0 j))))
    as Hscan.
  pose proof (size_json_le_length j Hclean 0%nat) as Hsize.
  rewrite app_nil_r in Hscan. specialize (Hscan ltac:(lia)).
  pose proof (skip_ws_iterencode 0 j [] Hclean) as Hskip.
  rewrite app_nil_r in Hskip. rewrite Hskip, Hscan.
  rewrite Hhead. unfold opens_value in Hc.
  destruct c as [|p|p]; try lia.
  destruct (decide (p = 65279%positive)) as [->|Hp]; [lia|].
  repeat (destruct p as [p|p|]; try done).
Qed.

(** ** The session table and its document *)

Lemma message_of_json_of_message m :
  message_of_json (json_of_message m) = Some m.
Proof. destruct m as [r c t]. vm_compute. reflexivity. Qed.

Lemma messages_of_json_of_messages msgs :
  messages_of_json (JArray (map json_of_message msgs)) = Some msgs.
Proof. apply mapM_fmap_Some, message_of_json_of_message. Qed.

Lemma as_dict_map_to_list {A B : Type} (g : A -> B) (s : gmap pystr A) :
  as_dict (map (fun kv : pystr * A => (kv.1, g kv.2)) (map_to_list s))
  = g <$> s.
Proof.
  unfold as_dict.
  change (map (fun kv : pystr * A => (kv.1, g kv.2)) (map_to_list s))
    with (prod_map id g <$> map_to_list s).
  rewrite (list_to_map_proper _ (prod_map id g <$> map_to_list s)).
  - by rewrite list_to_map_fmap, list_to_map_to_list.
  - rewrite (reverse_Permutation (prod_map id g <$> map_to_list s)).
    rewrite <- list_fmap_compose.
    exact (NoDup_fst_map_to_list s).
  - apply reverse_Permutation.
Qed.

Lemma sessions_of_json_of_sessions (s : gmap pystr (list message)) :
  sessions_of_json (json_of_sessions s) = Some s.
Proof.
  unfold sessions_of_json, json_of_sessions.
  rewrite (as_dict_map_to_list (fun msgs => JArray (map json_of_message msgs))).
  rewrite <- map_fmap_compose.
  rewrite (map_fmap_ext _ Some) by (intros; apply messages_of_json_of_messages).
  rewrite bool_decide_eq_true_2.
  - f_equal. apply map_eq. intros k.
    rewrite lookup_omap, lookup_fmap. by destruct (s !! k).
  - intros k o. rewrite lookup_fmap. destruct (s !! k); intros [= <-]. by eexists.
Qed.

Lemma clean_json_of_message m :
  encodable_message m -> clean (json_of_message m).
Proof.
  intros (Hr & Hc & Ht). unfold json_of_message. cbn [clean foldr fst snd].
  repeat split; done || apply encodable_lit_ascii.
Qed.

Lemma clean_json_of_messages msgs :
  Forall encodable_message msgs -> clean (JArray (map json_of_message msgs)).
Proof.
  cbn [clean]. induction 1 as [|m msgs Hm _ IH]; [done|].
  cbn [map foldr]. split; [by apply clean_json_of_message | exact IH].
Qed.

Lemma clean_json_of_sessions s :
  encodable_sessions s -> clean (json_of_sessions s).
Proof.
  unfold encodable_sessions, json_of_sessions. rewrite map_Forall_to_list.
  cbn [clean]. induction 1 as [|[k msgs] l [Hk Hmsgs] _ IH]; [done|].
  cbn [map foldr fst snd]. split; [exact Hk|].
  split; [by apply clean_json_of_messages | exact IH].
Qed.

(** An encodable table has a document that UTF-8 encodes, that text mode
    reads back unchanged, and that parses to the table. *)
Lemma document_roundtrip (self : ChatManager) :
  encodable_sessions (sessions self) ->
  exists data,
    utf8_encode (document self) = Some data
    /\ utf8_decode data = Some (document self)
    /\ universal_newlines (document self) = document self
    /\ loads (document self) = Some (json_of_sessions (sessions self))
    /\ sessions_of_json (json_of_sessions (sessions self))
       = Some (sessions self).
Proof.
  intros Hs. pose proof (clean_json_of_sessions _ Hs) as Hclean.
  pose proof (Forall_text_char_iterencode _ Hclean 0%nat) as Htext.
  fold (dumps (json_of_sessions (sessions self))) in Htext.
  fold (document self) in Htext.
  destruct (utf8_encode_is_Some (document self)) as [data Hdata].
  { eapply Forall_impl; [exact Htext|]. by intros c [Hc _]. }
  exists data. split; [exact Hdata|].
  split; [by apply utf8_decode_encode|].
  split. { apply universal_newlines_id.
           eapply Forall_impl; [exact Htext|]. by intros c [_ Hc]. }
  split; [by apply loads_dumps|].
  apply sessions_of_json_of_sessions.
Qed.

(** ** Loading *)

Lemma load_history_missing io self w :
  files w !! history_file self = None -> load_history io self w = Ok tt self w.
Proof. intros H. unfold load_history. by rewrite H. Qed.





Lemma load_history_UnicodeDecodeError io self w data :
  files w !! history_file self = Some data -> read_error io = None ->
  utf8_decode data = None ->
  load_history io self w = Raise UnicodeDecodeError self w.
Proof. intros H He Hd. unfold load_history. by rewrite H, He, Hd. Qed.

(** C4, as the code has it.  A table whose strings UTF-8 can encode (no
    lone surrogate), saved by a write that runs to its end and then
    loaded by a read that does not fail, is the table the loading manager
    ends with: the same names, each with the same messages in the same
    order, each message with the same role, content and timestamp. *)
Theorem save_then_load_roundtrip (self other : ChatManager) (w : World)
  (wr : write_env) (rd : read_env) :
  encodable_sessions (sessions self) ->
  write_error wr = None ->
  read_error rd = None ->
  history_file other = history_file self ->
  exists data,
    let w1 := set_file (history_file self) (Some data)
                (emit (Save (history_file self) (document self)) w) in
    save_history wr self w = Ok tt self w1
    /\ files w1 !! history_file self = Some data
    /\ load_history rd other w1 = Ok tt (set_sessions (sessions self) other) w1
    /\ sessions (set_sessions (sessions self) other) = sessions self.
Proof.
  intros Hs Hwr Hrd Hpath.
  destruct (document_roundtrip self Hs)
    as (data & Henc & Hdec & Hnl & Hloads & Hsess).
  exists data. intros w1.
  split; [by apply save_history_written|].
  assert (Hfile : files w1 !! history_file self = Some data).
  { unfold w1. cbn. apply lookup_insert_eq. }
  split; [exact Hfile|].
  split; [|done].
  unfold load_history. rewrite Hpath, Hfile, Hrd, Hdec, Hnl, Hloads.
  by rewrite Hsess.
Qed.

(** The hypotheses of [save_then_load_roundtrip] at a table of two
    sessions whose messages hold a line break, a quote, a backslash, a
    control character and the multi-byte characters U+00E9, U+20AC and
    U+1F600; a fresh manager loads it back. *)
Lemma save_then_load_roundtrip_witness :
  let m1 := {| role := lit "user";
               content := [233; 8364; 128512; 10; 34; 92; 1];
               timestamp := lit "2025-01-01T00:00:00" |} in
  let m2 := {| role := lit "assistant"; content := lit "ok";
               timestamp := lit "2025-01-01T00:00:01" |} in
  let table : gmap pystr (list message) :=
    {[ lit "a" := [m1; m2]; [26085; 26412] := [] ]} in
  let self := {| history_file := HISTORY_FILE; sessions := table;
                 current_session := lit "a" |} in
  let other := {| history_file := HISTORY_FILE; sessions := ∅;
                  current_session := [] |} in
  let w := {| files := ∅; trace := []; terminal := quiet |} in
  let wr := {| write_error := None; residue := None |} in
  let rd := {| read_error := None; parse_error_text := [] |} in
  encodable_sessions table
  /\ exists w1,
       save_history wr self w = Ok tt self w1
       /\ load_history rd other w1 = Ok tt (set_sessions table other) w1.
Proof.
  intros m1 m2 table self other w wr rd.
  assert (H : encodable_sessions table).
  { unfold encodable_sessions. apply map_Forall_to_list.
    vm_compute map_to_list.
    repeat (first [ apply Forall_nil_2
                  | apply Forall_cons_2
                  | split
                  | reflexivity ]). }
  split; [exact H|].
  destruct (save_then_load_roundtrip self other w wr rd H eq_refl eq_refl eq_refl)
    as (data & Hsave & _ & Hload & _).
  eexists. split; [exact Hsave | exact Hload].
Defined.

(** C4, as the claim has it, fails on a table the program itself builds.
    A history file may spell a character as an escape, here the lone
    surrogate U+D83D; [load_history] reads it into the table.  Saving
    that table raises [UnicodeEncodeError], which [save_history] does not
    catch; the file is left with what was written before the string that
    cannot be encoded, and the next load finds no document in it and
    falls back to the empty [default] session. *)
Lemma lone_surrogate_breaks_roundtrip :
  let m := {| role := lit "user"; content := [55357]; timestamp := lit "t" |} in
  let table : gmap pystr (list message) := {[ lit "s" := [m] ]} in
  let self := {| history_file := HISTORY_FILE; sessions := table;
                 current_session := lit "s" |} in
  let blank := {| history_file := HISTORY_FILE; sessions := ∅;
                  current_session := [] |} in
  (* {"s": [{"role": "user", "content": "\ud83d", "timestamp": "t"}]} *)
  let escaped : pystr :=
    [123; 34; 115; 34; 58; 32; 91; 123; 34; 114; 111; 108; 101; 34; 58; 32;
     34; 117; 115; 101; 114; 34; 44; 32; 34; 99; 111; 110; 116; 101; 110;
     116; 34; 58; 32; 34; 92; 117; 100; 56; 51; 100; 34; 44; 32; 34; 116;
     105; 109; 101; 115; 116; 97; 109; 112; 34; 58; 32; 34; 116; 34; 125;
     93; 125] in
  let rd := {| read_error := None;
               parse_error_text := lit "Expecting value" |} in
  let wr := {| write_error := None;
               residue := utf8_encode (take 56 (document self)) |} in
  let w0 := {| files := {[ HISTORY_FILE := default [] (utf8_encode escaped) ]};
               trace := []; terminal := quiet |} in
  let w1 := set_file HISTORY_FILE (residue wr)
              (emit (Save HISTORY_FILE (document self)) w0) in
  load_history rd blank w0 = Ok tt (set_sessions table blank) w0
  /\ save_history wr self w0 = Raise UnicodeEncodeError self w1
  /\ final_state (load_history rd blank w1)
     = Some (set_sessions {[ lit "default" := [] ]} blank)
  /\ sessions (set_sessions {[ lit "default" := [] ]} blank) <> table.
Proof.
  intros m table self blank escaped rd wr w0 w1.
  split; [vm_compute; reflexivity|].
  split; [vm_compute; reflexivity|].
  split; [vm_compute; reflexivity|].
  intros H. apply (f_equal (fun t => t !! lit "s")) in H.
  vm_compute in H. discriminate.
Qed.

(** C7, where the code departs from it.  A history file that is not UTF-8
    (here the single byte 0xFF) makes [load_history] raise
    [UnicodeDecodeError]: the handler of [load_history] only catches
    [IOError] and [json.JSONDecodeError].  The exception leaves
    [__init__] too, no fallback table is installed and nothing is
    reported. *)
Theorem load_history_not_utf8_raises :
  let w := {| files := {[ HISTORY_FILE := [xff] ]}; trace := []; terminal := quiet |} in
  let rd := {| read_error := None; parse_error_text := [] |} in
  let blank := {| history_file := HISTORY_FILE; sessions := ∅;
                  current_session := [] |} in
  load_history rd blank w = Raise UnicodeDecodeError blank w
  /\ __init__ HISTORY_FILE (lit "20250101_120000") rd w
     = Raise UnicodeDecodeError blank w.
Proof. split; vm_compute; reflexivity. Qed.

(* ===================================================================== *)
(** * Further properties of the code *)
(* ===================================================================== *)

(** ** Reading the current session *)

Lemma get_messages_for_api_run self w msgs :
  sessions self !! current_session self = Some msgs ->
  get_messages_for_api self w = Ok (map strip_timestamp msgs) self w.
Proof.
  intros H. unfold get_messages_for_api, bind, gets, getitem. by rewrite H.
Qed.

(** The export and the context window.  [get_messages_for_api] returns
    the whole current session, stripped, and changes nothing;
    [get_context] returns the end of that same list, and the whole of it
    when the session has [MAX_CONTEXT_MESSAGES] messages or fewer. *)
Theorem get_context_suffix_of_export (self : ChatManager) (w : World)
  (hist : list message) :
  sessions self !! current_session self = Some hist ->
  exists context,
    get_messages_for_api self w = Ok (map strip_timestamp hist) self w
    /\ get_context self w = Ok context self w
    /\ context `suffix_of` map strip_timestamp hist
    /\ (len hist <= MAX_CONTEXT_MESSAGES ->
        context = map strip_timestamp hist).
Proof.
  intros H. eexists.
  split; [by apply get_messages_for_api_run|].
  split; [by apply get_context_run|].
  split.
  - destruct (slice_from_suffix (- MAX_CONTEXT_MESSAGES) hist) as [older Hold].
    exists (map strip_timestamp older). rewrite Hold at 1. apply map_app.
  - intros Hlen. by rewrite slice_from_neg_short by (done || reflexivity).
Qed.

Lemma get_context_suffix_of_export_witness :
  let m := {| role := lit "user"; content := lit "hi"; timestamp := lit "t" |} in
  let self := {| history_file := HISTORY_FILE;
                 sessions := {[ lit "s" := [m] ]};
                 current_session := lit "s" |} in
  let w := {| files := ∅; trace := []; terminal := quiet |} in
  sessions self !! current_session self = Some [m]
  /\ get_messages_for_api self w = Ok [strip_timestamp m] self w.
Proof.
  intros m self w.
  assert (H : sessions self !! current_session self = Some [m])
    by (vm_compute; reflexivity).
  split; [exact H|].
  destruct (get_context_suffix_of_export self w [m] H) as (ctx & Hexp & _).
  exact Hexp.
Defined.

(** ** Appending *)

Lemma trimmed_length_bounds msgs m :
  1 <= len (trimmed (msgs ++ [m])) <= 2 * MAX_HISTORY_MESSAGES.
Proof.
  unfold trimmed.
  destruct (Z.gtb_spec (len (msgs ++ [m])) (MAX_HISTORY_MESSAGES * 2)) as [Hgt|Hle].
  - rewrite slice_from_neg_length by apply MAX_HISTORY_MESSAGES_pos.
    change MAX_HISTORY_MESSAGES with 1000 in *. lia.
  - split; [|lia]. unfold len. rewrite length_app. cbn. lia.
Qed.

(** Whatever the current session held before, even more than the band
    allows (a table loaded from a file is not trimmed), after
    [add_message] it holds between 1 and [2 * MAX_HISTORY_MESSAGES]
    messages, the new message is its last one, and the other sessions and
    [current_session] are as they were. *)
Theorem add_message_bounds (r c t : pystr) (self : ChatManager) (w : World)
  (msgs : list message) :
  sessions self !! current_session self = Some msgs ->
  exists stored self',
    add_message r c t self w = Ok tt self' w
    /\ sessions self' !! current_session self = Some stored
    /\ 1 <= len stored <= 2 * MAX_HISTORY_MESSAGES
    /\ last stored = Some {| role := r; content := c; timestamp := t |}
    /\ stored `suffix_of` msgs ++ [{| role := r; content := c; timestamp := t |}]
    /\ current_session self' = current_session self
    /\ history_file self' = history_file self
    /\ (forall other, other <> current_session self ->
        sessions self' !! other = sessions self !! other).
Proof.
  intros H. do 2 eexists.
  split; [by apply add_message_run|].
  split. { cbn. apply lookup_insert_eq. }
  split; [apply trimmed_length_bounds|].
  split. { destruct (trimmed_snoc msgs {| role := r; content := c; timestamp := t |})
             as [older ->]. apply last_snoc. }
  split; [apply trimmed_suffix|].
  split; [done|]. split; [done|].
  intros other Hother. cbn. by rewrite lookup_insert_ne.
Qed.

Lemma add_message_bounds_witness :
  let self := {| history_file := HISTORY_FILE;
                 sessions := {[ lit "s" := [] ]};
                 current_session := lit "s" |} in
  let w := {| files := ∅; trace := []; terminal := quiet |} in
  sessions self !! current_session self = Some []
  /\ exists self', add_message (lit "user") (lit "hi") (lit "t") self w
                   = Ok tt self' w.
Proof.
  intros self w.
  assert (H : sessions self !! current_session self = Some [])
    by (vm_compute; reflexivity).
  split; [exact H|].
  destruct (add_message_bounds (lit "user") (lit "hi") (lit "t") self w [] H)
    as (stored & self' & Hrun & _).
  exists self'. exact Hrun.
Defined.

(** The message just appended is the last one of the context window that
    [get_context] returns next, whatever the session held. *)
Theorem get_context_after_add_message (r c t : pystr) (self : ChatManager)
  (w : World) (msgs : list message) :
  sessions self !! current_session self = Some msgs ->
  exists context self',
    (add_message r c t ;;; get_context) self w = Ok context self' w
    /\ last context = Some {| api_role := r; api_content := c |}
    /\ 1 <= len context <= MAX_CONTEXT_MESSAGES.
Proof.
  intros H.
  set (m := {| role := r; content := c; timestamp := t |}).
  pose proof (add_message_run r c t self w msgs H) as Hadd. fold m in Hadd.
  set (self' := set_sessions _ self) in Hadd.
  assert (Hcur : sessions self' !! current_session self' = Some (trimmed (msgs ++ [m]))).
  { cbn. apply lookup_insert_eq. }
  exists (map strip_timestamp
            (slice_from (- MAX_CONTEXT_MESSAGES) (trimmed (msgs ++ [m])))), self'.
  split. { rewrite (bind_Ok _ _ _ _ _ _ _ Hadd). by apply get_context_run. }
  destruct (trimmed_snoc msgs m) as [older Holder]. rewrite Holder.
  destruct (slice_from_neg_snoc MAX_CONTEXT_MESSAGES older m
              MAX_CONTEXT_MESSAGES_pos) as [older' Hslice].
  split.
  - rewrite Hslice, map_app. cbn [map]. apply last_snoc.
  - unfold len. rewrite length_map. fold (len (slice_from (- MAX_CONTEXT_MESSAGES)
                                                  (older ++ [m]))).
    rewrite slice_from_neg_length by apply MAX_CONTEXT_MESSAGES_pos.
    unfold len. rewrite length_app. cbn [length].
    change MAX_CONTEXT_MESSAGES with 20. lia.
Qed.

Lemma get_context_after_add_message_witness :
  let self := {| history_file := HISTORY_FILE;
                 sessions := {[ lit "s" := [] ]};
                 current_session := lit "s" |} in
  let w := {| files := ∅; trace := []; terminal := quiet |} in
  sessions self !! current_session self = Some []
  /\ exists context self',
       (add_message (lit "user") (lit "hi") (lit "t") ;;; get_context) self w
       = Ok context self' w
       /\ last context = Some {| api_role := lit "user"; api_content := lit "hi" |}.
Proof.
  intros self w.
  assert (H : sessions self !! current_session self = Some [])
    by (vm_compute; reflexivity).
  split; [exact H|].
  destruct (get_context_after_add_message (lit "user") (lit "hi") (lit "t")
              self w [] H) as (ctx & self' & Hrun & Hlast & _).
  exists ctx, self'. split; [exact Hrun | exact Hlast].
Defined.

(** ** Clearing and switching *)

(** [clear_history] never raises a [KeyError]: whatever the table held,
    the current session is empty afterwards (it is created if it was no
    key), the other sessions stay, [save_history] runs once on the new
    table, and the context window read next is empty. *)
Theorem clear_history_empties (io : write_env) (self : ChatManager)
  (w : World) :
  let self' := set_sessions (<[current_session self := []]> (sessions self))
                            self in
  let r := clear_history io self w in
  final_state r = Some self'
  /\ sessions self' !! current_session self' = Some []
  /\ (forall other, other <> current_session self ->
      sessions self' !! other = sessions self !! other)
  /\ saves (final_world r)
     = saves w ++ [Save (history_file self) (document self')]
  /\ get_context self' (final_world r) = Ok [] self' (final_world r).
Proof.
  intros self' r. subst r. rewrite clear_history_run. fold self'.
  assert (Hcur : sessions self' !! current_session self' = Some []).
  { cbn. apply lookup_insert_eq. }
  split; [apply save_then_print_final_state|].
  split; [exact Hcur|].
  split. { intros other Hother. cbn. by rewrite lookup_insert_ne. }
  split; [exact (save_then_print_saves io _ self' w)|].
  by rewrite (get_context_run self' _ [] Hcur).
Qed.

Lemma switch_session_renders name self w :
  renders w (ConsolePrint (msg_switched name)) ->
  switch_session name self w
  = Ok tt
       (set_current_session name
          (set_sessions
             (match sessions self !! name with
              | None => <[name := []]> (sessions self)
              | Some _ => sessions self
              end) self))
       (emit (ConsolePrint (msg_switched name)) w).
Proof.
  intros H. rewrite switch_session_run. by apply console_print_renders.
Qed.

(** [switch_session]: the name becomes current, a name that was no
    session gets an empty one, every session that existed keeps its
    messages, and nothing is written: the files are as before and
    [save_history] does not run.  All this is done before the message is
    printed, so it holds whether the terminal shows the message or raises;
    the call returns when the terminal shows it. *)
Theorem switch_session_creates_or_keeps (name : pystr) (self : ChatManager)
  (w : World) :
  let r := switch_session name self w in
  exists self',
    final_state r = Some self'
    /\ (renders w (ConsolePrint (msg_switched name)) ->
        r = Ok tt self' (emit (ConsolePrint (msg_switched name)) w))
    /\ current_session self' = name
    /\ sessions self' !! name = Some (default [] (sessions self !! name))
    /\ (forall other, other <> name ->
        sessions self' !! other = sessions self !! other)
    /\ (forall other msgs, sessions self !! other = Some msgs ->
        sessions self' !! other = Some msgs)
    /\ files (final_world r) = files w
    /\ saves (final_world r) = saves w.
Proof.
  intros r. subst r. rewrite switch_session_run.
  eexists. split; [apply output_final_state|].
  split; [apply console_print_renders|].
  split; [done|].
  split. { cbn. destruct (sessions self !! name) as [msgs|] eqn:H; [done|].
           apply lookup_insert_eq. }
  split. { intros other Hother. cbn.
           destruct (sessions self !! name); [done|]. by rewrite lookup_insert_ne. }
  split. { intros other msgs Hm. cbn.
           destruct (sessions self !! name) as [ms|] eqn:H; [done|].
           rewrite lookup_insert_ne; [done | congruence]. }
  split; [apply output_files | apply console_print_saves].
Qed.

(** Deleting needs switching away first.  A session that was just
    switched to is refused by [delete_session], and the table is what the
    switch left; after a switch to another name, an existing session is
    deleted, and the name switched to stays current.  ([delete_session]
    runs when [switch_session] has returned, that is when the terminal
    has shown its message.) *)
Theorem switch_then_delete (x y : pystr) (io : write_env)
  (self : ChatManager) (w : World) :
  (renders w (ConsolePrint (msg_switched x)) ->
   exists self1 w1,
      switch_session x self w = Ok tt self1 w1
      /\ final_state ((switch_session x ;;; delete_session x io) self w)
         = Some self1
      /\ saves (final_world ((switch_session x ;;; delete_session x io) self w))
         = saves w
      /\ (renders w (ConsolePrint msg_cannot_delete_current) ->
          (switch_session x ;;; delete_session x io) self w
          = Ok tt self1 (emit (ConsolePrint msg_cannot_delete_current) w1)))
  /\ (renders w (ConsolePrint (msg_switched y)) ->
      is_Some (sessions self !! x) -> y <> x ->
      exists self2,
        final_state ((switch_session y ;;; delete_session x io) self w)
        = Some self2
        /\ current_session self2 = y
        /\ sessions self2 !! x = None
        /\ is_Some (sessions self2 !! y)).
Proof.
  split.
  - intros Hshow. do 2 eexists.
    split; [by apply switch_session_renders|].
    rewrite (bind_Ok _ _ _ _ _ _ _ (switch_session_renders x self w Hshow)).
    rewrite delete_session_current; [| |done].
    + split; [apply output_final_state|].
      split. { rewrite console_print_saves. apply saves_emit_ConsolePrint. }
      intros Hshow2. by apply console_print_renders.
    + cbn. destruct (sessions self !! x) as [msgs|] eqn:H; [by rewrite H|].
      rewrite lookup_insert_eq. by eexists.
  - intros Hshow [msgs Hx] Hne.
    rewrite (bind_Ok _ _ _ _ _ _ _ (switch_session_renders y self w Hshow)).
    set (self1 := set_current_session y _).
    assert (Hx1 : is_Some (sessions self1 !! x)).
    { cbn. destruct (sessions self !! y); [by rewrite Hx|].
      rewrite lookup_insert_ne by done. by rewrite Hx. }
    rewrite delete_session_other; [|done|by cbn].
    eexists. split; [apply save_then_print_final_state|].
    split; [done|].
    split. { cbn. apply lookup_delete_eq. }
    cbn. rewrite lookup_delete_ne by done.
    destruct (sessions self !! y) as [ms|] eqn:Hy; [by rewrite Hy|].
    rewrite lookup_insert_eq. by eexists.
Qed.

Lemma switch_then_delete_witness :
  let self := {| history_file := HISTORY_FILE;
                 sessions := {[ lit "a" := []; lit "b" := [] ]};
                 current_session := lit "a" |} in
  let w := {| files := ∅; trace := []; terminal := quiet |} in
  let io := {| write_error := None; residue := None |} in
  renders w (ConsolePrint (msg_switched (lit "b")))
  /\ is_Some (sessions self !! lit "a")
  /\ exists self2,
       final_state ((switch_session (lit "b") ;;; delete_session (lit "a") io)
                      self w) = Some self2
       /\ current_session self2 = lit "b"
       /\ sessions self2 !! lit "a" = None.
Proof.
  intros self w io.
  assert (Hshow : renders w (ConsolePrint (msg_switched (lit "b"))))
    by (intros tr; reflexivity).
  assert (H : is_Some (sessions self !! lit "a"))
    by (vm_compute; eexists; reflexivity).
  split; [exact Hshow|]. split; [exact H|].
  destruct (proj2 (switch_then_delete (lit "a") (lit "b") io self w) Hshow H)
    as (self2 & Hst & Hcur & Hgone & _).
  - vm_compute. discriminate.
  - exists self2. split; [exact Hst|]. split; [exact Hcur | exact Hgone].
Defined.

(** Renaming a session and renaming it back gives the table and the
    current name there were, however the two saves end. *)
Theorem rename_session_and_back (a b : pystr) (io1 io2 : write_env)
  (self : ChatManager) (w w' : World) (msgs : list message) :
  current_in_sessions self ->
  sessions self !! a = Some msgs ->
  sessions self !! b = None ->
  exists self1,
    final_state (rename_session a b io1 self w) = Some self1
    /\ final_state (rename_session b a io2 self1 w') = Some self.
Proof.
  intros [cur_msgs Hcur] Ha Hb.
  assert (Hab : a <> b) by congruence.
  rewrite (rename_session_fresh a b io1 self w msgs Ha Hb).
  set (self1 := set_current_session _ _).
  exists self1. split; [apply save_then_print_final_state|].
  assert (Hb1 : sessions self1 !! b = Some msgs).
  { cbn. apply lookup_insert_eq. }
  assert (Ha1 : sessions self1 !! a = None).
  { cbn. rewrite lookup_insert_ne by done. apply lookup_delete_eq. }
  rewrite (rename_session_fresh b a io2 self1 w' msgs Hb1 Ha1).
  rewrite save_then_print_final_state. f_equal.
  destruct self as [path table cur]. cbn in *.
  unfold set_current_session, set_sessions. cbn. f_equal.
  - apply map_eq. intros k.
    destruct (decide (k = a)) as [->|Hka].
    + by rewrite lookup_insert_eq.
    + rewrite lookup_insert_ne by done.
      destruct (decide (k = b)) as [->|Hkb].
      * by rewrite lookup_delete_eq.
      * rewrite lookup_delete_ne, lookup_insert_ne, lookup_delete_ne by done.
        done.
  - destruct (decide (cur = a)) as [->|Hca].
    + rewrite (bool_decide_eq_true_2 (a = a)) by done.
      by rewrite bool_decide_eq_true_2.
    + rewrite (bool_decide_eq_false_2 (cur = a)) by done.
      rewrite bool_decide_eq_false_2; [done | congruence].
Qed.

Lemma rename_session_and_back_witness :
  let m := {| role := lit "user"; content := lit "hi"; timestamp := lit "t" |} in
  let self := {| history_file := HISTORY_FILE;
                 sessions := {[ lit "a" := [m] ]};
                 current_session := lit "a" |} in
  let w := {| files := ∅; trace := []; terminal := quiet |} in
  let io := {| write_error := None; residue := None |} in
  current_in_sessions self
  /\ exists self1,
       final_state (rename_session (lit "a") (lit "b") io self w) = Some self1
       /\ final_state (rename_session (lit "b") (lit "a") io self1 w)
          = Some self.
Proof.
  intros m self w io.
  assert (H : current_in_sessions self)
    by (vm_compute; eexists; reflexivity).
  split; [exact H|].
  apply (rename_session_and_back (lit "a") (lit "b") io io self w w [m] H);
    vm_compute; reflexivity.
Defined.

(** Sessions do not disturb each other: after a switch to another session
    (the terminal showing the message of each switch), a message appended
    there and a switch back, the export of the first session is what it
    was. *)
Theorem session_isolation (b r c t : pystr) (self : ChatManager) (w : World)
  (hist : list message) :
  sessions self !! current_session self = Some hist ->
  b <> current_session self ->
  renders w (ConsolePrint (msg_switched b)) ->
  renders w (ConsolePrint (msg_switched (current_session self))) ->
  exists self' w',
    (switch_session b ;;;
     add_message r c t ;;;
     switch_session (current_session self) ;;;
     get_messages_for_api) self w
    = Ok (map strip_timestamp hist) self' w'
    /\ current_session self' = current_session self
    /\ sessions self' !! current_session self = Some hist
    /\ exists there older,
         sessions self' !! b = Some there
         /\ there = older ++ [{| role := r; content := c; timestamp := t |}].
Proof.
  intros Hcur Hb Hshowb Hshowa.
  set (a := current_session self) in *.
  rewrite (bind_Ok _ _ _ _ _ _ _ (switch_session_renders b self w Hshowb)).
  set (self1 := set_current_session b _).
  set (before := default [] (sessions self !! b)).
  assert (Hb1 : sessions self1 !! current_session self1 = Some before).
  { cbn. unfold before. destruct (sessions self !! b) as [ms|] eqn:H; [done|].
    apply lookup_insert_eq. }
  assert (Ha1 : sessions self1 !! a = Some hist).
  { cbn. destruct (sessions self !! b); [done|]. by rewrite lookup_insert_ne. }
  rewrite (bind_Ok _ _ _ _ _ _ _ (add_message_run r c t self1 _ before Hb1)).
  set (m := {| role := r; content := c; timestamp := t |}).
  set (self2 := set_sessions _ self1).
  assert (Ha2 : sessions self2 !! a = Some hist).
  { cbn -[self1]. cbn [self1 current_session set_current_session].
    by rewrite lookup_insert_ne. }
  rewrite (bind_Ok _ _ _ _ _ _ _ (switch_session_renders a self2
                (emit (ConsolePrint (msg_switched b)) w) Hshowa)).
  rewrite Ha2.
  set (self3 := set_current_session a _).
  assert (Ha3 : sessions self3 !! current_session self3 = Some hist) by exact Ha2.
  rewrite (get_messages_for_api_run self3 _ hist Ha3).
  do 2 eexists. split; [reflexivity|].
  split; [done|]. split; [exact Ha2|].
  destruct (trimmed_snoc before m) as [older Holder].
  exists (trimmed (before ++ [m])), older. split; [|exact Holder].
  cbn. apply lookup_insert_eq.
Qed.

Lemma session_isolation_witness :
  let m := {| role := lit "user"; content := lit "hi"; timestamp := lit "t" |} in
  let self := {| history_file := HISTORY_FILE;
                 sessions := {[ lit "a" := [m] ]};
                 current_session := lit "a" |} in
  let w := {| files := ∅; trace := []; terminal := quiet |} in
  sessions self !! current_session self = Some [m]
  /\ exists self' w',
       (switch_session (lit "b") ;;;
        add_message (lit "user") (lit "yo") (lit "t2") ;;;
        switch_session (current_session self) ;;;
        get_messages_for_api) self w
       = Ok [strip_timestamp m] self' w'.
Proof.
  intros m self w.
  assert (H : sessions self !! current_session self = Some [m])
    by (vm_compute; reflexivity).
  split; [exact H|].
  destruct (session_isolation (lit "b") (lit "user") (lit "yo") (lit "t2")
              self w [m] H) as (self' & w' & Hrun & _).
  - vm_compute. discriminate.
  - intros tr. reflexivity.
  - intros tr. reflexivity.
  - exists self', w'. exact Hrun.
Defined.

(** ** The aggregator and the orchestrator *)




Lemma chat_create_error messages prompt stream remote self w e :
  (forall req, create remote req = inl e) ->
  (forall req, create_stream remote req = inl e) ->
  chat messages prompt stream remote self w = Raise (wrap_error e) self w.
Proof.
  intros H1 H2. unfold chat, bind, gets.
  destruct stream; [by rewrite H2 | by rewrite H1].
Qed.

(** When the remote call fails, in either mode, in front of a terminal
    that shows the thinking indicator and the error message,
    [send_message] ends normally: the user's message stays at the end of
    the current session, no assistant message is appended,
    [save_history] does not run, and the error is printed with the prefix
    that tells an [APIError] from any other exception. *)
Theorem send_message_service_failure (user_input : pystr) (env : send_env)
  (app : LLMCLIApp) (w : World) (c : LLMClient) (msgs : list message)
  (e : service_error) :
  llm_client app = Some c ->
  sessions (chat_manager app) !! current_session (chat_manager app)
  = Some msgs ->
  (forall req, create (remote env) req = inl e) ->
  (forall req, create_stream (remote env) req = inl e) ->
  let cm := chat_manager app in
  let user := {| role := lit "user"; content := user_input;
                 timestamp := now_user env |} in
  let text := (if is_api_error e then lit "API Error: "
               else lit "Unexpected error: ") ++ error_text e in
  renders w (ConsolePrint msg_thinking) ->
  renders w (ConsolePrint (msg_error text)) ->
  exists older cm1,
    send_message user_input env app w
    = Ok tt (set_chat_manager cm1 app)
         (emits [ConsolePrint msg_thinking; ConsolePrint (msg_error text)] w)
    /\ cm1 = set_sessions (<[current_session cm := older ++ [user]]>
                             (sessions cm)) cm
    /\ older ++ [user] `suffix_of` msgs ++ [user]
    /\ saves (emits [ConsolePrint msg_thinking; ConsolePrint (msg_error text)] w)
       = saves w.
Proof.
  intros Hc Hcur Hcreate Hstream cm user text Hthink Hshow.
  destruct (trimmed_snoc msgs user) as [older Holder].
  exists older. eexists. split; [|split; [reflexivity|]].
  - unfold send_message, bind at 1, gets. rewrite Hc.
    pose proof (add_message_run (lit "user") user_input (now_user env) cm w
                  msgs Hcur) as H1.
    fold user in H1. rewrite Holder in H1.
    set (cm1 := set_sessions _ cm) in *.
    rewrite (bind_Ok _ _ _ _ _ _ _
               (on_field_Ok chat_manager set_chat_manager _ app w _ _ _ H1)).
    assert (Hcur1 : sessions cm1 !! current_session cm1 = Some (older ++ [user])).
    { cbn. by rewrite lookup_insert_eq. }
    pose proof (get_context_run cm1 w _ Hcur1) as H2.
    set (app1 := set_chat_manager cm1 app).
    rewrite (bind_Ok _ _ _ _ _ _ _
               (on_field_Ok chat_manager set_chat_manager _ app1 w _ _ _ H2)).
    change (set_chat_manager cm1 app1) with app1.
    rewrite (bind_Ok _ _ _ _ _ _ _
               (console_print_renders msg_thinking app1 w Hthink)).
    unfold try_except_RuntimeError.
    unfold bind at 1 2, gets.
    unfold bind at 1, on_llm_client, on_field.
    rewrite (chat_create_error _ _ _ _ _ _ e Hcreate Hstream).
    assert (Happ1 : set_llm_client c app1 = app1).
    { unfold set_llm_client, app1, set_chat_manager. cbn. by rewrite Hc. }
    rewrite Happ1.
    assert (Hw : wrap_error e = RuntimeError text).
    { unfold wrap_error, text. by destruct (is_api_error e). }
    rewrite Hw.
    rewrite (console_print_renders (msg_error text) app1
               (emit (ConsolePrint msg_thinking) w) Hshow).
    f_equal. unfold emits, emit. cbn [files trace terminal].
    by rewrite <- app_assoc.
  - split; [rewrite <- Holder; apply trimmed_suffix|].
    rewrite saves_emits. cbn. by rewrite app_nil_r.
Qed.

Lemma send_message_service_failure_witness :
  let cm := {| history_file := HISTORY_FILE;
               sessions := {[ lit "s" := [] ]};
               current_session := lit "s" |} in
  let c := {| api_key := lit "k"; base_url := lit "u"; model := lit "m" |} in
  let app := {| chat_manager := cm; llm_client := Some c;
                system_prompt := lit "p"; streaming := false |} in
  let e := {| is_api_error := true; error_text := lit "401" |} in
  let svc := {| create := fun _ => inl e; create_stream := fun _ => inl e |} in
  let env := {| now_user := lit "t1"; now_assistant := lit "t2";
                remote := svc;
                save_io := {| write_error := None; residue := None |} |} in
  let w := {| files := ∅; trace := []; terminal := quiet |} in
  exists older cm1,
    send_message (lit "q") env app w
    = Ok tt (set_chat_manager cm1 app)
         (emits [ConsolePrint msg_thinking;
                 ConsolePrint (msg_error (lit "API Error: " ++ lit "401"))] w)
    /\ cm1 = set_sessions
               (<[lit "s" := older ++ [{| role := lit "user"; content := lit "q";
                                          timestamp := lit "t1" |}]]>
                  (sessions cm)) cm.
Proof.
  intros cm c app e svc env w.
  destruct (send_message_service_failure (lit "q") env app w c [] e)
    as (older & cm1 & Hrun & Hcm1 & _).
  - reflexivity.
  - vm_compute. reflexivity.
  - intros req. reflexivity.
  - intros req. reflexivity.
  - intros tr. reflexivity.
  - intros tr. reflexivity.
  - exists older, cm1. split; [exact Hrun | exact Hcm1].
Defined.

(** Below the trimming threshold a successful exchange loses nothing:
    when the terminal has shown the thinking indicator and [chat]
    returns, the current session is the old one followed by the user's
    message and the assistant's reply, and, the reply being displayed, it
    is saved exactly when that makes a multiple of 4. *)
Theorem send_message_appends_exchange (user_input : pystr) (env : send_env)
  (app : LLMCLIApp) (w : World) (c : LLMClient) (msgs : list message)
  (response : pystr) (w2 : World) :
  llm_client app = Some c ->
  sessions (chat_manager app) !! current_session (chat_manager app)
  = Some msgs ->
  len msgs + 2 <= 2 * MAX_HISTORY_MESSAGES ->
  let cm := chat_manager app in
  let user := {| role := lit "user"; content := user_input;
                 timestamp := now_user env |} in
  let messages :=
    map strip_timestamp (slice_from (- MAX_CONTEXT_MESSAGES) (msgs ++ [user])) in
  renders w (ConsolePrint msg_thinking) ->
  chat messages (Some (system_prompt app)) (streaming app) (remote env) c
       (emit (ConsolePrint msg_thinking) w) = Ok response c w2 ->
  let assistant := {| role := lit "assistant"; content := response;
                      timestamp := now_assistant env |} in
  let cm2 := set_sessions (<[current_session cm := msgs ++ [user; assistant]]>
                             (sessions cm)) cm in
  let r := send_message user_input env app w in
  final_state r = Some (set_chat_manager cm2 app)
  /\ (shows_reply w (streaming app) response ->
      saves (final_world r)
      = saves w ++ (if (len msgs + 2) mod 4 =? 0
                    then [Save (history_file cm) (document cm2)] else [])).
Proof.
  intros Hc Hcur Hlen cm user messages Hthink Hchat assistant cm2 r.
  assert (Ht1 : trimmed (msgs ++ [user]) = msgs ++ [user]).
  { unfold trimmed. destruct (Z.gtb_spec (len (msgs ++ [user]))
                                         (MAX_HISTORY_MESSAGES * 2)); [|done].
    unfold len in *. rewrite length_app in *. cbn in *. lia. }
  assert (Ht2 : trimmed ((msgs ++ [user]) ++ [assistant])
                = msgs ++ [user; assistant]).
  { unfold trimmed. rewrite <- app_assoc.
    change ([user] ++ [assistant]) with [user; assistant].
    destruct (Z.gtb_spec (len (msgs ++ [user; assistant]))
                         (MAX_HISTORY_MESSAGES * 2)); [|done].
    unfold len in *. rewrite length_app in *. cbn in *. lia. }
  assert (Hlen2 : len (msgs ++ [user; assistant]) = len msgs + 2).
  { unfold len. rewrite length_app. cbn. lia. }
  pose proof (send_message_reply user_input env app w c msgs response w2
                Hc Hcur) as Hrun.
  cbv zeta in Hrun. fold cm user in Hrun. rewrite Ht1 in Hrun.
  specialize (Hrun Hthink Hchat). fold assistant in Hrun. rewrite Ht2 in Hrun.
  fold cm2 r in Hrun.
  destruct (try_except_print_final
              (display_and_save response (streaming app) env) msg_error
              (set_chat_manager cm2 app) w2) as (Hst & _ & Hsv).
  cbn zeta in Hst, Hsv. rewrite <- Hrun in Hst, Hsv.
  split. { rewrite Hst. apply display_and_save_final_state. }
  intros Hshow.
  destruct (chat_Ok_inv _ _ _ _ _ _ _ _ _ Hchat) as (_ & Hs2 & Ht2').
  rewrite saves_emit_ConsolePrint in Hs2.
  assert (Hshow2 : shows_reply w2 (streaming app) response).
  { intros Hplain. destruct (Hshow Hplain) as (S1 & S2 & S3).
    unfold renders. cbn [terminal emit] in Ht2'. rewrite Ht2'. done. }
  assert (Hcur2 : sessions cm2 !! current_session cm2
                  = Some (msgs ++ [user; assistant])).
  { cbn. apply lookup_insert_eq. }
  rewrite Hsv.
  rewrite (display_and_save_saves _ _ _ _ _ _ _ Hcur2 Hshow2).
  by rewrite Hs2, Hlen2.
Qed.

Lemma send_message_appends_exchange_witness :
  let cm := {| history_file := HISTORY_FILE;
               sessions := {[ lit "s" := [] ]};
               current_session := lit "s" |} in
  let c := {| api_key := lit "k"; base_url := lit "u"; model := lit "m" |} in
  let app := {| chat_manager := cm; llm_client := Some c;
                system_prompt := lit "p"; streaming := false |} in
  let svc := {| create := fun _ => inr (lit "Hello");
                create_stream := fun _ => inl {| is_api_error := true;
                                                 error_text := [] |} |} in
  let env := {| now_user := lit "t1"; now_assistant := lit "t2";
                remote := svc;
                save_io := {| write_error := None; residue := None |} |} in
  let w := {| files := ∅; trace := []; terminal := quiet |} in
  saves (final_world (send_message (lit "q") env app w)) = [].
Proof.
  intros cm c app svc env w.
  destruct (send_message_appends_exchange (lit "q") env app w c [] (lit "Hello")
              (emit (ConsolePrint msg_thinking) w)) as [_ Hs].
  - reflexivity.
  - vm_compute. reflexivity.
  - vm_compute. discriminate.
  - intros tr. reflexivity.
  - reflexivity.
  - rewrite Hs; [reflexivity|].
    intros _. repeat split; intros tr; reflexivity.
Defined.

(** ** Saving what cannot be encoded *)

Lemma utf8_encode_unencodable s c :
  c ∈ s -> is_scalar c = false -> utf8_encode s = None.
Proof.
  intros Hin Hc. induction Hin as [c s|c d s _ IH]; cbn [utf8_encode].
  - unfold utf8_encode_char. by rewrite Hc.
  - rewrite (IH Hc). by destruct (utf8_encode_char d).
Qed.

Lemma escape_char_unencodable c : is_scalar c = false -> escape_char c = [c].
Proof.
  intros Hc. unfold escape_char.
  assert (H : ~ (0 <= c < 1114112 /\ ~ (55296 <= c <= 57343))).
  { intros H%is_scalar_spec. congruence. }
  repeat match goal with
         | |- context [c =? ?k] =>
             replace (c =? k) with false by (symmetry; apply Z.eqb_neq; lia)
         end.
  by replace ((0 <=? c) && (c <? 32)) with false by lia.
Qed.

Lemma elem_of_concat {A : Type} (x : A) (l : list A) (ls : list (list A)) :
  x ∈ l -> l ∈ ls -> x ∈ concat ls.
Proof.
  intros Hx Hl. induction Hl as [l ls|l l' ls _ IH]; cbn [concat];
    apply elem_of_app; [by left | right; by apply IH].
Qed.

Lemma elem_of_encode_basestring c s :
  c ∈ s -> is_scalar c = false -> c ∈ encode_basestring s.
Proof.
  intros Hin Hc. unfold encode_basestring.
  apply list_elem_of_further, elem_of_app. left.
  apply (elem_of_concat c [c]); [apply list_elem_of_here|].
  apply list_elem_of_fmap. exists c. by rewrite escape_char_unencodable.
Qed.

Lemma elem_of_iterencode_array c items x level :
  x ∈ items -> (forall lvl, c ∈ iterencode lvl x) ->
  c ∈ iterencode level (JArray items).
Proof.
  intros Hin Hx. destruct items as [|y ys]; [by apply not_elem_of_nil in Hin|].
  cbn [iterencode]. apply list_elem_of_further, elem_of_app. right.
  apply elem_of_cons in Hin as [->|Hin].
  - apply elem_of_app. left. apply Hx.
  - apply elem_of_app. right. apply elem_of_app. left.
    apply (elem_of_concat c
             (44 :: newline_indent (S level) ++ iterencode (S level) x)).
    + apply list_elem_of_further, elem_of_app. right. apply Hx.
    + apply list_elem_of_fmap. by exists x.
Qed.

Lemma elem_of_iterencode_object c (kvs : list (pystr * json)) k v level :
  (k, v) ∈ kvs -> (forall lvl, c ∈ iterencode lvl v) ->
  c ∈ iterencode level (JObject kvs).
Proof.
  intros Hin Hv. destruct kvs as [|[k0 v0] kvs]; [by apply not_elem_of_nil in Hin|].
  cbn [iterencode]. apply list_elem_of_further, elem_of_app. right.
  apply elem_of_app. right. apply elem_of_app. right.
  apply elem_of_cons in Hin as [[= -> ->]|Hin].
  - apply elem_of_app. left. apply Hv.
  - apply elem_of_app. right. apply elem_of_app. left.
    apply (elem_of_concat c
             (44 :: newline_indent (S level) ++ encode_basestring k ++ [58; 32]
              ++ iterencode (S level) v)).
    + apply list_elem_of_further, elem_of_app. right.
      apply elem_of_app. right. apply elem_of_app. right. apply Hv.
    + apply list_elem_of_fmap. by exists (k, v).
Qed.

Lemma elem_of_document c (self : ChatManager) name msgs m :
  sessions self !! name = Some msgs -> m ∈ msgs -> c ∈ content m ->
  is_scalar c = false -> c ∈ document self.
Proof.
  intros Hname Hm Hc Hns. unfold document, dumps, json_of_sessions.
  apply (elem_of_iterencode_object c _ name (JArray (map json_of_message msgs))).
  - apply list_elem_of_fmap. exists (name, msgs). split; [done|].
    by apply elem_of_map_to_list.
  - intros lvl. apply (elem_of_iterencode_array c _ (json_of_message m)).
    + apply list_elem_of_fmap. by exists m.
    + intros lvl'. unfold json_of_message.
      apply (elem_of_iterencode_object c _ (lit "content") (JString (content m))).
      * apply list_elem_of_further, list_elem_of_here.
      * intros lvl''. by apply elem_of_encode_basestring.
Qed.

(** A message whose content holds a code point that UTF-8 cannot encode
    (a lone surrogate) makes [save_history] raise [UnicodeEncodeError]
    when the write itself does not fail: the handler only catches
    [IOError].  The table in memory is as before. *)
Theorem save_history_unencodable_raises (io : write_env) (self : ChatManager)
  (w : World) (name : pystr) (msgs : list message) (m : message) (c : Z) :
  write_error io = None ->
  sessions self !! name = Some msgs ->
  m ∈ msgs ->
  c ∈ content m ->
  is_scalar c = false ->
  save_history io self w
  = Raise UnicodeEncodeError self
      (set_file (history_file self) (residue io)
                (emit (Save (history_file self) (document self)) w)).
Proof.
  intros Hio Hname Hm Hc Hns. unfold save_history. rewrite Hio.
  fold (document self).
  by rewrite (utf8_encode_unencodable (document self) c)
    by (done || by eapply elem_of_document).
Qed.

Lemma save_history_unencodable_raises_witness :
  let m := {| role := lit "user"; content := [104; 55357];
              timestamp := lit "t" |} in
  let self := {| history_file := HISTORY_FILE;
                 sessions := {[ lit "s" := [m] ]};
                 current_session := lit "s" |} in
  let w := {| files := ∅; trace := []; terminal := quiet |} in
  let io := {| write_error := None; residue := None |} in
  final_state (save_history io self w) = Some self
  /\ exists w', save_history io self w = Raise UnicodeEncodeError self w'.
Proof.
  intros m self w io.
  pose proof (save_history_unencodable_raises io self w (lit "s") [m] m 55357)
    as H.
  rewrite H.
  - split; [reflexivity|]. eexists. reflexivity.
  - reflexivity.
  - vm_compute. reflexivity.
  - apply list_elem_of_here.
  - apply list_elem_of_further, list_elem_of_here.
  - reflexivity.
Defined.

(** ** Starting up *)

Lemma load_history_Ok_inv io self w a self' w' :
  load_history io self w = Ok a self' w' ->
  self' = set_sessions (sessions self') self
  /\ files w' = files w /\ saves w' = saves w.
Proof.
  assert (Hfb : forall e,
             (console_print (msg_error_loading e) ;;;
              modify (set_sessions {[ lit "default" := [] ]})) self w
             = Ok a self' w' ->
             self' = set_sessions (sessions self') self
             /\ files w' = files w /\ saves w' = saves w).
  { intros e. unfold bind, console_print, output, modify.
    destruct (terminal w (trace w) (ConsolePrint (msg_error_loading e)));
      [done|].
    intros [= _ <- <-]. split; [done|]. split; [done|].
    apply saves_emit_ConsolePrint. }
  unfold load_history. destruct (files w !! history_file self) as [data|].
  - destruct (read_error io) as [[e|e]|].
    + apply Hfb.
    + by destruct (utf8_decode data).
    + destruct (utf8_decode data) as [text|]; [|done].
      destruct (loads _) as [j|]; [|apply Hfb].
      destruct (sessions_of_json j) as [s|]; [|done].
      by intros [= _ <- <-].
  - intros [= _ <- <-]. split; [|done]. by rewrite set_sessions_id.
Qed.

(** Every start opens a fresh session: in the object [__init__] returns
    the current session is [chat_] followed by the time stamp, it is
    empty, and the table is the loaded one with that entry set; so a
    loaded session of that very name is emptied, and every other loaded
    session is kept.  Starting writes no file. *)
Theorem __init___opens_fresh_session (path now : pystr) (io : read_env)
  (w : World) (self' : ChatManager) (w' : World) :
  __init__ path now io w = Ok tt self' w' ->
  let blank := {| history_file := path; sessions := ∅;
                  current_session := [] |} in
  let new_session_name := lit "chat_" ++ now in
  history_file self' = path
  /\ current_session self' = new_session_name
  /\ sessions self' !! new_session_name = Some []
  /\ files w' = files w
  /\ saves w' = saves w
  /\ exists loaded,
       load_history io blank w = Ok tt (set_sessions loaded blank) w'
       /\ sessions self' = <[new_session_name := []]> loaded
       /\ (forall name, name <> new_session_name ->
           sessions self' !! name = loaded !! name).
Proof.
  intros H blank new_session_name.
  unfold __init__, bind at 1 in H. fold blank in H.
  destruct (load_history io blank w) as [[] st w1| |] eqn:Hload; [|done..].
  destruct (load_history_Ok_inv _ _ _ _ _ _ Hload) as (Hst & Hfiles & Hsaves).
  unfold bind, setitem, modify in H. injection H as <- <-.
  split; [by rewrite Hst|].
  split; [done|].
  split. { cbn. apply lookup_insert_eq. }
  split; [done|]. split; [done|].
  exists (sessions st). split; [by rewrite <- Hst|].
  split; [done|].
  intros name Hname. cbn. by rewrite lookup_insert_ne.
Qed.

Lemma __init___opens_fresh_session_witness :
  let w := {| files := ∅; trace := []; terminal := quiet |} in
  let io := {| read_error := None; parse_error_text := [] |} in
  let self' := {| history_file := HISTORY_FILE;
                  sessions := {[ lit "chat_" ++ lit "20250101_120000" := [] ]};
                  current_session := lit "chat_" ++ lit "20250101_120000" |} in
  __init__ HISTORY_FILE (lit "20250101_120000") io w = Ok tt self' w
  /\ sessions self' !! (lit "chat_" ++ lit "20250101_120000") = Some [].
Proof.
  intros w io self'.
  assert (H : __init__ HISTORY_FILE (lit "20250101_120000") io w = Ok tt self' w)
    by (vm_compute; reflexivity).
  split; [exact H|].
  exact (proj1 (proj2 (proj2 (__init___opens_fresh_session _ _ _ _ _ _ H)))).
Defined.

Lemma load_history_saved (self other : ChatManager) (w : World) (io : read_env)
  (data : list byte) :
  encodable_sessions (sessions self) ->
  utf8_encode (document self) = Some data ->
  read_error io = None ->
  files w !! history_file other = Some data ->
  load_history io other w = Ok tt (set_sessions (sessions self) other) w.
Proof.
  intros Hs Henc Hrd Hfile.
  destruct (document_roundtrip self Hs)
    as (data' & Henc' & Hdec & Hnl & Hloads & Hsess).
  assert (data' = data) by congruence. subst data'.
  unfold load_history. by rewrite Hfile, Hrd, Hdec, Hnl, Hloads, Hsess.
Qed.

(** Across a restart.  A table of encodable strings that [save_history]
    wrote to the end is what the next start finds: every saved session
    is there with its messages, next to the fresh current session (which
    replaces a saved session of the same name). *)
Theorem restart_finds_saved_sessions (self : ChatManager) (w : World)
  (wr : write_env) (rd : read_env) (now : pystr) :
  encodable_sessions (sessions self) ->
  write_error wr = None ->
  read_error rd = None ->
  let new_session_name := lit "chat_" ++ now in
  exists w1 self',
    save_history wr self w = Ok tt self w1
    /\ __init__ (history_file self) now rd w1 = Ok tt self' w1
    /\ current_session self' = new_session_name
    /\ sessions self' = <[new_session_name := []]> (sessions self)
    /\ (forall name, name <> new_session_name ->
        sessions self' !! name = sessions self !! name).
Proof.
  intros Hs Hwr Hrd new_session_name.
  destruct (document_roundtrip self Hs) as (data & Henc & _).
  pose proof (save_history_written wr self w data Hwr Henc) as Hsave.
  set (w1 := set_file _ _ _) in Hsave.
  set (blank := {| history_file := history_file self; sessions := ∅;
                   current_session := [] |}).
  assert (Hload : load_history rd blank w1
                  = Ok tt (set_sessions (sessions self) blank) w1).
  { apply (load_history_saved self blank w1 rd data); try done.
    unfold w1. cbn. apply lookup_insert_eq. }
  exists w1. eexists. split; [exact Hsave|].
  split. { unfold __init__. fold blank.
           rewrite (bind_Ok _ _ _ _ _ _ _ Hload). reflexivity. }
  split; [done|]. split; [done|].
  intros name Hname. cbn. by rewrite lookup_insert_ne.
Qed.

Lemma restart_finds_saved_sessions_witness :
  let m := {| role := lit "user"; content := [233; 128512];
              timestamp := lit "t" |} in
  let table : gmap pystr (list message) := {[ lit "a" := [m] ]} in
  let self := {| history_file := HISTORY_FILE; sessions := table;
                 current_session := lit "a" |} in
  let w := {| files := ∅; trace := []; terminal := quiet |} in
  let wr := {| write_error := None; residue := None |} in
  let rd := {| read_error := None; parse_error_text := [] |} in
  encodable_sessions table
  /\ exists w1 self',
       __init__ HISTORY_FILE (lit "20250101_120000") rd w1 = Ok tt self' w1
       /\ sessions self' !! lit "a" = Some [m].
Proof.
  intros m table self w wr rd.
  assert (H : encodable_sessions table).
  { unfold encodable_sessions. apply map_Forall_to_list.
    vm_compute map_to_list.
    repeat (first [ apply Forall_nil_2
                  | apply Forall_cons_2
                  | split
                  | reflexivity ]). }
  split; [exact H|].
  destruct (restart_finds_saved_sessions self w wr rd (lit "20250101_120000")
              H eq_refl eq_refl) as (w1 & self' & _ & Hinit & _ & _ & Hother).
  exists w1, self'. split; [exact Hinit|].
  rewrite Hother; [reflexivity|]. vm_compute. discriminate.
Defined.



(** ** What the service is asked *)

Lemma chat_depends_on_request messages prompt stream (r1 r2 : service) self w :
  create r1 (chat_request (model self) messages prompt stream)
  = create r2 (chat_request (model self) messages prompt stream) ->
  create_stream r1 (chat_request (model self) messages prompt stream)
  = create_stream r2 (chat_request (model self) messages prompt stream) ->
  chat messages (Some prompt) stream r1 self w
  = chat messages (Some prompt) stream r2 self w.
Proof.
  intros H1 H2. unfold chat, bind, gets, chat_request in *.
  destruct prompt as [|p ps]; destruct stream; by rewrite ?H1, ?H2.
Qed.

Lemma bind_cong_l {St A B : Type} (m1 m2 : M St A) (k : A -> M St B) st w :
  m1 st w = m2 st w -> bind m1 k st w = bind m2 k st w.
Proof. intros H. unfold bind. by rewrite H. Qed.

Lemma bind_cong_r {St A B : Type} (m : M St A) (k1 k2 : A -> M St B) st w :
  (forall a st' w', m st w = Ok a st' w' -> k1 a st' w' = k2 a st' w') ->
  bind m k1 st w = bind m k2 st w.
Proof.
  intros H. unfold bind. destruct (m st w) as [a st' w'| |]; [|done..].
  by apply H.
Qed.

(** [send_message] asks the service one thing only: the request with the
    client's model, [MAX_TOKENS], the streaming flag, and as messages the
    system prompt (when it is not empty) followed by the context window
    read after the user's message was appended, so the last message of the
    request is the user's input and at most [MAX_CONTEXT_MESSAGES]
    messages follow the prompt.  Two services that answer this request
    alike give the same run. *)
Theorem send_message_request (user_input : pystr) (env : send_env)
  (other : service) (app : LLMCLIApp) (w : World) (c : LLMClient)
  (msgs : list message) :
  llm_client app = Some c ->
  sessions (chat_manager app) !! current_session (chat_manager app)
  = Some msgs ->
  let user := {| role := lit "user"; content := user_input;
                 timestamp := now_user env |} in
  let context :=
    map strip_timestamp
        (slice_from (- MAX_CONTEXT_MESSAGES) (trimmed (msgs ++ [user]))) in
  let req := chat_request (model c) context (system_prompt app)
                          (streaming app) in
  last (req_messages req)
  = Some {| api_role := lit "user"; api_content := user_input |}
  /\ 1 <= len context <= MAX_CONTEXT_MESSAGES
  /\ (create other req = create (remote env) req ->
      create_stream other req = create_stream (remote env) req ->
      send_message user_input
        {| now_user := now_user env; now_assistant := now_assistant env;
           remote := other; save_io := save_io env |} app w
      = send_message user_input env app w).
Proof.
  intros Hc Hcur user context req.
  destruct (trimmed_snoc msgs user) as [older Holder].
  destruct (slice_from_neg_snoc MAX_CONTEXT_MESSAGES older user
              MAX_CONTEXT_MESSAGES_pos) as [older' Hslice].
  assert (Hctx : context = map strip_timestamp older'
                           ++ [{| api_role := lit "user";
                                  api_content := user_input |}]).
  { unfold context. rewrite Holder, Hslice, map_app. done. }
  split.
  { unfold req, chat_request. cbn [req_messages].
    destruct (system_prompt app) as [|p ps]; rewrite Hctx.
    - apply last_snoc.
    - rewrite app_comm_cons. apply last_snoc. }
  split.
  { unfold context, len. rewrite length_map.
    fold (len (slice_from (- MAX_CONTEXT_MESSAGES) (trimmed (msgs ++ [user])))).
    rewrite slice_from_neg_length by apply MAX_CONTEXT_MESSAGES_pos.
    rewrite Holder. unfold len. rewrite length_app. cbn [length].
    change MAX_CONTEXT_MESSAGES with 20. lia. }
  intros H1 H2.
  assert (Hg : gets llm_client app w = Ok (Some c) app w)
    by (unfold gets; by rewrite Hc).
  unfold send_message. rewrite !(bind_Ok _ _ _ _ _ _ _ Hg). cbv beta iota.
  cbn [now_user now_assistant remote save_io].
  pose proof (add_message_run (lit "user") user_input (now_user env)
                (chat_manager app) w msgs Hcur) as Hadd.
  fold user in Hadd.
  set (cm1 := set_sessions _ (chat_manager app)) in Hadd.
  rewrite !(bind_Ok _ _ _ _ _ _ _
              (on_field_Ok chat_manager set_chat_manager _ app w _ _ _ Hadd)).
  assert (Hcur1 : sessions cm1 !! current_session cm1
                  = Some (trimmed (msgs ++ [user]))).
  { cbn. by rewrite lookup_insert_eq. }
  pose proof (get_context_run cm1 w _ Hcur1) as Hget. fold context in Hget.
  set (app1 := set_chat_manager cm1 app).
  rewrite !(bind_Ok _ _ _ _ _ _ _
              (on_field_Ok chat_manager set_chat_manager _ app1 w _ _ _ Hget)).
  change (set_chat_manager cm1 app1) with app1.
  apply bind_cong_r. intros [] app1' w1 Hthink.
  assert (app1' = app1 /\ w1 = emit (ConsolePrint msg_thinking) w) as [-> ->].
  { unfold console_print, output in Hthink.
    destruct (terminal w (trace w) (ConsolePrint msg_thinking)); [done|].
    by injection Hthink as <- <-. }
  unfold try_except_RuntimeError.
  rewrite !(bind_Ok (gets system_prompt) _ app1 _ (system_prompt app) app1 _
              eq_refl).
  rewrite !(bind_Ok (gets streaming) _ app1 _ (streaming app) app1 _ eq_refl).
  assert (Hchat :
    on_llm_client c (chat context (Some (system_prompt app)) (streaming app)
                          other) app1 (emit (ConsolePrint msg_thinking) w)
    = on_llm_client c (chat context (Some (system_prompt app)) (streaming app)
                            (remote env)) app1
                    (emit (ConsolePrint msg_thinking) w)).
  { unfold on_llm_client, on_field.
    by rewrite (chat_depends_on_request context (system_prompt app)
                  (streaming app) other (remote env) c _ H1 H2). }
  by rewrite (bind_cong_l _ _ _ _ _ Hchat).
Qed.

Lemma send_message_request_witness :
  let cm := {| history_file := HISTORY_FILE;
               sessions := {[ lit "s" := [] ]};
               current_session := lit "s" |} in
  let c := {| api_key := lit "k"; base_url := lit "u"; model := lit "m" |} in
  let app := {| chat_manager := cm; llm_client := Some c;
                system_prompt := lit "p"; streaming := false |} in
  let env := {| now_user := lit "t1"; now_assistant := lit "t2";
                remote := {| create := fun _ => inr (lit "Hello");
                             create_stream := fun _ => inr {| chunks := [];
                                                  stream_error := None |} |};
                save_io := {| write_error := None; residue := None |} |} in
  let w := {| files := ∅; trace := []; terminal := quiet |} in
  last (req_messages
          (chat_request (lit "m")
             [{| api_role := lit "user"; api_content := lit "q" |}]
             (lit "p") false))
  = Some {| api_role := lit "user"; api_content := lit "q" |}.
Proof.
  intros cm c app env w.
  exact (proj1 (send_message_request (lit "q") env (remote env) app w c []
                  eq_refl eq_refl)).
Defined.

(** [clear_history_empties] and [switch_session_creates_or_keeps] on a
    table of two sessions: the other session keeps its message through a
    clear of the current one and through a switch to a new name. *)
Lemma clear_history_empties_witness :
  let m := {| role := lit "user"; content := lit "hi"; timestamp := lit "t" |} in
  let self := {| history_file := HISTORY_FILE;
                 sessions := {[ lit "a" := [m]; lit "b" := [m] ]};
                 current_session := lit "a" |} in
  let w := {| files := ∅; trace := []; terminal := quiet |} in
  let io := {| write_error := None; residue := None |} in
  exists self',
    final_state (clear_history io self w) = Some self'
    /\ sessions self' !! lit "a" = Some []
    /\ sessions self' !! lit "b" = Some [m].
Proof.
  intros m self w io.
  destruct (clear_history_empties io self w) as (Hst & Hcur & Hother & _).
  eexists. split; [exact Hst|]. split; [exact Hcur|].
  rewrite Hother; [reflexivity|]. vm_compute. discriminate.
Defined.

Lemma switch_session_creates_or_keeps_witness :
  let m := {| role := lit "user"; content := lit "hi"; timestamp := lit "t" |} in
  let self := {| history_file := HISTORY_FILE;
                 sessions := {[ lit "a" := [m] ]};
                 current_session := lit "a" |} in
  let w := {| files := ∅; trace := []; terminal := quiet |} in
  exists self' w',
    switch_session (lit "b") self w = Ok tt self' w'
    /\ sessions self' !! lit "b" = Some []
    /\ sessions self' !! lit "a" = Some [m].
Proof.
  intros m self w.
  destruct (switch_session_creates_or_keeps (lit "b") self w)
    as (self' & _ & Hrun & _ & Hnew & _ & Hkeep & _).
  exists self'. eexists. split.
  { apply Hrun. intros tr. reflexivity. }
  split; [exact Hnew|].
  apply Hkeep. vm_compute. reflexivity.
Defined.
(** ** When an output fails *)

Lemma consume_app before rest full_response w :
  shows_fragments w before ->
  consume (before ++ rest) full_response w
  = consume rest (full_response ++ fragments_text before)
            (emits (map Print (omap id before)) w).
Proof.
  revert full_response w.
  induction before as [|[content|] before IH]; intros full_response w Hshow.
  - cbn. by rewrite app_nil_r, emits_nil.
  - cbn [app consume].
    rewrite (Hshow content (list_elem_of_here _ _) (trace w)).
    rewrite IH.
    + unfold fragments_text. cbn. by rewrite emits_emit, <- app_assoc.
    + intros c Hc. exact (Hshow c (list_elem_of_further _ _ _ Hc)).
  - cbn [app consume]. rewrite IH; [done|].
    intros c Hc. exact (Hshow c (list_elem_of_further _ _ _ Hc)).
Qed.

(** A fragment the terminal cannot print ends the stream: [print] raises
    inside the [try] of [_handle_stream], so the fragments printed before
    it are what is returned, that fragment and all later ones are lost,
    and the exception of [print] is what the handler reports.  When the
    terminal does not show the report either, its exception leaves
    [_handle_stream]. *)
Theorem _handle_stream_print_fails (response : stream)
  (before after : list (option pystr)) (content : pystr) (x : output_error)
  (self : LLMClient) (w : World) :
  chunks response = before ++ Some content :: after ->
  shows_fragments w before ->
  terminal w (trace w ++ map Print (omap id before)) (Print content) = Some x ->
  let report := ConsolePrint (msg_stream_error (output_error_text x)) in
  let w1 := emits (map Print (omap id before)) w in
  (renders w report ->
   _handle_stream response self w
   = Ok (fragments_text before) self (emit report w1))
  /\ (forall y, terminal w (trace w1) report = Some y ->
      _handle_stream response self w = Raise (raised y) self w1).
Proof.
  intros Hchunks Hshow Hfail report w1.
  assert (Hrun : consume (chunks response) [] w
                 = (fragments_text before, w1, Some x)).
  { rewrite Hchunks, consume_app by done. cbn [consume app].
    change (terminal (emits ?es w)) with (terminal w).
    change (trace (emits ?es w)) with (trace w ++ es).
    by rewrite Hfail. }
  unfold _handle_stream. rewrite Hrun. split.
  - intros Hrep. unfold bind. by rewrite console_print_renders.
  - intros y Hy. unfold bind, console_print, output.
    change (terminal w1) with (terminal w). unfold report in Hy.
    by rewrite Hy.
Qed.

(** A stream of "ab", "[?]", "cd" in front of a terminal that cannot print
    the second fragment: "ab" is returned. *)
Lemma _handle_stream_print_fails_witness :
  let x := {| is_runtime_error := false; output_error_text := lit "cannot encode" |} in
  let picky : list event -> event -> option output_error :=
    fun _ e => match e with
               | Print [91; 63; 93] => Some x
               | _ => None
               end in
  let w := {| files := ∅; trace := []; terminal := picky |} in
  let response := {| chunks := [Some (lit "ab"); Some (lit "[?]"); Some (lit "cd")];
                     stream_error := None |} in
  let c := {| api_key := lit "k"; base_url := lit "u"; model := lit "m" |} in
  _handle_stream response c w
  = Ok (lit "ab") c
       (emits [Print (lit "ab");
               ConsolePrint (msg_stream_error (lit "cannot encode"))] w).
Proof.
  intros x picky w response c.
  destruct (_handle_stream_print_fails response [Some (lit "ab")]
              [Some (lit "cd")] (lit "[?]") x c w) as [Hrun _].
  - reflexivity.
  - intros content Hin tr.
    apply list_elem_of_singleton in Hin. injection Hin as ->. reflexivity.
  - reflexivity.
  - rewrite Hrun; [reflexivity|]. intros tr. reflexivity.
Defined.

(** The run of [send_message] when the terminal shows the thinking
    indicator and [chat] raises: the handler prints the error, and the
    session ends with the user's message. *)
Lemma send_message_chat_raises ui env app w c msgs text w2 :
  llm_client app = Some c ->
  sessions (chat_manager app) !! current_session (chat_manager app) = Some msgs ->
  let cm := chat_manager app in
  let user := {| role := lit "user"; content := ui; timestamp := now_user env |} in
  let stored1 := trimmed (msgs ++ [user]) in
  let messages :=
    map strip_timestamp (slice_from (- MAX_CONTEXT_MESSAGES) stored1) in
  renders w (ConsolePrint msg_thinking) ->
  chat messages (Some (system_prompt app)) (streaming app) (remote env) c
       (emit (ConsolePrint msg_thinking) w) = Raise (RuntimeError text) c w2 ->
  let cm1 := set_sessions (<[current_session cm := stored1]> (sessions cm)) cm in
  send_message ui env app w
  = console_print (msg_error text) (set_chat_manager cm1 app) w2.
Proof.
  intros Hc Hcur cm user stored1 messages Hthink Hchat cm1.
  unfold send_message, bind at 1, gets. rewrite Hc.
  pose proof (add_message_run (lit "user") ui (now_user env) cm w msgs Hcur) as H1.
  fold user stored1 cm1 in H1.
  rewrite (bind_Ok _ _ _ _ _ _ _ (on_field_Ok chat_manager set_chat_manager _ app w _ _ _ H1)).
  assert (Hcur1 : sessions cm1 !! current_session cm1 = Some stored1).
  { cbn. by rewrite lookup_insert_eq. }
  pose proof (get_context_run cm1 w stored1 Hcur1) as H2. fold messages in H2.
  set (app1 := set_chat_manager cm1 app).
  rewrite (bind_Ok _ _ _ _ _ _ _ (on_field_Ok chat_manager set_chat_manager _ app1 w _ _ _ H2)).
  change (set_chat_manager cm1 app1) with app1.
  rewrite (bind_Ok _ _ _ _ _ _ _
             (console_print_renders msg_thinking app1 w Hthink)).
  unfold try_except_RuntimeError.
  unfold bind at 1 2, gets.
  change (system_prompt app1) with (system_prompt app).
  change (streaming app1) with (streaming app).
  unfold bind at 1, on_llm_client, on_field. rewrite Hchat.
  assert (Happ1 : set_llm_client c app1 = app1).
  { unfold set_llm_client, app1, set_chat_manager. cbn. by rewrite Hc. }
  by rewrite Happ1.
Qed.

(** A stream that breaks in front of a terminal that does not show the
    report of the error (rich raises [MarkupError] when the text of the
    exception holds a closing tag that closes nothing): the exception of
    [console.print] leaves [_handle_stream], [chat] raises it again as a
    [RuntimeError] "Unexpected error: ...", and [send_message] appends
    no assistant message: the session ends with the user's message, and
    [save_history] does not run. *)
Theorem send_message_stream_report_fails (user_input : pystr)
  (env : send_env) (app : LLMCLIApp) (w : World) (c : LLMClient)
  (msgs : list message) (response : stream) (e : pystr) (y : output_error) :
  llm_client app = Some c ->
  streaming app = true ->
  sessions (chat_manager app) !! current_session (chat_manager app)
  = Some msgs ->
  (forall req, create_stream (remote env) req = inr response) ->
  stream_error response = Some e ->
  renders w (ConsolePrint msg_thinking) ->
  shows_fragments w (chunks response) ->
  terminal w (trace w ++ [ConsolePrint msg_thinking]
                      ++ map Print (omap id (chunks response)))
           (ConsolePrint (msg_stream_error e)) = Some y ->
  let cm := chat_manager app in
  let user := {| role := lit "user"; content := user_input;
                 timestamp := now_user env |} in
  let text := lit "Unexpected error: " ++ output_error_text y in
  let r := send_message user_input env app w in
  (forall messages prompt,
      chat messages prompt true (remote env) c
           (emit (ConsolePrint msg_thinking) w)
      = Raise (RuntimeError text) c
              (emits (map Print (omap id (chunks response)))
                     (emit (ConsolePrint msg_thinking) w)))
  /\ exists older,
       final_state r
       = Some (set_chat_manager
                 (set_sessions (<[current_session cm := older ++ [user]]>
                                  (sessions cm)) cm) app)
       /\ saves (final_world r) = saves w
       /\ (renders w (ConsolePrint (msg_error text)) ->
           exists w', r = Ok tt (set_chat_manager
                                   (set_sessions
                                      (<[current_session cm := older ++ [user]]>
                                         (sessions cm)) cm) app) w').
Proof.
  intros Hc Hstream Hcur Hsvc Herr Hthink Hfr Hy cm user text r.
  set (w1 := emit (ConsolePrint msg_thinking) w).
  set (w2 := emits (map Print (omap id (chunks response))) w1).
  assert (Hchat : forall messages prompt,
             chat messages prompt true (remote env) c w1
             = Raise (RuntimeError text) c w2).
  { intros messages prompt.
    rewrite (chat_stream_run _ _ _ _ _ response) by done.
    unfold reraise_unexpected, _handle_stream.
    rewrite consume_run by exact Hfr. rewrite Herr.
    unfold bind, console_print, output. fold w2.
    change (terminal w2) with (terminal w).
    change (trace w2)
      with ((trace w ++ [ConsolePrint msg_thinking])
            ++ map Print (omap id (chunks response))).
    rewrite <- app_assoc, Hy.
    unfold raised, unexpected. by destruct (is_runtime_error y). }
  split; [exact Hchat|].
  destruct (trimmed_snoc msgs user) as [older Holder].
  exists older.
  pose proof (send_message_chat_raises user_input env app w c msgs text w2
                Hc Hcur Hthink) as Hrun.
  cbv zeta in Hrun. fold cm user r in Hrun.
  rewrite Hstream, Holder in Hrun. specialize (Hrun (Hchat _ _)).
  rewrite Hrun.
  split; [apply output_final_state|].
  split.
  { rewrite console_print_saves. unfold w2, w1.
    rewrite saves_emits, filter_is_save_Print, app_nil_r.
    apply saves_emit_ConsolePrint. }
  intros Hshow. eexists. by apply console_print_renders.
Qed.

(** The stream of the claim, "Par" and then an exception, whose text is
    now "[/b]", in front of a terminal that raises on the report of that
    text: the session stops at the user's message. *)
Lemma send_message_stream_report_fails_witness :
  let cm := {| history_file := HISTORY_FILE;
               sessions := {[ lit "s" := [] ]};
               current_session := lit "s" |} in
  let c := {| api_key := lit "k"; base_url := lit "u"; model := lit "m" |} in
  let app := {| chat_manager := cm; llm_client := Some c;
                system_prompt := lit "p"; streaming := true |} in
  let broken := {| chunks := [Some (lit "Par")];
                   stream_error := Some (lit "[/b]") |} in
  let svc := {| create := fun _ => inr [];
                create_stream := fun _ => inr broken |} in
  let env := {| now_user := lit "t1"; now_assistant := lit "t2";
                remote := svc;
                save_io := {| write_error := None; residue := None |} |} in
  let y := {| is_runtime_error := false;
              output_error_text := lit "closing tag does not match" |} in
  let strict : list event -> event -> option output_error :=
    fun _ ev =>
      match ev with
      | ConsolePrint text =>
          if bool_decide (text = msg_stream_error (lit "[/b]"))
          then Some y else None
      | _ => None
      end in
  let w := {| files := ∅; trace := []; terminal := strict |} in
  exists older,
    final_state (send_message (lit "q") env app w)
    ≫= (fun app' => sessions (chat_manager app') !! lit "s")
    = Some (older ++ [ {| role := lit "user"; content := lit "q";
                          timestamp := lit "t1" |} ]).
Proof.
  intros cm c app broken svc env y strict w.
  destruct (send_message_stream_report_fails (lit "q") env app w c [] broken
              (lit "[/b]") y) as (_ & older & Hst & _).
  - reflexivity.
  - reflexivity.
  - vm_compute. reflexivity.
  - intros req. reflexivity.
  - reflexivity.
  - intros tr. vm_compute. reflexivity.
  - intros content Hin tr.
    apply list_elem_of_singleton in Hin. injection Hin as ->.
    vm_compute. reflexivity.
  - vm_compute. reflexivity.
  - exists older. rewrite Hst. cbn [mbind option_bind].
    cbn [chat_manager set_chat_manager sessions set_sessions current_session cm app].
    apply lookup_insert_eq.
Defined.


